(** * AI social media post generator: validator, feedback, retry graph
      and per-platform generation

    A shallow embedding of [main.py].  The file holds three generations
    of the application: the active one (the password form, one model
    call per platform, [generate_for_platform], the "Generate Content"
    button and the tabs) and two dormant LangGraph drafts (validator,
    retry graph, feedback formatter, repair step).  Each definition
    carries the name of the Python function it embeds; the graph is the
    one of the first draft, the formatter and the repair step come from
    the second.

    Python values are modelled as follows.
    - [str] is a Rocq [string]; one [ascii] stands for one code point, so
      the model covers the strings whose code points are below 256.
    - the result of a JSON parse ([dict], [list], [str], number, [bool],
      [None]) is a [json] value; a [dict] keeps its insertion order and
      holds each key once.
    - a raised exception is the [Raise] branch of [result].
    - the hosted model, the LangChain parser, the environment variables
      and the Streamlit display are outside the program: what they
      answer is a parameter ([Graph.Model], [App.World]), what is sent
      or shown is recorded ([Graph.Job], [App.Effects]). *)

From Stdlib Require Import String Ascii List ZArith Bool Arith Lia.
From Stdlib Require Import DecimalString.
Import ListNotations.

Local Open Scope string_scope.
Local Open Scope list_scope.

(** ** Characters and strings of Python *)

Module Py.

Definition nl : string := String "010"%char EmptyString.
Definition dquote : ascii := "034"%char.
Definition squote : ascii := "039"%char.
Definition backslash : ascii := "092"%char.

(** [sub in s] *)
Fixpoint contains (sub s : string) : bool :=
  prefix sub s ||
  match s with
  | EmptyString => false
  | String _ s' => contains sub s'
  end.

(** [s.startswith(p)] *)
Definition startswith (s p : string) : bool := prefix p s.

(** [sep.join(l)] *)
Definition join (sep : string) (l : list string) : string := String.concat sep l.

(** [str(n)] for a natural number, as an f-string prints [len(...)]. *)
Definition str_of_nat (n : nat) : string := NilEmpty.string_of_uint (Nat.to_uint n).

(** [c.isspace()] on code points below 256. *)
Definition isspace (c : ascii) : bool :=
  let n := nat_of_ascii c in
  (((9 <=? n) && (n <=? 13)) || ((28 <=? n) && (n <=? 32)) || (n =? 133) || (n =? 160))%nat.

Fixpoint lstrip (s : string) : string :=
  match s with
  | EmptyString => EmptyString
  | String c s' => if isspace c then lstrip s' else s
  end.

Fixpoint rstrip (s : string) : string :=
  match s with
  | EmptyString => EmptyString
  | String c s' =>
      match rstrip s' with
      | EmptyString => if isspace c then EmptyString else String c EmptyString
      | r => String c r
      end
  end.

(** [s.strip()] *)
Definition strip (s : string) : string := rstrip (lstrip s).

(** [s.replace(old, new)] for a non-empty [old]: occurrences are taken
    from left to right and do not overlap.  [skip] counts the characters
    of the current occurrence that are still to be dropped. *)
Fixpoint replace_from (old new s : string) (skip : nat) : string :=
  match s with
  | EmptyString => EmptyString
  | String c s' =>
      match skip with
      | S k => replace_from old new s' k
      | O =>
          if prefix old s
          then new ++ replace_from old new s' (String.length old - 1)
          else String c (replace_from old new s' 0)
      end
  end.

Definition replace (s old new : string) : string := replace_from old new s 0.

(** [s.split(sep)] for a non-empty [sep]: the piece being read and the
    pieces after it. *)
Fixpoint split_from (sep s : string) (skip : nat) : string * list string :=
  match s with
  | EmptyString => (EmptyString, [])
  | String c s' =>
      match skip with
      | S k => split_from sep s' k
      | O =>
          if prefix sep s
          then let '(p, r) := split_from sep s' (String.length sep - 1) in
               (EmptyString, p :: r)
          else let '(p, r) := split_from sep s' 0 in
               (String c p, r)
      end
  end.

Definition split (s sep : string) : list string :=
  let '(p, r) := split_from sep s 0 in p :: r.

(** *** [repr] of a [str] and of a list of [str] *)

Definition hex_digit (n : nat) : ascii :=
  if (n <? 10)%nat then ascii_of_nat (48 + n) else ascii_of_nat (87 + n).

(** [c.isprintable()] on code points below 256. *)
Definition isprintable (c : ascii) : bool :=
  let n := nat_of_ascii c in
  (((32 <=? n) && (n <=? 126)) || ((161 <=? n) && negb (n =? 173)))%nat.

Definition repr_char (q c : ascii) : string :=
  let n := nat_of_ascii c in
  if Ascii.eqb c backslash then String backslash (String backslash EmptyString)
  else if Ascii.eqb c q then String backslash (String q EmptyString)
  else if (n =? 9)%nat then String backslash "t"
  else if (n =? 10)%nat then String backslash "n"
  else if (n =? 13)%nat then String backslash "r"
  else if isprintable c then String c EmptyString
  else String backslash
         (String "x" (String (hex_digit (n / 16)) (String (hex_digit (n mod 16)) EmptyString))).

Fixpoint repr_chars (q : ascii) (s : string) : string :=
  match s with
  | EmptyString => EmptyString
  | String c s' => repr_char q c ++ repr_chars q s'
  end.

Fixpoint has_char (c : ascii) (s : string) : bool :=
  match s with
  | EmptyString => false
  | String d s' => Ascii.eqb c d || has_char c s'
  end.

(** [repr(s)]: single quotes unless [s] holds a single quote and no
    double quote. *)
Definition repr_str (s : string) : string :=
  let q := if has_char squote s && negb (has_char dquote s) then dquote else squote in
  String q (repr_chars q s ++ String q EmptyString).

(** [repr(l)] for a list of [str], as an f-string prints [missing[:3]]. *)
Definition repr_list (l : list string) : string :=
  "[" ++ join ", " (map repr_str l) ++ "]".

End Py.

(** ** Exceptions and results *)

Inductive exn : Type :=
| KeyError (key : string)          (* [d[k]] on a dict without [k] *)
| TypeError                        (* [len] or [[]] on a value that has none *)
| AttributeError                   (* [.startswith] on a value that is not a str *)
| ValueError (msg : string)
| ExternalError (msg : string)     (* raised by the model client or the parser *)
| GraphRecursionError.             (* LangGraph's step limit reached *)

(** [str(e)], as [f"{e}"] prints it. *)
Definition str_exn (e : exn) : string :=
  match e with
  | KeyError k => Py.repr_str k
  | TypeError => "TypeError"
  | AttributeError => "AttributeError"
  | ValueError m => m
  | ExternalError m => m
  | GraphRecursionError => "GraphRecursionError"
  end.

Inductive result (A : Type) : Type :=
| OK (a : A)
| Raise (e : exn).
Arguments OK {A} a.
Arguments Raise {A} e.

(** ** Parsed JSON *)

#[warnings="-register-all"]
Inductive json : Type :=
| JNull
| JBool (b : bool)
| JNum (z : Z)
| JStr (s : string)
| JList (l : list json)
| JDict (d : list (string * json)).

Fixpoint assoc {A : Type} (k : string) (d : list (string * A)) : option A :=
  match d with
  | [] => None
  | (k', v) :: d' => if String.eqb k k' then Some v else assoc k d'
  end.

(** [v[k]] with a string key. *)
Definition subscript (v : json) (k : string) : result json :=
  match v with
  | JDict d => match assoc k d with Some x => OK x | None => Raise (KeyError k) end
  | _ => Raise TypeError
  end.

(** [len(v)]. *)
Definition len (v : json) : result nat :=
  match v with
  | JStr s => OK (String.length s)
  | JList l => OK (List.length l)
  | JDict d => OK (List.length d)
  | _ => Raise TypeError
  end.

Fixpoint chars (s : string) : list json :=
  match s with
  | EmptyString => []
  | String c s' => JStr (String c EmptyString) :: chars s'
  end.

(** The items [for h in v] runs over: the elements of a list, the
    characters of a str, the keys of a dict. *)
Definition items (v : json) : result (list json) :=
  match v with
  | JList l => OK l
  | JStr s => OK (chars s)
  | JDict d => OK (map (fun kv => JStr (fst kv)) d)
  | _ => Raise TypeError
  end.

(** [[h for h in l if keep(h)]] where [keep] calls a method of [str] on
    [h] ([h.startswith]): an item that is not a str raises. *)
Fixpoint comprehension (keep : string -> bool) (l : list json) : result (list string) :=
  match l with
  | [] => OK []
  | JStr s :: l' =>
      match comprehension keep l' with
      | OK r => OK (if keep s then s :: r else r)
      | Raise e => Raise e
      end
  | _ :: _ => Raise AttributeError
  end.

(** Truth value of [v], as [if v:] and [not v] take it. *)
Definition truthy (v : json) : bool :=
  match v with
  | JNull => false
  | JBool b => b
  | JNum z => negb (Z.eqb z 0)
  | JStr s => negb (String.eqb s EmptyString)
  | JList l => match l with [] => false | _ => true end
  | JDict d => match d with [] => false | _ => true end
  end.

(** ** The validator of the LangGraph draft *)

Module Validator.

(** The body of the [try] block appends to [issues] as it goes, and an
    exception leaves what was appended so far in place. *)
Definition V (A : Type) : Type := list string -> list string * result A.

Definition ret {A : Type} (a : A) : V A := fun issues => (issues, OK a).

Definition bind {A B : Type} (m : V A) (f : A -> V B) : V B :=
  fun issues =>
    match m issues with
    | (issues', OK a) => f a issues'
    | (issues', Raise e) => (issues', Raise e)
    end.

Definition lift {A : Type} (r : result A) : V A := fun issues => (issues, r).

(** [issues.append(issue)] *)
Definition append (issue : string) : V unit := fun issues => (issues ++ [issue], OK tt).

Definition when (b : bool) (m : V unit) : V unit := if b then m else ret tt.

Notation "x <- m ;; k" := (bind m (fun x => k))
  (at level 61, m at next level, right associativity).
Notation "m ;;; k" := (bind m (fun _ => k))
  (at level 61, right associativity).

(** [len(d[k])] *)
Definition len_of (d : json) (k : string) : V nat :=
  lift (match subscript d k with OK v => len v | Raise e => Raise e end).

(** [[h for h in d[k] if keep(h)]] *)
Definition pick (d : json) (k : string) (keep : string -> bool) : V (list string) :=
  lift (match subscript d k with
        | OK v => match items v with
                  | OK l => comprehension keep l
                  | Raise e => Raise e
                  end
        | Raise e => Raise e
        end).

Definition nonempty {A : Type} (l : list A) : bool :=
  match l with [] => false | _ => true end.

Definition header : string := "Validation Failed. You MUST fix these issues:".

Definition try_block (content : json) : V unit :=
  ig <- lift (subscript content "instagram") ;;
  n <- len_of ig "caption" ;;
  when (2200 <? n)%nat (append "Instagram Caption: Exceeds 2,200 characters.") ;;;
  n <- len_of ig "alt_text" ;;
  when (100 <? n)%nat (append "Instagram Alt Text: Exceeds 100 characters.") ;;;
  n <- len_of ig "hashtags" ;;
  when (negb ((15 <=? n) && (n <=? 30))%nat)
    (k <- len_of ig "hashtags" ;;
     append ("Instagram Hashtags: Incorrect count (" ++ Py.str_of_nat k ++ "). Must be 15-30.")) ;;;
  missing <- pick ig "hashtags" (fun h => negb (Py.startswith h "#")) ;;
  when (nonempty missing)
    (append ("Instagram Hashtags: Missing '#' on: " ++ Py.repr_list (firstn 3 missing))) ;;;
  pin <- lift (subscript content "pinterest") ;;
  n <- len_of pin "title" ;;
  when (100 <? n)%nat (append "Pinterest Title: Exceeds 100 characters.") ;;;
  n <- len_of pin "description" ;;
  when (500 <? n)%nat (append "Pinterest Description: Exceeds 500 characters.") ;;;
  n <- len_of pin "keywords" ;;
  when (negb ((15 <=? n) && (n <=? 20))%nat)
    (k <- len_of pin "keywords" ;;
     append ("Pinterest Keywords: Incorrect count (" ++ Py.str_of_nat k ++ "). Must be 15-20.")) ;;;
  has_hash <- pick pin "keywords" (fun k => Py.startswith k "#") ;;
  when (nonempty has_hash)
    (append ("Pinterest Keywords: Should not have '#': " ++ Py.repr_list (firstn 3 has_hash))).

(** The issue the [except KeyError as e] handler appends. *)
Definition missing_field (e : exn) : string :=
  "A required field is missing from the AI's response: " ++ str_exn e.

(** The issues at the [return]: those of the [try] block, and the one of
    the handler when a [KeyError] ended the block.  Any other exception
    leaves the function. *)
Definition collect_issues (content : json) : result (list string) :=
  match try_block content [] with
  | (issues, OK _) => OK issues
  | (issues, Raise (KeyError k)) => OK (issues ++ [missing_field (KeyError k)])
  | (_, Raise e) => Raise e
  end.

(** The text returned for a list of issues. *)
Definition report (issues : list string) : string :=
  if nonempty issues
  then Py.join (Py.nl ++ "- ") (header :: issues)
  else "Validation Passed".

Definition comprehensive_content_validator (content : json) : result string :=
  match collect_issues content with
  | OK issues => OK (report issues)
  | Raise e => Raise e
  end.

(** *** Vocabulary for the statements about the validator *)

(** A candidate that has every field the validator reads, a text where a
    text is expected and a list of texts where a list is. *)
Definition shaped (content : json) (caption alt_text : string) (hashtags : list string)
    (title description : string) (keywords : list string) : Prop :=
  exists ig pin,
    subscript content "instagram" = OK ig /\
    subscript ig "caption" = OK (JStr caption) /\
    subscript ig "alt_text" = OK (JStr alt_text) /\
    subscript ig "hashtags" = OK (JList (map JStr hashtags)) /\
    subscript content "pinterest" = OK pin /\
    subscript pin "title" = OK (JStr title) /\
    subscript pin "description" = OK (JStr description) /\
    subscript pin "keywords" = OK (JList (map JStr keywords)).

(** The outcome of each check taken alone: no issue or one. *)
Definition too_long (bound : nat) (issue : string) (s : string) : list string :=
  if (bound <? String.length s)%nat then [issue] else [].

Definition in_range (lo hi : nat) (l : list string) : bool :=
  ((lo <=? List.length l) && (List.length l <=? hi))%nat.

Definition count_issue (label range : string) (l : list string) : string :=
  label ++ ": Incorrect count (" ++ Py.str_of_nat (List.length l) ++ "). Must be " ++ range ++ ".".

Definition wrong_count (lo hi : nat) (label range : string) (l : list string) : list string :=
  if negb (in_range lo hi l) then [count_issue label range l] else [].

Definition lacks_hash (h : string) : bool := negb (Py.startswith h "#").
Definition has_hash (k : string) : bool := Py.startswith k "#".

(** The offending items an issue names. *)
Definition named (offending : list string) : list string := firstn 3 offending.

Definition prefix_issue (label : string) (offending : list string) : string :=
  label ++ Py.repr_list (named offending).

Definition wrong_prefix (label : string) (offending : list string) : list string :=
  if nonempty offending then [prefix_issue label offending] else [].

Definition instagram_checks (caption alt_text : string) (hashtags : list string) : list string :=
  too_long 2200 "Instagram Caption: Exceeds 2,200 characters." caption
  ++ too_long 100 "Instagram Alt Text: Exceeds 100 characters." alt_text
  ++ wrong_count 15 30 "Instagram Hashtags" "15-30" hashtags
  ++ wrong_prefix "Instagram Hashtags: Missing '#' on: " (filter lacks_hash hashtags).

Definition pinterest_checks (title description : string) (keywords : list string) : list string :=
  too_long 100 "Pinterest Title: Exceeds 100 characters." title
  ++ too_long 500 "Pinterest Description: Exceeds 500 characters." description
  ++ wrong_count 15 20 "Pinterest Keywords" "15-20" keywords
  ++ wrong_prefix "Pinterest Keywords: Should not have '#': " (filter has_hash keywords).

(** The text returned for a list of issues, spelled out: the header,
    then each issue behind a line break, a dash and a space. *)
Definition failed_text (issues : list string) : string :=
  String.concat (String "010"%char "- ")
    ("Validation Failed. You MUST fix these issues:" :: issues).

(** The text returned for the outcomes of the checks: "Validation
    Passed" when there is no issue. *)
Definition verdict_text (issues : list string) : string :=
  match issues with
  | [] => "Validation Passed"
  | _ => failed_text issues
  end.

(** A candidate that meets every constraint the validator checks. *)
Definition conforms (caption alt_text : string) (hashtags : list string)
    (title description : string) (keywords : list string) : Prop :=
  String.length caption <= 2200 /\
  String.length alt_text <= 100 /\
  15 <= List.length hashtags <= 30 /\
  Forall (fun h => Py.startswith h "#" = true) hashtags /\
  String.length title <= 100 /\
  String.length description <= 500 /\
  15 <= List.length keywords <= 20 /\
  Forall (fun k => Py.startswith k "#" = false) keywords.

(** Letter case put aside, to compare a message with the wording of a
    document. *)
Definition lower_char (c : ascii) : ascii :=
  let n := nat_of_ascii c in
  if ((65 <=? n) && (n <=? 90))%nat then ascii_of_nat (n + 32) else c.

Fixpoint lower (s : string) : string :=
  match s with
  | EmptyString => EmptyString
  | String c s' => String (lower_char c) (lower s')
  end.

(** The sample candidates of the second draft's prompt. *)
Definition good_pinterest : json :=
  JDict [("title", JStr "Breathtaking Ocean Sunset with Palm Tree Silhouettes");
         ("description", JStr "Discover the magic of golden hour with this stunning sunset photo.");
         ("keywords", JList (map JStr
            ["sunset photography"; "ocean wallpaper"; "tropical vacation"; "beach aesthetic";
             "travel inspiration"; "wanderlust travel"; "golden hour light";
             "palm tree silhouette"; "serene landscapes"; "beautiful nature"; "vacation goals";
             "island getaway"; "seascape photography"; "calm ocean"; "summer vibes";
             "dream destination"]));
         ("alt_text", JStr "A scenic view.")].

Definition good_hashtags : list string :=
  ["#sunsetlover"; "#oceanview"; "#goldenhour"; "#travelgram"; "#instatravel"; "#beachlife";
   "#paradise"; "#naturephotography"; "#skyonfire"; "#serenity"; "#beautifuldestinations";
   "#wanderlust"; "#islandvibes"; "#dusk"; "#goodvibes"; "#travelphotography";
   "#sunsetphotography"].

Definition good_candidate : json :=
  JDict [("instagram",
          JDict [("caption", JStr "Chasing the last light of the day.");
                 ("hashtags", JList (map JStr good_hashtags));
                 ("alt_text", JStr "Vibrant orange and pink sunset over a calm ocean.")]);
         ("pinterest", good_pinterest)].

(** Three hashtags, two of them without the marker; the rest is in
    order. *)
Definition three_hashtags : json :=
  JDict [("instagram",
          JDict [("caption", JStr "A very long caption...");
                 ("hashtags", JList [JStr "travel"; JStr "sunset"; JStr "#vacation"]);
                 ("alt_text", JStr "A beautiful sunset over the ocean with palm trees.")]);
         ("pinterest", good_pinterest)].


(** Three hashtags, two of them without the marker, in an Instagram
    block without alt text. *)
Definition no_alt_text : json :=
  JDict [("instagram",
          JDict [("caption", JStr "A very long caption...");
                 ("hashtags", JList [JStr "travel"; JStr "sunset"; JStr "#vacation"])]);
         ("pinterest", good_pinterest)].

(** Five hashtags without the marker; the rest is in order. *)
Definition five_plain_hashtags : json :=
  JDict [("instagram",
          JDict [("caption", JStr "Chasing the last light of the day.");
                 ("hashtags", JList [JStr "sea"; JStr "sun"; JStr "sand"; JStr "surf";
                                     JStr "salt"]);
                 ("alt_text", JStr "Vibrant orange and pink sunset over a calm ocean.")]);
         ("pinterest", good_pinterest)].

(** An Instagram block in order, and a Pinterest block without title
    whose keywords all start with '#'. *)
Definition no_title : json :=
  JDict [("instagram",
          JDict [("caption", JStr "Chasing the last light of the day.");
                 ("hashtags", JList (map JStr good_hashtags));
                 ("alt_text", JStr "Vibrant orange and pink sunset over a calm ocean.")]);
         ("pinterest",
          JDict [("description", JStr "Just a photo.");
                 ("keywords", JList [JStr "#travel"; JStr "#sunset"; JStr "#vacation";
                                     JStr "#beach"])])].

End Validator.

(** ** The feedback formatter of the second LangGraph draft *)

Module Feedback.

Definition opening : string := "<PREVIOUS_ATTEMPT_FEEDBACK>".
Definition closing : string := "</PREVIOUS_ATTEMPT_FEEDBACK>".
Definition directive : string := "You MUST fix the following errors from your last attempt:".

Definition blank (s : string) : bool :=
  match s with EmptyString => true | _ => false end.

(** [[f"{i+1}. {issue}" for i, issue in enumerate(l)]], with [i] counted
    from [start]. *)
Fixpoint numbered (start : nat) (l : list string) : list string :=
  match l with
  | [] => []
  | issue :: l' => (Py.str_of_nat (start + 1) ++ ". " ++ issue)%string :: numbered (S start) l'
  end.

Definition format_feedback_for_prompt (feedback : string) : string :=
  if negb (Py.contains "Failed" feedback) then EmptyString
  else
    let issues :=
      Py.split (Py.strip (Py.replace feedback Validator.header EmptyString)) (Py.nl ++ "- ") in
    let valid_issues :=
      map Py.strip (filter (fun issue => negb (blank (Py.strip issue))) issues) in
    if negb (Validator.nonempty valid_issues) then EmptyString
    else
      let formatted_list := Py.join Py.nl (numbered 0 valid_issues) in
      (opening ++ Py.nl ++ directive ++ Py.nl ++ formatted_list ++ Py.nl ++ closing)%string.

(** *** Vocabulary for the statements about the formatter *)

(** The separator of the validator's report. *)
Definition sep : string := Py.nl ++ "- ".

(** The issues after the first, each behind its separator. *)
Fixpoint tails (l : list string) : string :=
  match l with
  | [] => EmptyString
  | issue :: l' => sep ++ issue ++ tails l'
  end.

(** An issue as the validator words it: not empty, no white space at
    either end, no line break, and no occurrence of the header of the
    validator's report. *)
Definition clean (issue : string) : Prop :=
  issue <> EmptyString /\
  Py.lstrip issue = issue /\
  Py.rstrip issue = issue /\
  Py.has_char "010"%char issue = false /\
  Py.contains Validator.header issue = false.

(** The block put around the numbered lines. *)
Definition block (lines : list string) : string :=
  opening ++ Py.nl ++ directive ++ Py.nl ++ Py.join Py.nl lines ++ Py.nl ++ closing.

End Feedback.

(** ** The retry graph of the first LangGraph draft *)

Module Graph.

(** [GraphState]: a dict in which a key may be absent.  LangGraph hands
    a node the keys written so far, so that [state[k]] raises [KeyError]
    on the others and [state.get(k, default)] gives the default.  A node
    returns a dict of the keys it sets, of the same shape. *)
Record GraphState : Type := {
  image_base64 : option string;
  analysis : option json;
  social_content : option json;
  validation_feedback : option string;
  retry_count : option Z;
  max_retries : option Z;
  error_history : option (list string)
}.

Definition no_keys : GraphState :=
  {| image_base64 := None; analysis := None; social_content := None;
     validation_feedback := None; retry_count := None; max_retries := None;
     error_history := None |}.

Definition over {A : Type} (new old : option A) : option A :=
  match new with Some _ => new | None => old end.

(** LangGraph writes the keys a node returned over the state. *)
Definition update (st upd : GraphState) : GraphState :=
  {| image_base64 := over (image_base64 upd) (image_base64 st);
     analysis := over (analysis upd) (analysis st);
     social_content := over (social_content upd) (social_content st);
     validation_feedback := over (validation_feedback upd) (validation_feedback st);
     retry_count := over (retry_count upd) (retry_count st);
     max_retries := over (max_retries upd) (max_retries st);
     error_history := over (error_history upd) (error_history st) |}.

(** [state[k]] *)
Definition key {A : Type} (k : string) (v : option A) : result A :=
  match v with Some a => OK a | None => Raise (KeyError k) end.

(** [state.get(k, default)] *)
Definition get {A : Type} (v : option A) (default : A) : A :=
  match v with Some a => a | None => default end.

(** What goes into the generation prompt besides its fixed wording. *)
Record Prompt : Type := {
  prompt_analysis : json;
  prompt_feedback : string
}.

(** The hosted model.  [ChatGoogleGenerativeAI(...)] builds the client,
    or raises when it cannot (no credentials); with the JSON parser piped
    behind the client, [(model | parser).invoke(...)] returns parsed JSON
    or raises.  The generation calls of one job are numbered from 0. *)
Record Model : Type := {
  client : result unit;
  analysis_reply : string -> result json;
  content_reply : nat -> Prompt -> result json
}.

(** Calls of [st.write], [st.warning] and [st.success]. *)
Inductive Ui : Type :=
| write_analyzing
| write_crafting (attempt : Z)
| write_validating
| warning_max_retries
| success_validated.

Section Nodes.

Variable llm : Model.

(** The client is built and the message made before the [try]. *)
Definition analyze_image_node (state : GraphState) : result GraphState :=
  match client llm with
  | Raise e => Raise e
  | OK _ =>
      match key "image_base64" (image_base64 state) with
      | Raise e => Raise e
      | OK image =>
          match analysis_reply llm image with
          | OK a => OK {| image_base64 := None; analysis := Some a; social_content := None;
                          validation_feedback := None; retry_count := Some 0%Z;
                          max_retries := None; error_history := None |}
          | Raise e => OK {| image_base64 := None; analysis := None; social_content := None;
                             validation_feedback := None; retry_count := None;
                             max_retries := None;
                             error_history :=
                               Some [("Image Analysis Failed: " ++ str_exn e)%string] |}
          end
      end
  end.

Definition attempt_number (state : GraphState) : Z := (get (retry_count state) 0 + 1)%Z.

(** The prompt of [create_social_content_node]; [state['analysis']]
    raises before the [try] when the key is absent. *)
Definition build_prompt (state : GraphState) : result Prompt :=
  match key "analysis" (analysis state) with
  | Raise e => Raise e
  | OK a =>
      let feedback := get (validation_feedback state) EmptyString in
      OK {| prompt_analysis := a;
            prompt_feedback :=
              if Py.contains "Failed" feedback
              then ("<PREVIOUS_ATTEMPT_FEEDBACK>" ++ feedback ++ "</PREVIOUS_ATTEMPT_FEEDBACK>")%string
              else EmptyString |}
  end.

(** [n] is the number of generation calls made so far in the job; the
    node makes the next one, once the prompt is made and the client
    built. *)
Definition create_social_content_node (n : nat) (state : GraphState) : result GraphState :=
  match build_prompt state with
  | Raise e => Raise e
  | OK prompt =>
      match client llm with
      | Raise e => Raise e
      | OK _ =>
          match content_reply llm n prompt with
          | OK content => OK {| image_base64 := None; analysis := None;
                                social_content := Some content; validation_feedback := None;
                                retry_count := None; max_retries := None;
                                error_history := None |}
          | Raise e => OK {| image_base64 := None; analysis := None; social_content := None;
                             validation_feedback := None; retry_count := None;
                             max_retries := None;
                             error_history :=
                               Some [("Content Generation Failed: " ++ str_exn e)%string] |}
          end
      end
  end.

End Nodes.

Definition feedback_only (feedback : string) : GraphState :=
  {| image_base64 := None; analysis := None; social_content := None;
     validation_feedback := Some feedback; retry_count := None; max_retries := None;
     error_history := None |}.

Definition validate_content_node (state : GraphState) : result GraphState :=
  match social_content state with
  | None => OK (feedback_only "Validation Failed: No content was generated.")
  | Some content =>
      if negb (truthy content)
      then OK (feedback_only "Validation Failed: No content was generated.")
      else match Validator.comprehensive_content_validator content with
           | OK feedback => OK (feedback_only feedback)
           | Raise e => Raise e
           end
  end.

(** The route, and what is shown on the way. *)
Definition should_continue (state : GraphState) : result (string * list Ui) :=
  if Validator.nonempty (get (error_history state) []) then OK ("end", [])
  else
    let feedback := get (validation_feedback state) EmptyString in
    if Py.contains "Failed" feedback then
      match key "retry_count" (retry_count state) with
      | Raise e => Raise e
      | OK rc =>
          match key "max_retries" (max_retries state) with
          | Raise e => Raise e
          | OK mr =>
              if (rc >=? mr)%Z then OK ("end", [warning_max_retries])
              else OK ("retry", [])
          end
      end
    else OK ("end", [success_validated]).

Definition increment_retry_node (state : GraphState) : result GraphState :=
  match key "retry_count" (retry_count state) with
  | Raise e => Raise e
  | OK rc => OK {| image_base64 := None; analysis := None; social_content := None;
                   validation_feedback := None; retry_count := Some (rc + 1)%Z;
                   max_retries := None; error_history := None |}
  end.

(** *** The compiled workflow *)

Inductive Node : Type := analyzer | content_creator | validator | retry_counter.

(** A job under way: its state, the number of generation calls it has
    made, and what it has shown. *)
Record Job : Type := {
  state : GraphState;
  calls : nat;
  shown : list Ui
}.

(** [add_conditional_edges("validator", should_continue,
    {"retry": "retry_counter", "end": END})]: [None] is [END]. *)
Definition conditional_edges : list (string * option Node) :=
  [("retry", Some retry_counter); ("end", None)].

Section Workflow.

Variable llm : Model.

(** The route to [END].  LangGraph finds that nothing is left to run
    in the step that follows the last node, so that a job which has used
    up its steps by then raises [GraphRecursionError] like one that has
    nodes left; [limit] is the number of steps left. *)
Definition finish (limit : nat) (job : Job) : Job * result unit :=
  match limit with
  | O => (job, Raise GraphRecursionError)
  | S _ => (job, OK tt)
  end.

(** Runs the graph from [node].  [limit] is the number of steps left,
    as LangGraph's recursion limit counts them: one for each node
    executed, and one to reach [END].  The result is the job as it
    stands at the end, with [OK tt] when [END] was reached and the
    exception that left [app.invoke] otherwise. *)
Fixpoint run (limit : nat) (node : Node) (job : Job) : Job * result unit :=
  match limit with
  | O => (job, Raise GraphRecursionError)
  | S limit' =>
      match node with
      | analyzer =>
          let job := {| state := state job; calls := calls job;
                        shown := shown job ++ [write_analyzing] |} in
          match analyze_image_node llm (state job) with
          | Raise e => (job, Raise e)
          | OK upd =>
              run limit' content_creator
                {| state := update (state job) upd; calls := calls job; shown := shown job |}
          end
      | content_creator =>
          let job := {| state := state job; calls := calls job;
                        shown := shown job ++ [write_crafting (attempt_number (state job))] |} in
          match create_social_content_node llm (calls job) (state job) with
          | Raise e => (job, Raise e)
          | OK upd =>
              run limit' validator
                {| state := update (state job) upd; calls := S (calls job); shown := shown job |}
          end
      | validator =>
          let job := {| state := state job; calls := calls job;
                        shown := shown job ++ [write_validating] |} in
          match validate_content_node (state job) with
          | Raise e => (job, Raise e)
          | OK upd =>
              let st := update (state job) upd in
              match should_continue st with
              | Raise e => ({| state := st; calls := calls job; shown := shown job |}, Raise e)
              | OK (route, ui) =>
                  let job := {| state := st; calls := calls job; shown := shown job ++ ui |} in
                  match assoc route conditional_edges with
                  | Some (Some next) => run limit' next job
                  | Some None => finish limit' job
                  | None => (job, Raise (KeyError route))
                  end
              end
          end
      | retry_counter =>
          match increment_retry_node (state job) with
          | Raise e => (job, Raise e)
          | OK upd =>
              run limit' content_creator
                {| state := update (state job) upd; calls := calls job; shown := shown job |}
          end
      end
  end.

(** [inputs = {"image_base64": img_base64, "max_retries": ...}] *)
Definition inputs (img_base64 : string) (retries : Z) : GraphState :=
  {| image_base64 := Some img_base64; analysis := None; social_content := None;
     validation_feedback := None; retry_count := None; max_retries := Some retries;
     error_history := None |}.

(** [app.invoke(inputs)], the entry point being the analyzer. *)
Definition invoke (limit : nat) (start : GraphState) : Job * result unit :=
  run limit analyzer {| state := start; calls := 0; shown := [] |}.

End Workflow.

(** *** Vocabulary for the statements about the graph *)

(** A job state that only holds the parsed content. *)
Definition only_content (content : json) : GraphState :=
  {| image_base64 := None; analysis := None; social_content := Some content;
     validation_feedback := None; retry_count := None; max_retries := None;
     error_history := None |}.

(** The validator node turns [content] down: its feedback holds
    "Failed". *)
Definition rejected (content : json) : Prop :=
  exists feedback,
    validate_content_node (only_content content) = OK (feedback_only feedback) /\
    Py.contains "Failed" feedback = true.

(** Every generation call returns parsed content that the validator node
    turns down. *)
Definition always_rejected (llm : Model) : Prop :=
  forall n p, exists content, content_reply llm n p = OK content /\ rejected content.


(** The generation calls still possible from a node, with [m] retries
    allowed. *)
Definition remaining (m : Z) (rc : option Z) : nat :=
  match rc with
  | Some c => Z.to_nat (m - c)
  | None => 0
  end.

Definition budget (m : Z) (node : Node) (st : GraphState) : nat :=
  match node with
  | analyzer => 0
  | content_creator => 1 + remaining m (retry_count st)
  | validator => remaining m (retry_count st)
  | retry_counter =>
      match retry_count st with
      | Some c => 1 + Z.to_nat (m - (c + 1))
      | None => 0
      end
  end.

(** A model whose image analysis succeeds and whose content always has
    three hashtags. *)
Definition stubborn : Model :=
  {| client := OK tt;
     analysis_reply := fun _ => OK (JDict [("content_type", JStr "photo")]);
     content_reply := fun _ _ => OK Validator.three_hashtags |}.


(** A model whose image analysis is cut off. *)
Definition blind : Model :=
  {| client := OK tt;
     analysis_reply := fun _ => Raise (ExternalError "503 Service Unavailable");
     content_reply := fun _ _ => OK Validator.good_candidate |}.

End Graph.

(** ** The active application: one model call per platform *)

Module App.

(** The pydantic classes, which only serve to print the format
    instructions of the prompt. *)
Inductive Schema : Type :=
| InstagramContent | FacebookContent | XContent | PinterestContent | LinkedInContent.

(** An entry of [PLATFORM_CONFIG]; the icon, which only the checkbox
    label shows, is left out. *)
Record Config : Type := {
  name : string;
  pydantic_model : Schema;
  prompt : string
}.

Definition PLATFORM_CONFIG : list (string * Config) :=
  [ ("instagram",
     {| name := "Instagram"; pydantic_model := InstagramContent;
        prompt := "Generate an engaging caption, 15-20 relevant hashtags, and descriptive alt text for an Instagram post." |});
    ("facebook",
     {| name := "Facebook"; pydantic_model := FacebookContent;
        prompt := "Create a compelling Facebook post with an optional headline. The tone can be more detailed and community-focused. Ask a question to drive comments." |});
    ("x",
     {| name := "X (Twitter)"; pydantic_model := XContent;
        prompt := "Write a short, punchy tweet (under 280 characters) with 2-3 key hashtags." |});
    ("pinterest",
     {| name := "Pinterest"; pydantic_model := PinterestContent;
        prompt := "Create a keyword-rich title and description for a Pinterest pin. Also provide a list of 10-15 relevant keywords." |});
    ("linkedin",
     {| name := "LinkedIn"; pydantic_model := LinkedInContent;
        prompt := "Compose a professional LinkedIn post. The tone should be informative, industry-relevant, or share company insights. Include 3-5 professional hashtags." |}) ].

(** The [HumanMessage] sent to the model. *)
Record Message : Type := {
  text : string;
  image_url : string
}.

(** What lies outside the program: the environment variables, the
    LangChain parser and the hosted model.  The outbound calls of a run
    are numbered from 0. *)
Record World : Type := {
  getenv : string -> option string;
  get_format_instructions : Schema -> string;
  connect : string -> result unit;                (* [ChatGoogleGenerativeAI(...)] *)
  model_invoke : nat -> Message -> result string; (* [model.invoke([message]).content] *)
  parse : string -> result json                   (* [parser.parse] *)
}.

(** What the program does to the outside: the messages sent to the
    model, and the errors shown with [st.error]. *)
Record Effects : Type := {
  outbound : list Message;
  errors : list string
}.

Definition no_effects : Effects := {| outbound := []; errors := [] |}.

Section Generation.

Variable world : World.

Definition indent : string := "    ".

Definition prompt_text (config : Config) (business_context : string) (schema : Schema) : string :=
  Py.nl ++ indent ++ "You are an expert social media manager. Your task is to create content for "
    ++ name config ++ " based on the provided image and business context."
  ++ Py.nl ++ indent ++ "**Business Context:**"
  ++ Py.nl ++ indent
    ++ (if negb (Feedback.blank business_context) then business_context
        else "Not provided. Analyze the image for general appeal.")
  ++ Py.nl ++ indent ++ "**Platform Instructions (" ++ name config ++ "):**"
  ++ Py.nl ++ indent ++ prompt config
  ++ Py.nl ++ indent ++ "**Output Format:**"
  ++ Py.nl ++ indent ++ "You MUST provide your response in a valid JSON object that strictly follows this schema. Do not add any text before or after the JSON."
  ++ Py.nl ++ indent ++ "Schema:"
  ++ Py.nl ++ indent ++ get_format_instructions world schema
  ++ Py.nl ++ indent.

(** [not google_api_key] *)
Definition unset (v : option string) : bool :=
  match v with
  | None => true
  | Some s => Feedback.blank s
  end.

(** The body of the [try] block. *)
Definition attempt (config : Config) (image_base64 business_context : string)
    (schema : Schema) (fx : Effects) : result json * Effects :=
  let google_api_key := getenv world "GOOGLE_API_KEY" in
  if unset google_api_key
  then (Raise (ValueError "GOOGLE_API_KEY not found in environment variables."), fx)
  else
    match connect world (Graph.get google_api_key EmptyString) with
    | Raise e => (Raise e, fx)
    | OK _ =>
        let message :=
          {| text := prompt_text config business_context schema;
             image_url := "data:image/jpeg;base64," ++ image_base64 |} in
        let fx' := {| outbound := outbound fx ++ [message]; errors := errors fx |} in
        match model_invoke world (List.length (outbound fx)) message with
        | Raise e => (Raise e, fx')
        | OK response =>
            match parse world response with
            | Raise e => (Raise e, fx')
            | OK parsed_content => (OK parsed_content, fx')
            end
        end
    end.

(** [None] is [JNull]. *)
Definition generate_for_platform (platform_key image_base64 business_context : string)
    (schema : Schema) (fx : Effects) : result json * Effects :=
  match assoc platform_key PLATFORM_CONFIG with
  | None => (Raise (KeyError platform_key), fx)
  | Some config =>
      match attempt config image_base64 business_context schema fx with
      | (OK parsed_content, fx') => (OK parsed_content, fx')
      | (Raise e, fx') =>
          (OK JNull,
           {| outbound := outbound fx';
              errors := errors fx' ++
                [("Error generating content for " ++ name config ++ ": " ++ str_exn e)%string] |})
      end
  end.

(** *** The "Generate Content" button *)

(** The keys of [st.session_state] the handler reads and writes. *)
Record Session : Type := {
  generated_content : list (string * json);
  image_base64 : option string;
  platforms_selected : list string;
  business_context : string;
  just_generated : bool
}.

(** [d[k] = v] on a dict that keeps insertion order. *)
Fixpoint dict_set (k : string) (v : json) (d : list (string * json)) : list (string * json) :=
  match d with
  | [] => [(k, v)]
  | (k', v') :: d' => if String.eqb k k' then (k, v) :: d' else (k', v') :: dict_set k v d'
  end.

(** The [for platform_key in ...] loop, [content] being the dict under
    construction. *)
Fixpoint generate_loop (keys : list string) (image context : string)
    (content : list (string * json)) (fx : Effects)
  : result (list (string * json)) * Effects :=
  match keys with
  | [] => (OK content, fx)
  | platform_key :: rest =>
      match assoc platform_key PLATFORM_CONFIG with
      | None => (Raise (KeyError platform_key), fx)
      | Some config =>
          match generate_for_platform platform_key image context (pydantic_model config) fx with
          | (Raise e, fx') => (Raise e, fx')
          | (OK c, fx') =>
              generate_loop rest image context
                (if truthy c then dict_set platform_key c content else content) fx'
          end
      end
  end.

(** [st.session_state.image_base64 and st.session_state.platforms_selected] *)
Definition can_generate (s : Session) : bool :=
  negb (unset (image_base64 s)) && Validator.nonempty (platforms_selected s).

(** A click on the button, which is disabled unless [can_generate]. *)
Definition generate_content (s : Session) (fx : Effects) : result Session * Effects :=
  if can_generate s then
    match generate_loop (platforms_selected s) (Graph.get (image_base64 s) EmptyString)
            (business_context s) [] fx with
    | (Raise e, fx') => (Raise e, fx')
    | (OK content, fx') =>
        (OK {| generated_content := content;
               image_base64 := image_base64 s;
               platforms_selected := platforms_selected s;
               business_context := business_context s;
               just_generated := if Validator.nonempty content then true else just_generated s |},
         fx')
    end
  else (OK s, fx).

End Generation.

(** *** Vocabulary for the statements about the application *)

(** A platform key of [PLATFORM_CONFIG]. *)
Definition known (platform_key : string) : Prop :=
  exists config, assoc platform_key PLATFORM_CONFIG = Some config.

(** The checkboxes: the selection holds the keys of [PLATFORM_CONFIG]
    whose box is ticked, in the order of the configuration. *)
Definition select_platforms (ticked : string -> bool) : list string :=
  filter ticked (map fst PLATFORM_CONFIG).

Section Calls.

Variable world : World.

(** What the successive calls of [generate_for_platform] return for the
    keys of a selection, each key with the value returned for it, and the
    effects once all calls are made. *)
Fixpoint returned (keys : list string) (image context : string) (fx : Effects)
  : list (string * json) * Effects :=
  match keys with
  | [] => ([], fx)
  | platform_key :: rest =>
      match assoc platform_key PLATFORM_CONFIG with
      | None => ([], fx)
      | Some config =>
          match generate_for_platform world platform_key image context
                  (pydantic_model config) fx with
          | (Raise _, fx') => ([], fx')
          | (OK c, fx') =>
              let '(l, fx'') := returned rest image context fx' in
              ((platform_key, c) :: l, fx'')
          end
      end
  end.

End Calls.

(** The entries with a content that counts as true. *)
Definition kept (l : list (string * json)) : list (string * json) :=
  filter (fun entry => truthy (snd entry)) l.

(** No API key in the environment. *)
Definition no_credentials : World :=
  {| getenv := fun _ => None;
     get_format_instructions := fun _ => "The output should be formatted as a JSON instance.";
     connect := fun _ => OK tt;
     model_invoke := fun _ _ => OK "{}";
     parse := fun _ => OK (JDict []) |}.

(** A key in the environment, and a model that answers every message
    with the empty JSON object. *)
Definition empty_answers : World :=
  {| getenv := fun k => if String.eqb k "GOOGLE_API_KEY" then Some "AIza-test" else None;
     get_format_instructions := fun _ => "The output should be formatted as a JSON instance.";
     connect := fun _ => OK tt;
     model_invoke := fun _ _ => OK "{}";
     parse := fun response =>
                if String.eqb response "{}" then OK (JDict [])
                else Raise (ExternalError "Invalid json output") |}.

(** A key in the environment, and a model that answers for X and is out
    of quota from its second call on. *)
Definition one_answer : World :=
  {| getenv := fun k => if String.eqb k "GOOGLE_API_KEY" then Some "AIza-test" else None;
     get_format_instructions := fun _ => "The output should be formatted as a JSON instance.";
     connect := fun _ => OK tt;
     model_invoke := fun n _ =>
                       if Nat.eqb n 0 then OK "{tweet}"
                       else Raise (ExternalError "429 Resource has been exhausted");
     parse := fun response =>
                if String.eqb response "{tweet}"
                then OK (JDict [("tweet", JStr "Golden hour."); ("hashtags", JList [JStr "#sunset"])])
                else Raise (ExternalError "Invalid json output") |}.

Definition session (selected : list string) : Session :=
  {| generated_content := []; image_base64 := Some "aW1hZ2U=";
     platforms_selected := selected; business_context := EmptyString;
     just_generated := false |}.

End App.

(** ** The repair step of the second LangGraph draft *)

Module Repair.

(** [k in v] with a string [k]: a key of a dict, an item of a list, a
    part of a str; other values have no [in]. *)
Definition has (k : string) (v : json) : result bool :=
  match v with
  | JDict d => OK (match assoc k d with Some _ => true | None => false end)
  | JList l => OK (existsb (fun x => match x with JStr s => String.eqb s k | _ => false end) l)
  | JStr s => OK (Py.contains k s)
  | _ => Raise TypeError
  end.

(** [v.get(k, default)], a method of dicts only. *)
Definition get_or (v : json) (k : string) (default : json) : result json :=
  match v with
  | JDict d => OK (match assoc k d with Some x => x | None => default end)
  | _ => Raise AttributeError
  end.

(** [v[k] = x] *)
Definition store (v : json) (k : string) (x : json) : result json :=
  match v with
  | JDict d => OK (JDict (App.dict_set k x d))
  | _ => Raise TypeError
  end.

(** [h if h.startswith('#') else f"#{h}"] *)
Definition add_hash (h : string) : string :=
  if Py.startswith h "#" then h else ("#" ++ h)%string.

(** [[h if h.startswith('#') else f"#{h}" for h in l]] *)
Fixpoint fix_each (l : list json) : result (list json) :=
  match l with
  | [] => OK []
  | JStr h :: l' =>
      match fix_each l' with
      | OK r => OK (JStr (add_hash h) :: r)
      | Raise e => Raise e
      end
  | _ :: _ => Raise AttributeError
  end.

(** The dict is changed in place and returned; the model returns the
    changed dict. *)
Definition fix_common_errors (content : json) : result json :=
  if negb (truthy content) then OK content
  else
    match has "instagram" content with
    | Raise e => Raise e
    | OK false => OK content
    | OK true =>
        match subscript content "instagram" with
        | Raise e => Raise e
        | OK ig =>
            match has "hashtags" ig with
            | Raise e => Raise e
            | OK false => OK content
            | OK true =>
                match get_or ig "hashtags" (JList []) with
                | Raise e => Raise e
                | OK (JList hashtags) =>
                    match fix_each hashtags with
                    | Raise e => Raise e
                    | OK fixed_hashtags =>
                        match store ig "hashtags" (JList fixed_hashtags) with
                        | Raise e => Raise e
                        | OK ig' => store content "instagram" ig'
                        end
                    end
                | OK _ => OK content
                end
            end
        end
    end.

(** The sample of a bad output in the draft's prompt. *)
Definition bad_sample : json :=
  JDict [("instagram",
          JDict [("caption", JStr "A very long caption...");
                 ("hashtags", JList [JStr "travel"; JStr "sunset"; JStr "#vacation"]);
                 ("alt_text", JStr "A beautiful sunset over the ocean with palm trees.")]);
         ("pinterest",
          JDict [("title", JStr "A beautiful sunset");
                 ("description", JStr "Just a photo.");
                 ("keywords", JList [JStr "#travel"; JStr "#sunset"; JStr "vacation"]);
                 ("alt_text", JStr "A scenic view.")])].

End Repair.

(** ** Vocabulary for further statements about the validator *)

Module Verdict.

(** An issue that starts with [label] is among [issues]. *)
Definition reported (label : string) (issues : list string) : bool :=
  existsb (fun issue => Py.startswith issue label) issues.

(** The exceptions of a lookup, a length or a method on a value of the
    wrong kind. *)
Definition mild (e : exn) : Prop :=
  e = TypeError \/ e = AttributeError \/ exists k, e = KeyError k.

(** A candidate with a number where the caption should be. *)
Definition caption_is_a_number : json :=
  JDict [("instagram",
          JDict [("caption", JNum 42);
                 ("hashtags", JList [JStr "#sea"]);
                 ("alt_text", JStr "The sea.")]);
         ("pinterest", Validator.good_pinterest)].

(** A candidate with a number among its hashtags. *)
Definition hashtag_is_a_number : json :=
  JDict [("instagram",
          JDict [("caption", JStr "The sea.");
                 ("hashtags", JList [JStr "#sea"; JNum 2024]);
                 ("alt_text", JStr "The sea.")]);
         ("pinterest", Validator.good_pinterest)].

End Verdict.

(** ** Vocabulary for further statements about the graph *)

Module Course.

Import Graph.

(** The validator node lets [content] through: it counts as true and
    the validator finds no issue. *)
Definition accepted (content : json) : Prop :=
  truthy content = true /\ Validator.collect_issues content = OK [].

(** The feedback as [create_social_content_node] puts it in the prompt. *)
Definition tagged (feedback : string) : string :=
  "<PREVIOUS_ATTEMPT_FEEDBACK>" ++ feedback ++ "</PREVIOUS_ATTEMPT_FEEDBACK>".

(** The steps that can still be needed from a node, with [m] retries
    allowed: the nodes to execute, and the step that reaches [END]. *)
Definition steps_left (m : Z) (node : Node) (st : GraphState) : nat :=
  match node with
  | analyzer => 0
  | content_creator => 3 * remaining m (retry_count st) + 3
  | validator => 3 * remaining m (retry_count st) + 2
  | retry_counter =>
      match retry_count st with
      | Some c => 3 * Z.to_nat (m - (c + 1)) + 4
      | None => 1
      end
  end.

(** How the counters of a job stand when the graph enters [node]: the
    inputs as submitted, at most one failure in the history, and the
    generation calls in step with the retry count. *)
Definition in_step (m : Z) (img : string) (node : Node) (job : Job) : Prop :=
  max_retries (state job) = Some m /\
  image_base64 (state job) = Some img /\
  (error_history (state job) = None \/ exists x, error_history (state job) = Some [x]) /\
  match node with
  | analyzer =>
      retry_count (state job) = None /\ analysis (state job) = None /\ calls job = 0
  | content_creator =>
      (retry_count (state job) = None /\ analysis (state job) = None /\ calls job = 0) \/
      (exists c, retry_count (state job) = Some c /\
                 Z.of_nat (calls job) = c /\ (0 <= c <= Z.max 0 m)%Z)
  | validator =>
      exists c, retry_count (state job) = Some c /\
                Z.of_nat (calls job) = (c + 1)%Z /\ (0 <= c <= Z.max 0 m)%Z
  | retry_counter =>
      exists c, retry_count (state job) = Some c /\
                Z.of_nat (calls job) = (c + 1)%Z /\ (0 <= c < m)%Z
  end.

(** How they stand when [app.invoke] returns or raises. *)
Definition settled (m : Z) (img : string) (job : Job) (out : result unit) : Prop :=
  max_retries (state job) = Some m /\
  image_base64 (state job) = Some img /\
  (error_history (state job) = None \/ exists x, error_history (state job) = Some [x]) /\
  match retry_count (state job) with
  | None => calls job = 0 /\ out <> OK tt
  | Some c =>
      (0 <= c <= Z.max 0 m)%Z /\
      (Z.of_nat (calls job) = c \/ Z.of_nat (calls job) = (c + 1)%Z) /\
      (out = OK tt -> Z.of_nat (calls job) = (c + 1)%Z)
  end.

(** A model whose second attempt is in order. *)
Definition second_try : Model :=
  {| client := OK tt;
     analysis_reply := fun _ => OK (JDict [("content_type", JStr "photo")]);
     content_reply := fun n _ =>
                        match n with
                        | O => OK Validator.three_hashtags
                        | _ => OK Validator.good_candidate
                        end |}.

(** A model that puts a number where the caption should be. *)
Definition careless : Model :=
  {| client := OK tt;
     analysis_reply := fun _ => OK (JDict [("content_type", JStr "photo")]);
     content_reply := fun _ _ => OK Verdict.caption_is_a_number |}.

(** A job after a first attempt with three hashtags, about to be
    validated. *)
Definition after_first_attempt : Job :=
  {| state := {| image_base64 := Some "aW1hZ2U=";
                 analysis := Some (JDict [("content_type", JStr "photo")]);
                 social_content := Some Validator.three_hashtags;
                 validation_feedback := None;
                 retry_count := Some 0%Z;
                 max_retries := Some 2%Z;
                 error_history := None |};
     calls := 1;
     shown := [write_analyzing; write_crafting 1] |}.

End Course.

(** ** The password form and the page *)

Module Access.

(** What [check_password] shows. *)
Inductive Shown : Type := header_secure_access | error_incorrect_password.

(** How a call ends: it returns, or [st.rerun()] stops the script run
    to start it again. *)
Inductive Outcome : Type := returns (b : bool) | rerun.

(** A run of the script as the form sees it: the text of the password
    field, and whether "Login" was clicked. *)
Record Run : Type := {
  password : string;
  login : bool
}.

(** [password == correct_password], [os.getenv] giving [None] for a
    variable that is not set. *)
Definition equals (password : string) (correct_password : option string) : bool :=
  match correct_password with
  | Some c => String.eqb password c
  | None => false
  end.

(** [password_correct] is [st.session_state["password_correct"]], absent
    in a new session; the call gives how it ends, the key afterwards
    and what is shown. *)
Definition check_password (getenv : string -> option string) (r : Run)
    (password_correct : option bool) : Outcome * option bool * list Shown :=
  let password_correct := match password_correct with None => false | Some b => b end in
  if password_correct then (returns true, Some password_correct, [])
  else if login r then
    if equals (password r) (getenv "APP_PASSWORD")
    then (rerun, Some true, [header_secure_access])
    else (returns false, Some password_correct,
          [header_secure_access; error_incorrect_password])
  else (returns false, Some password_correct, [header_secure_access]).

(** The successive runs of a session: how each call of [check_password]
    ends, and the key after the last. *)
Fixpoint runs (getenv : string -> option string) (l : list Run)
    (password_correct : option bool) : list Outcome * option bool :=
  match l with
  | [] => ([], password_correct)
  | r :: l' =>
      let '(outcome, password_correct', _) := check_password getenv r password_correct in
      let '(outcomes, final) := runs getenv l' password_correct' in
      (outcome :: outcomes, final)
  end.

(** Some run of [l] is a click on "Login" with the configured
    password in the field. *)
Definition opened (getenv : string -> option string) (l : list Run) : bool :=
  existsb (fun r => login r && equals (password r) (getenv "APP_PASSWORD")) l.

(** An environment with a password. *)
Definition configured (k : string) : option string :=
  if String.eqb k "APP_PASSWORD" then Some "s3cret" else None.

End Access.

Module Page.

Import App.

(** [[key for key in st.session_state.platforms_selected
      if key in st.session_state.generated_content]] *)
Definition platform_keys_with_content (s : Session) : list string :=
  filter (fun key => match assoc key (generated_content s) with
                     | Some _ => true
                     | None => false
                     end)
         (platforms_selected s).

(** [[PLATFORM_CONFIG[key]['name'] for key in keys]], the labels given
    to [st.tabs]. *)
Fixpoint tab_names (keys : list string) : result (list string) :=
  match keys with
  | [] => OK []
  | key :: rest =>
      match assoc key PLATFORM_CONFIG with
      | None => Raise (KeyError key)
      | Some config =>
          match tab_names rest with
          | OK names => OK (name config :: names)
          | Raise e => Raise e
          end
      end
  end.

(** The message [generate_for_platform] makes for a platform. *)
Definition message_of (world : World) (image context : string) (config : Config) : Message :=
  {| text := prompt_text world config context (pydantic_model config);
     image_url := "data:image/jpeg;base64," ++ image |}.

(** The error it shows for a platform when the API key is missing. *)
Definition key_error_of (config : Config) : string :=
  "Error generating content for " ++ name config
  ++ ": GOOGLE_API_KEY not found in environment variables.".

(** The configurations of a selection, the keys outside
    [PLATFORM_CONFIG] left out. *)
Fixpoint configs (keys : list string) : list Config :=
  match keys with
  | [] => []
  | key :: rest =>
      match assoc key PLATFORM_CONFIG with
      | Some config => config :: configs rest
      | None => configs rest
      end
  end.

End Page.

(** * Properties *)

(** ** Strings *)

Example replace_leftmost : Py.replace "xxabxxabab" "ab" "Z" = "xxZxxZZ".
Proof. reflexivity. Qed.

Example split_report :
  Py.split ("- a" ++ Py.nl ++ "- b" ++ Py.nl ++ "- c") (Py.nl ++ "- ") = ["- a"; "b"; "c"].
Proof. reflexivity. Qed.

Example strip_both_ends : Py.strip (Py.nl ++ "  a b " ++ Py.nl) = "a b".
Proof. reflexivity. Qed.

Example repr_escapes :
  Py.repr_list ["travel"; ("a" ++ Py.nl ++ "b")%string;
                 ("caf" ++ String "233"%char EmptyString)%string]
  = ("['travel', 'a" ++ String Py.backslash "nb', 'caf" ++ String "233"%char "']")%string.
Proof. reflexivity. Qed.

Lemma prefix_app (p s t : string) : prefix p s = true -> prefix p (s ++ t) = true.
Proof.
  revert s. induction p as [|c p IH]; intros s H; [destruct (s ++ t)%string; reflexivity|].
  destruct s as [|d s]; simpl in *; [discriminate|].
  destruct (ascii_dec c d); [auto | discriminate].
Qed.

Lemma contains_app (sub s t : string) :
  Py.contains sub s = true -> Py.contains sub (s ++ t) = true.
Proof.
  induction s as [|c s IH]; simpl; intros H.
  - rewrite orb_false_r in H. destruct sub; [|discriminate].
    destruct t; reflexivity.
  - apply orb_true_iff in H. apply orb_true_iff. destruct H as [H|H].
    + left. exact (prefix_app sub (String c s) t H).
    + right. auto.
Qed.

(** ** The validator *)

Import Validator.

Lemma comprehension_strs keep l :
  comprehension keep (map JStr l) = OK (filter keep l).
Proof.
  induction l as [|s l IH]; simpl; [reflexivity|].
  rewrite IH. destruct (keep s); reflexivity.
Qed.

Lemma when_append (b : bool) (issue : string) (k : V unit) (issues : list string) :
  bind (when b (append issue)) (fun _ => k) issues
  = k (issues ++ (if b then [issue] else [])).
Proof.
  unfold bind, when, append, ret. destruct b; [reflexivity|].
  rewrite app_nil_r. reflexivity.
Qed.

Lemma when_count (b : bool) (n : nat) (f : nat -> string) (k : V unit) issues :
  bind (when b (bind (lift (OK n)) (fun m => append (f m)))) (fun _ => k) issues
  = k (issues ++ (if b then [f n] else [])).
Proof.
  unfold bind, when, append, ret, lift. destruct b; [reflexivity|].
  rewrite app_nil_r. reflexivity.
Qed.

Lemma len_of_str d k s :
  subscript d k = OK (JStr s) -> len_of d k = lift (OK (String.length s)).
Proof. intros H. unfold len_of. rewrite H. reflexivity. Qed.

Lemma len_of_list d k l :
  subscript d k = OK (JList (map JStr l)) -> len_of d k = lift (OK (List.length l)).
Proof. intros H. unfold len_of. rewrite H. simpl. rewrite length_map. reflexivity. Qed.

Lemma pick_list d k keep l :
  subscript d k = OK (JList (map JStr l)) -> pick d k keep = lift (OK (filter keep l)).
Proof. intros H. unfold pick. rewrite H. simpl. rewrite comprehension_strs. reflexivity. Qed.

Lemma bind_lift_OK {A B : Type} (a : A) (f : A -> V B) issues :
  bind (lift (OK a)) f issues = f a issues.
Proof. reflexivity. Qed.

(** On a candidate of the expected shape the [try] block ends normally,
    and has appended the outcomes of the eight checks in their order. *)
Lemma try_block_shaped content c a tags t d kws issues :
  shaped content c a tags t d kws ->
  try_block content issues
  = (issues ++ instagram_checks c a tags ++ pinterest_checks t d kws, OK tt).
Proof.
  intros (ig & pin & Hig & Hc & Ha & Hh & Hpin & Ht & Hd & Hk).
  unfold try_block.
  rewrite Hig, bind_lift_OK.
  rewrite (len_of_str _ _ _ Hc), bind_lift_OK, when_append.
  rewrite (len_of_str _ _ _ Ha), bind_lift_OK, when_append.
  rewrite (len_of_list _ _ _ Hh), bind_lift_OK, when_count.
  rewrite (pick_list _ _ _ _ Hh), bind_lift_OK, when_append.
  rewrite Hpin, bind_lift_OK.
  rewrite (len_of_str _ _ _ Ht), bind_lift_OK, when_append.
  rewrite (len_of_str _ _ _ Hd), bind_lift_OK, when_append.
  rewrite (len_of_list _ _ _ Hk), bind_lift_OK, when_count.
  rewrite (pick_list _ _ _ _ Hk), bind_lift_OK.
  unfold instagram_checks, pinterest_checks, too_long, wrong_count, wrong_prefix,
    prefix_issue, count_issue, named, in_range, has_hash, lacks_hash.
  destruct (nonempty (filter (fun k => Py.startswith k "#") kws));
    unfold when, append, ret; rewrite <- ?app_assoc, ?app_nil_r; reflexivity.
Qed.

Lemma collect_issues_shaped content c a tags t d kws :
  shaped content c a tags t d kws ->
  collect_issues content = OK (instagram_checks c a tags ++ pinterest_checks t d kws).
Proof.
  intros H. unfold collect_issues. rewrite (try_block_shaped _ _ _ _ _ _ _ [] H).
  reflexivity.
Qed.

Lemma report_failed issue issues :
  Py.contains "Failed" (report (issue :: issues)) = true.
Proof.
  unfold report, Py.join. simpl nonempty. cbv iota.
  change (String.concat (Py.nl ++ "- ") (header :: issue :: issues))
    with (header ++ (Py.nl ++ "- ") ++ String.concat (Py.nl ++ "- ") (issue :: issues))%string.
  apply contains_app. reflexivity.
Qed.

Lemma report_passed : Py.contains "Failed" (report []) = false.
Proof. reflexivity. Qed.

Lemma filter_none {A : Type} (p : A -> bool) (l : list A) :
  Forall (fun x => p x = false) l -> filter p l = [].
Proof.
  induction 1 as [|x l Hx _ IH]; simpl; [reflexivity|]. rewrite Hx. exact IH.
Qed.

Lemma named_at_most_three l : List.length (named l) <= 3.
Proof. unfold named. rewrite length_firstn. lia. Qed.

Lemma named_prefix l : exists rest, l = named l ++ rest.
Proof. exists (skipn 3 l). unfold named. symmetry. apply firstn_skipn. Qed.

(** C8. A candidate that has every field and meets every constraint
    (text lengths within their bounds, list lengths within their ranges,
    every hashtag with its '#', no keyword with one) yields no issue at
    all, and the validator returns "Validation Passed". *)
Theorem conforming_candidate_passes content c a tags t d kws :
  shaped content c a tags t d kws ->
  conforms c a tags t d kws ->
  collect_issues content = OK [] /\
  comprehensive_content_validator content = OK "Validation Passed".
Proof.
  intros Hs (Hc & Ha & Hn & Hp & Ht & Hd & Hm & Hq).
  assert (E : collect_issues content = OK []).
  { rewrite (collect_issues_shaped _ _ _ _ _ _ _ Hs).
    unfold instagram_checks, pinterest_checks, too_long, wrong_count, wrong_prefix, in_range.
    replace (filter lacks_hash tags) with (@nil string).
    2:{ symmetry. apply filter_none. eapply Forall_impl; [|exact Hp].
        intros h Hh. unfold lacks_hash. rewrite Hh. reflexivity. }
    replace (filter has_hash kws) with (@nil string).
    2:{ symmetry. apply filter_none. exact Hq. }
    repeat match goal with
           | |- context [(?x <? ?y)%nat] => destruct (Nat.ltb_spec x y); [lia|]
           | |- context [(?x <=? ?y)%nat] => destruct (Nat.leb_spec x y); [|lia]
           end.
    reflexivity. }
  split; [exact E|].
  unfold comprehensive_content_validator. rewrite E. reflexivity.
Qed.

Lemma conforming_candidate_passes_witness :
  comprehensive_content_validator good_candidate = OK "Validation Passed".
Proof.
  apply (conforming_candidate_passes good_candidate
           "Chasing the last light of the day." "Vibrant orange and pink sunset over a calm ocean."
           good_hashtags
           "Breathtaking Ocean Sunset with Palm Tree Silhouettes"
           "Discover the magic of golden hour with this stunning sunset photo."
           ["sunset photography"; "ocean wallpaper"; "tropical vacation"; "beach aesthetic";
            "travel inspiration"; "wanderlust travel"; "golden hour light";
            "palm tree silhouette"; "serene landscapes"; "beautiful nature"; "vacation goals";
            "island getaway"; "seascape photography"; "calm ocean"; "summer vibes";
            "dream destination"]).
  - eexists. eexists. repeat (split; [reflexivity|]). reflexivity.
  - unfold conforms. simpl. repeat split; try lia; repeat constructor.
Defined.

Lemma report_text issues : report issues = verdict_text issues.
Proof. destruct issues; reflexivity. Qed.


Lemma verdict_text_middle before issue after :
  verdict_text (before ++ issue :: after) = failed_text (before ++ issue :: after).
Proof. destruct before; reflexivity. Qed.

Lemma verdict_text_two (l1 l2 : list string) x y rest :
  verdict_text (l1 ++ l2 ++ [x; y] ++ rest) = failed_text (l1 ++ l2 ++ [x; y] ++ rest).
Proof. destruct l1; [destruct l2|]; reflexivity. Qed.

Lemma verdict_text_three (l0 l1 l2 : list string) x y :
  verdict_text (l0 ++ l1 ++ l2 ++ [x; y]) = failed_text (l0 ++ l1 ++ l2 ++ [x; y]).
Proof. destruct l0; [destruct l1; [destruct l2|]|]; reflexivity. Qed.

(** The text returned for a candidate of the expected shape. *)
Lemma validator_shaped content c a tags t d kws :
  shaped content c a tags t d kws ->
  comprehensive_content_validator content
  = OK (verdict_text (instagram_checks c a tags ++ pinterest_checks t d kws)).
Proof.
  intros H. unfold comprehensive_content_validator.
  rewrite (collect_issues_shaped _ _ _ _ _ _ _ H), report_text. reflexivity.
Qed.

Lemma three_hashtags_shaped :
  shaped three_hashtags "A very long caption..."
    "A beautiful sunset over the ocean with palm trees." ["travel"; "sunset"; "#vacation"]
    "Breathtaking Ocean Sunset with Palm Tree Silhouettes"
    "Discover the magic of golden hour with this stunning sunset photo."
    ["sunset photography"; "ocean wallpaper"; "tropical vacation"; "beach aesthetic";
     "travel inspiration"; "wanderlust travel"; "golden hour light";
     "palm tree silhouette"; "serene landscapes"; "beautiful nature"; "vacation goals";
     "island getaway"; "seascape photography"; "calm ocean"; "summer vibes";
     "dream destination"].
Proof. eexists. eexists. repeat (split; [reflexivity|]). reflexivity. Defined.

Lemma wrong_count_out l lo hi label range :
  in_range lo hi l = false -> wrong_count lo hi label range l = [count_issue label range l].
Proof. intros H. unfold wrong_count. rewrite H. reflexivity. Qed.

Lemma wrong_prefix_some label l :
  l <> [] -> wrong_prefix label l = [prefix_issue label l].
Proof. intros H. unfold wrong_prefix. destruct l; [contradiction|reflexivity]. Qed.

(** C7, as the code has it.  On a candidate that has every field, with
    a text where a text is expected and a list of texts where a list
    is, the text returned lists the outcomes of the eight checks in
    their order, so that an offence found by one check never keeps a
    later check from reporting; and the issue of a prefix rule names the
    first offending items, three at most. *)
Theorem prefix_issue_names_at_most_three content c a tags t d kws :
  shaped content c a tags t d kws ->
  comprehensive_content_validator content
  = OK (verdict_text
          (too_long 2200 "Instagram Caption: Exceeds 2,200 characters." c
           ++ too_long 100 "Instagram Alt Text: Exceeds 100 characters." a
           ++ wrong_count 15 30 "Instagram Hashtags" "15-30" tags
           ++ (if nonempty (filter lacks_hash tags)
               then [("Instagram Hashtags: Missing '#' on: "
                      ++ Py.repr_list (firstn 3 (filter lacks_hash tags)))%string]
               else [])
           ++ too_long 100 "Pinterest Title: Exceeds 100 characters." t
           ++ too_long 500 "Pinterest Description: Exceeds 500 characters." d
           ++ wrong_count 15 20 "Pinterest Keywords" "15-20" kws
           ++ (if nonempty (filter has_hash kws)
               then [("Pinterest Keywords: Should not have '#': "
                      ++ Py.repr_list (firstn 3 (filter has_hash kws)))%string]
               else []))) /\
  List.length (firstn 3 (filter lacks_hash tags)) <= 3 /\
  List.length (firstn 3 (filter has_hash kws)) <= 3 /\
  (exists rest, filter lacks_hash tags = firstn 3 (filter lacks_hash tags) ++ rest) /\
  (exists rest, filter has_hash kws = firstn 3 (filter has_hash kws) ++ rest).
Proof.
  intros Hs. split.
  - rewrite (validator_shaped _ _ _ _ _ _ _ Hs).
    unfold instagram_checks, pinterest_checks. rewrite <- !app_assoc. reflexivity.
  - repeat split.
    + apply named_at_most_three.
    + apply named_at_most_three.
    + apply named_prefix.
    + apply named_prefix.
Qed.

Lemma prefix_issue_names_at_most_three_witness :
  comprehensive_content_validator five_plain_hashtags
  = OK (failed_text
          ["Instagram Hashtags: Incorrect count (5). Must be 15-30.";
           "Instagram Hashtags: Missing '#' on: ['sea', 'sun', 'sand']"]).
Proof.
  refine (proj1 (prefix_issue_names_at_most_three five_plain_hashtags
                   "Chasing the last light of the day."
                   "Vibrant orange and pink sunset over a calm ocean."
                   ["sea"; "sun"; "sand"; "surf"; "salt"]
                   "Breathtaking Ocean Sunset with Palm Tree Silhouettes"
                   "Discover the magic of golden hour with this stunning sunset photo."
                   ["sunset photography"; "ocean wallpaper"; "tropical vacation";
                    "beach aesthetic"; "travel inspiration"; "wanderlust travel";
                    "golden hour light"; "palm tree silhouette"; "serene landscapes";
                    "beautiful nature"; "vacation goals"; "island getaway";
                    "seascape photography"; "calm ocean"; "summer vibes";
                    "dream destination"] _)).
  eexists. eexists. repeat (split; [reflexivity|]). reflexivity.
Defined.

(** C7, as the spec has it, fails: in [no_title] the four keywords all
    start with '#' and are too few, but the title is missing, and the
    validator stops there: the text returned names the missing title
    and says nothing of the keywords. *)
Lemma missing_title_hides_offending_keywords :
  (exists pin kws,
      subscript no_title "pinterest" = OK pin /\
      subscript pin "title" = Raise (KeyError "title") /\
      subscript pin "keywords" = OK (JList (map JStr kws)) /\
      filter has_hash kws = kws /\ List.length kws = 4) /\
  comprehensive_content_validator no_title
  = OK (failed_text ["A required field is missing from the AI's response: 'title'"]) /\
  Py.contains "Pinterest Keywords"
    (failed_text ["A required field is missing from the AI's response: 'title'"]) = false.
Proof.
  split; [|split; reflexivity].
  eexists. exists ["#travel"; "#sunset"; "#vacation"; "#beach"].
  repeat (split; [reflexivity|]). reflexivity.
Qed.

(** C4, as the code has it.  On a candidate that has every field, with
    a text where a text is expected and a list of texts where a list
    is, a list that is both out of its range and against its prefix
    rule gets the count issue and then the prefix issue in the text
    returned, next to the issues of the other checks; this holds for the
    hashtags and for the keywords.  The candidate with three hashtags of
    which two lack the '#' gets exactly these two issues, the count
    issue reading "incorrect count (3). Must be 15-30." up to letter
    case. *)
Theorem count_and_prefix_issues_accumulate :
  (forall content c a tags t d kws,
      shaped content c a tags t d kws ->
      (in_range 15 30 tags = false -> filter lacks_hash tags <> [] ->
       comprehensive_content_validator content
       = OK (failed_text
               (too_long 2200 "Instagram Caption: Exceeds 2,200 characters." c
                ++ too_long 100 "Instagram Alt Text: Exceeds 100 characters." a
                ++ [("Instagram Hashtags: Incorrect count ("
                     ++ Py.str_of_nat (List.length tags) ++ "). Must be 15-30.")%string;
                    ("Instagram Hashtags: Missing '#' on: "
                     ++ Py.repr_list (firstn 3 (filter lacks_hash tags)))%string]
                ++ pinterest_checks t d kws))) /\
      (in_range 15 20 kws = false -> filter has_hash kws <> [] ->
       comprehensive_content_validator content
       = OK (failed_text
               (instagram_checks c a tags
                ++ too_long 100 "Pinterest Title: Exceeds 100 characters." t
                ++ too_long 500 "Pinterest Description: Exceeds 500 characters." d
                ++ [("Pinterest Keywords: Incorrect count ("
                     ++ Py.str_of_nat (List.length kws) ++ "). Must be 15-20.")%string;
                    ("Pinterest Keywords: Should not have '#': "
                     ++ Py.repr_list (firstn 3 (filter has_hash kws)))%string])))) /\
  comprehensive_content_validator three_hashtags
  = OK (failed_text
          ["Instagram Hashtags: Incorrect count (3). Must be 15-30.";
           "Instagram Hashtags: Missing '#' on: ['travel', 'sunset']"]) /\
  Py.contains (lower "incorrect count (3). Must be 15-30.")
    (lower "Instagram Hashtags: Incorrect count (3). Must be 15-30.") = true.
Proof.
  split; [|split; reflexivity].
  intros content c a tags t d kws Hs. split; intros Hn Hp;
    rewrite (validator_shaped _ _ _ _ _ _ _ Hs).
  - rewrite <- verdict_text_two. unfold instagram_checks.
    rewrite (wrong_count_out _ _ _ _ _ Hn), (wrong_prefix_some _ _ Hp).
    unfold count_issue, prefix_issue, named. rewrite <- !app_assoc. reflexivity.
  - rewrite <- verdict_text_three. unfold pinterest_checks.
    rewrite (wrong_count_out _ _ _ _ _ Hn), (wrong_prefix_some _ _ Hp).
    unfold count_issue, prefix_issue, named. reflexivity.
Qed.

Lemma count_and_prefix_issues_accumulate_witness :
  comprehensive_content_validator three_hashtags
  = OK (failed_text
          ([] ++ [] ++
           [("Instagram Hashtags: Incorrect count ("
             ++ Py.str_of_nat (List.length ["travel"; "sunset"; "#vacation"])
             ++ "). Must be 15-30.")%string;
            ("Instagram Hashtags: Missing '#' on: "
             ++ Py.repr_list (firstn 3 (filter lacks_hash ["travel"; "sunset"; "#vacation"])))%string]
           ++ [])).
Proof.
  refine (proj1 (proj1 count_and_prefix_issues_accumulate _ _ _ _ _ _ _ three_hashtags_shaped)
            _ _).
  - reflexivity.
  - discriminate.
Defined.

(** C4, as the spec has it, fails: in [no_alt_text] the hashtags are
    three and two of them lack their '#', but the alt text that the
    validator reads before them is missing, and neither the count issue
    nor the prefix issue is in the text returned. *)
Lemma missing_alt_text_hides_count_and_prefix_issues :
  (exists ig tags,
      subscript no_alt_text "instagram" = OK ig /\
      subscript ig "alt_text" = Raise (KeyError "alt_text") /\
      subscript ig "hashtags" = OK (JList (map JStr tags)) /\
      in_range 15 30 tags = false /\
      filter lacks_hash tags = ["travel"; "sunset"]) /\
  comprehensive_content_validator no_alt_text
  = OK (failed_text ["A required field is missing from the AI's response: 'alt_text'"]) /\
  Py.contains "Instagram Hashtags"
    (failed_text ["A required field is missing from the AI's response: 'alt_text'"]) = false.
Proof.
  split; [|split; reflexivity].
  eexists. exists ["travel"; "sunset"; "#vacation"].
  repeat (split; [reflexivity|]). reflexivity.
Qed.


Lemma bind_lift_Raise {A B : Type} (e : exn) (f : A -> V B) issues :
  bind (lift (Raise e)) f issues = (issues, Raise e).
Proof. reflexivity. Qed.





(** Whatever the rest of the candidate, an Instagram block without a
    caption yields the missing-field issue alone. *)
Lemma missing_caption_alone d rest :
  assoc "caption" d = None ->
  collect_issues (JDict (("instagram", JDict d) :: rest))
  = OK ["A required field is missing from the AI's response: 'caption'"].
Proof.
  intros H. unfold collect_issues, try_block, bind, lift, len_of. simpl.
  rewrite H. reflexivity.
Qed.

(** ** The feedback formatter *)

Import Feedback.

Lemma contains_cons (sub : string) (c : ascii) (s : string) :
  Py.contains sub (String c s) = prefix sub (String c s) || Py.contains sub s.
Proof. reflexivity. Qed.

Lemma has_char_cons (c d : ascii) (s : string) :
  Py.has_char c (String d s) = Ascii.eqb c d || Py.has_char c s.
Proof. reflexivity. Qed.

Lemma prefix_sep_other (c : ascii) (s : string) :
  Ascii.eqb "010"%char c = false -> prefix sep (String c s) = false.
Proof.
  intros H.
  change (prefix sep (String c s))
    with (match ascii_dec "010"%char c with
          | left _ => prefix "- " s
          | right _ => false
          end).
  destruct (ascii_dec "010"%char c) as [<-|]; [|reflexivity].
  rewrite Ascii.eqb_refl in H. discriminate.
Qed.

Lemma prefix_refl_app (p t : string) : prefix p (p ++ t) = true.
Proof.
  induction p as [|c p IH]; simpl; [destruct t; reflexivity|].
  destruct (ascii_dec c c); [exact IH | congruence].
Qed.

Lemma prefix_across (c : ascii) (h a b : string) :
  Py.has_char c h = false -> prefix h a = false ->
  prefix h (a ++ String c b) = false.
Proof.
  revert a. induction h as [|y h IH]; intros a Hc Hp.
  - destruct a; discriminate.
  - rewrite has_char_cons in Hc. apply orb_false_iff in Hc. destruct Hc as [Hy Hc].
    destruct a as [|x a]; simpl.
    + destruct (ascii_dec y c) as [->|]; [|reflexivity].
      rewrite Ascii.eqb_refl in Hy. discriminate.
    + simpl in Hp. destruct (ascii_dec y x); [|reflexivity]. apply IH; assumption.
Qed.

Lemma contains_across (c : ascii) (h a b : string) :
  Py.has_char c h = false ->
  Py.contains h a = false -> Py.contains h b = false ->
  Py.contains h (a ++ String c b) = false.
Proof.
  intros Hc Ha Hb. induction a as [|x a IH].
  - change (Py.contains h (EmptyString ++ String c b))
      with (prefix h (String c b) || Py.contains h b).
    rewrite Hb, orb_false_r.
    apply (prefix_across c h EmptyString b Hc).
    change (Py.contains h EmptyString) with (prefix h EmptyString || false) in Ha.
    rewrite orb_false_r in Ha. exact Ha.
  - rewrite contains_cons in Ha. apply orb_false_iff in Ha. destruct Ha as [Hp Ha].
    change (Py.contains h (String x a ++ String c b))
      with (prefix h (String x a ++ String c b) || Py.contains h (a ++ String c b)).
    rewrite (prefix_across c h (String x a) b Hc Hp), (IH Ha). reflexivity.
Qed.

Lemma replace_absent (old new s : string) :
  Py.contains old s = false -> Py.replace_from old new s 0 = s.
Proof.
  induction s as [|c s IH]; intros H; [reflexivity|].
  rewrite contains_cons in H. apply orb_false_iff in H. destruct H as [Hp Hc].
  change (Py.replace_from old new (String c s) 0)
    with (if prefix old (String c s)
          then (new ++ Py.replace_from old new s (String.length old - 1))%string
          else String c (Py.replace_from old new s 0)).
  rewrite Hp, (IH Hc). reflexivity.
Qed.

Lemma replace_skip (old new u t : string) :
  Py.replace_from old new (u ++ t) (String.length u) = Py.replace_from old new t 0.
Proof.
  induction u as [|c u IH]; simpl.
  - destruct t; reflexivity.
  - exact IH.
Qed.

Lemma replace_at_start (c : ascii) (old new t : string) :
  Py.replace_from (String c old) new (String c old ++ t) 0
  = (new ++ Py.replace_from (String c old) new t 0)%string.
Proof.
  change (Py.replace_from (String c old) new (String c old ++ t) 0)
    with (if prefix (String c old) (String c old ++ t)
          then (new ++ Py.replace_from (String c old) new (old ++ t)
                         (String.length (String c old) - 1))%string
          else String c (Py.replace_from (String c old) new (old ++ t) 0)).
  rewrite prefix_refl_app.
  replace (String.length (String c old) - 1) with (String.length old) by (simpl; lia).
  rewrite replace_skip. reflexivity.
Qed.

Lemma rstrip_app (a b : string) :
  b <> EmptyString -> Py.rstrip b = b -> Py.rstrip (a ++ b) = (a ++ b)%string.
Proof.
  intros Hb Hr. induction a as [|c a IH]; simpl; [exact Hr|].
  rewrite IH. destruct (a ++ b)%string eqn:E; [|reflexivity].
  destruct a; simpl in E; [contradiction|discriminate].
Qed.

Lemma split_skip (s u t : string) :
  Py.split_from s (u ++ t) (String.length u) = Py.split_from s t 0.
Proof.
  induction u as [|c u IH]; simpl.
  - destruct t; reflexivity.
  - exact IH.
Qed.

(** A piece without a line break is read whole, up to the separator
    that follows it. *)
Lemma split_piece (a t : string) :
  Py.has_char "010"%char a = false ->
  Py.split_from sep (a ++ sep ++ t) 0
  = (a, fst (Py.split_from sep t 0) :: snd (Py.split_from sep t 0)).
Proof.
  intros Ha. induction a as [|c a IH].
  - change (EmptyString ++ sep ++ t)%string with (String "010"%char ("- " ++ t)).
    change (Py.split_from sep (String "010"%char ("- " ++ t)) 0)
      with (if prefix sep (sep ++ t)
            then let '(p, r) := Py.split_from sep ("- " ++ t) (String.length "- ") in
                 (EmptyString, p :: r)
            else let '(p, r) := Py.split_from sep ("- " ++ t) 0 in
                 (String "010"%char p, r)).
    rewrite prefix_refl_app, split_skip.
    destruct (Py.split_from sep t 0); reflexivity.
  - rewrite has_char_cons in Ha. apply orb_false_iff in Ha. destruct Ha as [Hc Ha].
    change (Py.split_from sep (String c a ++ sep ++ t) 0)
      with (if prefix sep (String c (a ++ sep ++ t))
            then let '(p, r) := Py.split_from sep (a ++ sep ++ t) (String.length sep - 1) in
                 (EmptyString, p :: r)
            else let '(p, r) := Py.split_from sep (a ++ sep ++ t) 0 in
                 (String c p, r)).
    rewrite (prefix_sep_other c _ Hc), (IH Ha). reflexivity.
Qed.

Lemma split_last (a : string) :
  Py.has_char "010"%char a = false -> Py.split_from sep a 0 = (a, []).
Proof.
  intros Ha. induction a as [|c a IH]; [reflexivity|].
  rewrite has_char_cons in Ha. apply orb_false_iff in Ha. destruct Ha as [Hc Ha].
  change (Py.split_from sep (String c a) 0)
    with (if prefix sep (String c a)
          then let '(p, r) := Py.split_from sep a (String.length sep - 1) in
               (EmptyString, p :: r)
          else let '(p, r) := Py.split_from sep a 0 in
               (String c p, r)).
  rewrite (prefix_sep_other c _ Hc), (IH Ha). reflexivity.
Qed.

Lemma str_app_nil_r (s : string) : (s ++ EmptyString)%string = s.
Proof. induction s as [|c s IH]; simpl; [reflexivity|]. rewrite IH. reflexivity. Qed.

Lemma str_app_assoc (a b c : string) : ((a ++ b) ++ c)%string = (a ++ b ++ c)%string.
Proof. induction a as [|x a IH]; simpl; [reflexivity|]. rewrite IH. reflexivity. Qed.

Lemma concat_tails (x : string) (l : list string) :
  String.concat sep (x :: l) = (x ++ tails l)%string.
Proof.
  revert x. induction l as [|y l IH]; intros x.
  - simpl. rewrite str_app_nil_r. reflexivity.
  - change (String.concat sep (x :: y :: l)) with (x ++ sep ++ String.concat sep (y :: l))%string.
    rewrite IH. reflexivity.
Qed.

Lemma report_tails (first : string) (rest : list string) :
  Validator.report (first :: rest) = (Validator.header ++ tails (first :: rest))%string.
Proof.
  unfold Validator.report, Py.join. cbn [Validator.nonempty].
  fold sep. rewrite concat_tails. reflexivity.
Qed.

Lemma prefix_header_other (c : ascii) (s : string) :
  Ascii.eqb "V"%char c = false -> prefix Validator.header (String c s) = false.
Proof.
  intros H.
  change (prefix Validator.header (String c s))
    with (match ascii_dec "V"%char c with
          | left _ => prefix "alidation Failed. You MUST fix these issues:" s
          | right _ => false
          end).
  destruct (ascii_dec "V"%char c) as [<-|]; [|reflexivity].
  rewrite Ascii.eqb_refl in H. discriminate.
Qed.

Lemma header_not_in_dash (s : string) :
  Py.contains Validator.header s = false ->
  Py.contains Validator.header ("- " ++ s) = false.
Proof.
  intros H.
  change ("- " ++ s)%string with (String "-" (String " " s)).
  rewrite !contains_cons, H, !prefix_header_other by reflexivity. reflexivity.
Qed.

Lemma header_not_in_tails (l : list string) :
  Forall clean l ->
  Py.contains Validator.header (tails l) = false /\
  forall first, clean first -> Py.contains Validator.header (first ++ tails l) = false.
Proof.
  induction 1 as [|issue l Hi Hl [IH1 IH2]].
  - split; [reflexivity|]. intros first Hf. simpl. rewrite str_app_nil_r. apply Hf.
  - assert (Hd : Py.contains Validator.header ("- " ++ issue ++ tails l) = false).
    { apply header_not_in_dash. apply IH2. exact Hi. }
    assert (Hn : Py.contains Validator.header (tails (issue :: l)) = false).
    { change (tails (issue :: l)) with (EmptyString ++ String "010"%char ("- " ++ issue ++ tails l))%string.
      apply contains_across; [reflexivity|reflexivity|exact Hd]. }
    split; [exact Hn|].
    intros first Hf.
    change (tails (issue :: l)) with (String "010"%char ("- " ++ issue ++ tails l)).
    apply contains_across; [reflexivity| apply Hf | exact Hd].
Qed.

Lemma rstrip_tails (l : list string) :
  Forall clean l ->
  forall first, clean first ->
    Py.rstrip (first ++ tails l) = (first ++ tails l)%string /\
    (first ++ tails l)%string <> EmptyString.
Proof.
  induction 1 as [|issue l Hi Hl IH]; intros first Hf.
  - simpl. rewrite str_app_nil_r. split; apply Hf.
  - destruct (IH issue Hi) as [Hr Hne].
    change (tails (issue :: l)) with (sep ++ issue ++ tails l)%string.
    rewrite <- str_app_assoc. split.
    + apply rstrip_app; assumption.
    + destruct first; [|discriminate]. discriminate.
Qed.

Lemma split_tails (l : list string) :
  Forall clean l ->
  forall a, Py.has_char "010"%char a = false ->
    Py.split (a ++ tails l) sep = a :: l.
Proof.
  induction 1 as [|issue l Hi Hl IH]; intros a Ha.
  - simpl. rewrite str_app_nil_r. unfold Py.split. rewrite (split_last a Ha). reflexivity.
  - change (tails (issue :: l)) with (sep ++ issue ++ tails l)%string.
    unfold Py.split. rewrite (split_piece a _ Ha).
    specialize (IH issue ltac:(apply Hi)). unfold Py.split in IH.
    destruct (Py.split_from sep (issue ++ tails l) 0) as [p r]. simpl. simpl in IH.
    rewrite IH. reflexivity.
Qed.

Lemma strip_clean (issue : string) : clean issue -> Py.strip issue = issue.
Proof. intros (_ & Hl & Hr & _). unfold Py.strip. rewrite Hl. exact Hr. Qed.

Lemma keep_clean (l : list string) :
  Forall (fun issue => Py.strip issue = issue /\ issue <> EmptyString) l ->
  map Py.strip (filter (fun issue => negb (blank (Py.strip issue))) l) = l.
Proof.
  induction 1 as [|issue l [Hs Hne] _ IH]; [reflexivity|].
  simpl. rewrite Hs. destruct issue; [contradiction|]. simpl.
  rewrite IH. f_equal. exact Hs.
Qed.

Lemma strip_dash (first : string) :
  clean first -> Py.strip ("- " ++ first) = ("- " ++ first)%string.
Proof.
  intros (Hne & _ & Hr & _). unfold Py.strip.
  change (Py.lstrip ("- " ++ first)) with ("- " ++ first)%string.
  apply rstrip_app; assumption.
Qed.

(** What the formatter makes of the report of a list of clean issues:
    the first issue keeps the "- " of its separator. *)
Lemma format_report (first : string) (rest : list string) :
  Forall clean (first :: rest) ->
  format_feedback_for_prompt (Validator.report (first :: rest))
  = block (numbered 0 (("- " ++ first)%string :: rest)).
Proof.
  intros Hall. inversion Hall as [|? ? Hf Hr]; subst.
  unfold format_feedback_for_prompt.
  rewrite report_failed. cbn [negb].
  rewrite report_tails.
  assert (E1 : Py.replace (Validator.header ++ tails (first :: rest)) Validator.header EmptyString
               = tails (first :: rest)).
  { unfold Py.replace, Validator.header.
    rewrite replace_at_start. apply replace_absent.
    apply (header_not_in_tails (first :: rest) Hall). }
  rewrite E1.
  assert (E2 : Py.strip (tails (first :: rest)) = ("- " ++ first ++ tails rest)%string).
  { unfold Py.strip.
    change (Py.lstrip (tails (first :: rest))) with ("- " ++ (first ++ tails rest))%string.
    destruct (rstrip_tails rest Hr first Hf) as [H1 H2].
    apply rstrip_app; assumption. }
  rewrite E2, <- str_app_assoc.
  fold sep. rewrite (split_tails rest Hr).
  2:{ change ("- " ++ first)%string with (String "-" (String " " first)).
      rewrite !has_char_cons. destruct Hf as (_ & _ & _ & Hnl & _). rewrite Hnl. reflexivity. }
  rewrite keep_clean.
  2:{ constructor.
      - split; [apply strip_dash; exact Hf | discriminate].
      - eapply Forall_impl; [|exact Hr]. intros issue Hi.
        split; [apply strip_clean; exact Hi | apply Hi]. }
  reflexivity.
Qed.

(** *** The issues of the validator are clean *)

Lemma plain_no_header (s : string) :
  Py.has_char "V"%char s = false -> Py.contains Validator.header s = false.
Proof.
  induction s as [|c s IH]; intros H; [reflexivity|].
  rewrite has_char_cons in H. apply orb_false_iff in H. destruct H as [Hc Hs].
  rewrite contains_cons, (prefix_header_other c s Hc), (IH Hs). reflexivity.
Qed.

Lemma header_after_plain (a b : string) :
  Py.has_char "V"%char a = false ->
  Py.contains Validator.header b = false ->
  Py.contains Validator.header (a ++ b) = false.
Proof.
  intros Ha Hb. induction a as [|c a IH]; [exact Hb|].
  rewrite has_char_cons in Ha. apply orb_false_iff in Ha. destruct Ha as [Hc Ha].
  change (String c a ++ b)%string with (String c (a ++ b)).
  rewrite contains_cons, (prefix_header_other c _ Hc), (IH Ha). reflexivity.
Qed.

Lemma has_char_app (c : ascii) (a b : string) :
  Py.has_char c (a ++ b) = Py.has_char c a || Py.has_char c b.
Proof.
  induction a as [|x a IH]; [reflexivity|].
  change (String x a ++ b)%string with (String x (a ++ b)).
  rewrite !has_char_cons, IH, orb_assoc. reflexivity.
Qed.

(** A decimal numeral holds digits only. *)
Lemma digits_only (c : ascii) (u : Decimal.uint) :
  ((nat_of_ascii c <? 48) || (57 <? nat_of_ascii c))%nat = true ->
  Py.has_char c (NilEmpty.string_of_uint u) = false.
Proof.
  intros Hc. induction u as [|u IH|u IH|u IH|u IH|u IH|u IH|u IH|u IH|u IH|u IH];
    [reflexivity|..];
    cbn [NilEmpty.string_of_uint]; rewrite has_char_cons, IH, orb_false_r;
    apply Ascii.eqb_neq; intros ->; discriminate Hc.
Qed.

(** [repr] writes a line break as a backslash and an [n]. *)
Lemma repr_char_no_nl (q c : ascii) :
  q = Py.squote \/ q = Py.dquote ->
  Py.has_char "010"%char (Py.repr_char q c) = false.
Proof.
  intros [->| ->]; destruct c as [[] [] [] [] [] [] [] []]; reflexivity.
Qed.

Lemma repr_chars_no_nl (q : ascii) (s : string) :
  q = Py.squote \/ q = Py.dquote ->
  Py.has_char "010"%char (Py.repr_chars q s) = false.
Proof.
  intros Hq. induction s as [|c s IH]; [reflexivity|].
  cbn [Py.repr_chars]. rewrite has_char_app, (repr_char_no_nl q c Hq), IH. reflexivity.
Qed.

Lemma repr_str_no_nl (s : string) : Py.has_char "010"%char (Py.repr_str s) = false.
Proof.
  unfold Py.repr_str.
  set (q := if Py.has_char Py.squote s && negb (Py.has_char Py.dquote s)
            then Py.dquote else Py.squote).
  assert (Hq : q = Py.squote \/ q = Py.dquote).
  { unfold q. destruct (Py.has_char Py.squote s && negb (Py.has_char Py.dquote s)); auto. }
  assert (Hqn : Ascii.eqb "010"%char q = false) by (destruct Hq as [->| ->]; reflexivity).
  rewrite has_char_cons, has_char_app, has_char_cons, Hqn, (repr_chars_no_nl q s Hq).
  reflexivity.
Qed.

Lemma concat_reprs_no_nl (l : list string) :
  Py.has_char "010"%char (String.concat ", " (map Py.repr_str l)) = false.
Proof.
  induction l as [|x l IH]; [reflexivity|].
  destruct l as [|y l].
  - apply repr_str_no_nl.
  - change (String.concat ", " (map Py.repr_str (x :: y :: l)))
      with (Py.repr_str x ++ ", " ++ String.concat ", " (map Py.repr_str (y :: l)))%string.
    rewrite has_char_app, repr_str_no_nl, has_char_app, IH. reflexivity.
Qed.

Lemma repr_list_no_nl (l : list string) : Py.has_char "010"%char (Py.repr_list l) = false.
Proof.
  unfold Py.repr_list, Py.join.
  rewrite has_char_app, has_char_app, concat_reprs_no_nl. reflexivity.
Qed.

Lemma clean_fixed (c : ascii) (s : string) :
  Py.isspace c = false ->
  Py.rstrip (String c s) = String c s ->
  Py.has_char "010"%char (String c s) = false ->
  Py.contains Validator.header (String c s) = false ->
  clean (String c s).
Proof.
  intros Hc Hr Hn Hh. unfold clean. repeat split; auto; [discriminate|].
  cbn [Py.lstrip]. rewrite Hc. reflexivity.
Qed.

Lemma too_long_clean bound issue s :
  clean issue -> Forall clean (Validator.too_long bound issue s).
Proof. intros H. unfold Validator.too_long. destruct (_ <? _)%nat; auto. Qed.

Lemma clean_parts (c : ascii) (a u b : string) :
  Py.isspace c = false ->
  b <> EmptyString -> Py.rstrip b = b ->
  Py.has_char "010"%char (String c a ++ u ++ b) = false ->
  Py.contains Validator.header (String c a ++ u ++ b) = false ->
  clean (String c a ++ u ++ b).
Proof.
  intros Hc Hb Hr Hn Hh.
  change (String c a ++ u ++ b)%string with (String c (a ++ u ++ b)) in *.
  apply clean_fixed; auto.
  change (String c (a ++ u ++ b)) with (String c a ++ u ++ b)%string.
  rewrite <- str_app_assoc. apply rstrip_app; assumption.
Qed.

Lemma count_issue_clean (label range : string) (l : list string) :
  label = "Instagram Hashtags" /\ range = "15-30" \/
  label = "Pinterest Keywords" /\ range = "15-20" ->
  clean (Validator.count_issue label range l).
Proof.
  unfold Validator.count_issue, Py.str_of_nat.
  set (u := NilEmpty.string_of_uint (Nat.to_uint (List.length l))).
  assert (Hnl : Py.has_char "010"%char u = false) by (apply digits_only; reflexivity).
  assert (HV : Py.has_char "V"%char u = false) by (apply digits_only; reflexivity).
  intros [[-> ->]|[-> ->]].
  - apply (clean_parts "I" "nstagram Hashtags: Incorrect count (" u "). Must be 15-30.");
      try reflexivity; try discriminate.
    + rewrite has_char_app, has_char_app, Hnl. reflexivity.
    + apply plain_no_header. rewrite has_char_app, has_char_app, HV. reflexivity.
  - apply (clean_parts "P" "interest Keywords: Incorrect count (" u "). Must be 15-20.");
      try reflexivity; try discriminate.
    + rewrite has_char_app, has_char_app, Hnl. reflexivity.
    + apply plain_no_header. rewrite has_char_app, has_char_app, HV. reflexivity.
Qed.

Lemma prefix_issue_clean (label : string) (offending : list string) :
  label = "Instagram Hashtags: Missing '#' on: " \/
  label = "Pinterest Keywords: Should not have '#': " ->
  Py.contains Validator.header (Py.repr_list (Validator.named offending)) = false ->
  clean (Validator.prefix_issue label offending).
Proof.
  unfold Validator.prefix_issue. intros Hl Hh.
  set (names := Validator.named offending) in *.
  assert (Hnl : Py.has_char "010"%char (Py.join ", " (map Py.repr_str names)) = false)
    by apply concat_reprs_no_nl.
  unfold Py.repr_list in *.
  set (inner := Py.join ", " (map Py.repr_str names)) in *.
  destruct Hl as [->| ->].
  - apply (clean_parts "I" "nstagram Hashtags: Missing '#' on: [" inner "]");
      try reflexivity; try discriminate.
    + rewrite has_char_app, has_char_app, Hnl. reflexivity.
    + apply (header_after_plain "Instagram Hashtags: Missing '#' on: " ("[" ++ inner ++ "]"));
        [reflexivity | exact Hh].
  - apply (clean_parts "P" "interest Keywords: Should not have '#': [" inner "]");
      try reflexivity; try discriminate.
    + rewrite has_char_app, has_char_app, Hnl. reflexivity.
    + apply (header_after_plain "Pinterest Keywords: Should not have '#': "
               ("[" ++ inner ++ "]")); [reflexivity | exact Hh].
Qed.

Lemma wrong_count_clean lo hi label range l :
  label = "Instagram Hashtags" /\ range = "15-30" \/
  label = "Pinterest Keywords" /\ range = "15-20" ->
  Forall clean (Validator.wrong_count lo hi label range l).
Proof.
  intros H. unfold Validator.wrong_count.
  destruct (negb _); auto using count_issue_clean.
Qed.

Lemma wrong_prefix_clean label offending :
  label = "Instagram Hashtags: Missing '#' on: " \/
  label = "Pinterest Keywords: Should not have '#': " ->
  Py.contains Validator.header (Py.repr_list (Validator.named offending)) = false ->
  Forall clean (Validator.wrong_prefix label offending).
Proof.
  intros Hl Hh. unfold Validator.wrong_prefix.
  destruct (Validator.nonempty offending); auto using prefix_issue_clean.
Qed.

Lemma fixed_issues_clean :
  clean "Instagram Caption: Exceeds 2,200 characters." /\
  clean "Instagram Alt Text: Exceeds 100 characters." /\
  clean "Pinterest Title: Exceeds 100 characters." /\
  clean "Pinterest Description: Exceeds 500 characters.".
Proof. repeat split; (discriminate || reflexivity). Qed.

(** The issues found on a candidate of the expected shape are clean,
    unless an item named by a prefix issue spells out the header of the
    report. *)
Lemma validator_issues_clean c a tags t d kws :
  Py.contains Validator.header
    (Py.repr_list (Validator.named (filter Validator.lacks_hash tags))) = false ->
  Py.contains Validator.header
    (Py.repr_list (Validator.named (filter Validator.has_hash kws))) = false ->
  Forall clean (Validator.instagram_checks c a tags ++ Validator.pinterest_checks t d kws).
Proof.
  intros Ht Hk. destruct fixed_issues_clean as (F1 & F2 & F3 & F4).
  unfold Validator.instagram_checks, Validator.pinterest_checks.
  repeat (apply Forall_app; split);
    auto using too_long_clean, wrong_count_clean, wrong_prefix_clean.
Qed.

(** From the candidate to the prompt: the feedback of the validator on a
    candidate of the expected shape, once formatted, numbers the issues
    found in their order. *)
Lemma format_validator_feedback content c a tags t d kws first rest :
  Validator.shaped content c a tags t d kws ->
  Py.contains Validator.header
    (Py.repr_list (Validator.named (filter Validator.lacks_hash tags))) = false ->
  Py.contains Validator.header
    (Py.repr_list (Validator.named (filter Validator.has_hash kws))) = false ->
  Validator.collect_issues content = OK (first :: rest) ->
  exists feedback,
    Validator.comprehensive_content_validator content = OK feedback /\
    format_feedback_for_prompt feedback
    = block (numbered 0 (("- " ++ first)%string :: rest)).
Proof.
  intros Hs Ht Hk Hc. unfold Validator.comprehensive_content_validator. rewrite Hc.
  eexists. split; [reflexivity|]. apply format_report.
  rewrite (collect_issues_shaped _ _ _ _ _ _ _ Hs) in Hc. inversion Hc as [E].
  apply validator_issues_clean; assumption.
Qed.

Lemma numbered_length (start : nat) (l : list string) :
  List.length (numbered start l) = List.length l.
Proof. revert start. induction l as [|x l IH]; intros start; simpl; [reflexivity|]. rewrite IH. reflexivity. Qed.

Lemma numbered_nth (l : list string) :
  forall start k issue,
    nth_error l k = Some issue ->
    nth_error (numbered start l) k
    = Some (Py.str_of_nat (start + k + 1) ++ ". " ++ issue)%string.
Proof.
  induction l as [|x l IH]; intros start k issue H; destruct k as [|k]; try discriminate.
  - simpl in H. inversion H; subst. simpl. rewrite Nat.add_0_r. reflexivity.
  - simpl in H. simpl. rewrite (IH (S start) k issue H).
    replace (S start + k + 1) with (start + S k + 1) by lia. reflexivity.
Qed.

(** C6. The formatter is a function of the validator's report, hence of
    the issue list: equal reports give equal text.  The report of no
    issue, and any feedback without "Failed", give the empty string.
    For a list of clean issues the text is the block whose line [k]
    (from 0) is the number [k + 1], a dot, and issue [k], in the order
    of the list; the first issue keeps the "- " of the separator that
    stood before it. *)
Theorem feedback_numbers_issues_in_order :
  format_feedback_for_prompt (Validator.report []) = EmptyString /\
  (forall feedback,
      Py.contains "Failed" feedback = false ->
      format_feedback_for_prompt feedback = EmptyString) /\
  (forall first rest,
      Forall clean (first :: rest) ->
      format_feedback_for_prompt (Validator.report (first :: rest))
      = block (numbered 0 (("- " ++ first)%string :: rest))) /\
  (forall content c a tags t d kws first rest,
      Validator.shaped content c a tags t d kws ->
      Py.contains Validator.header
        (Py.repr_list (Validator.named (filter Validator.lacks_hash tags))) = false ->
      Py.contains Validator.header
        (Py.repr_list (Validator.named (filter Validator.has_hash kws))) = false ->
      Validator.collect_issues content = OK (first :: rest) ->
      exists feedback,
        Validator.comprehensive_content_validator content = OK feedback /\
        format_feedback_for_prompt feedback
        = block (numbered 0 (("- " ++ first)%string :: rest))) /\
  (forall l start k issue,
      nth_error l k = Some issue ->
      nth_error (numbered start l) k
      = Some (Py.str_of_nat (start + k + 1) ++ ". " ++ issue)%string) /\
  (forall start l, List.length (numbered start l) = List.length l) /\
  (forall issues issues',
      issues = issues' ->
      format_feedback_for_prompt (Validator.report issues)
      = format_feedback_for_prompt (Validator.report issues')).
Proof.
  split; [reflexivity|]. split.
  { intros feedback H. unfold format_feedback_for_prompt. rewrite H. reflexivity. }
  split; [exact format_report|]. split; [exact format_validator_feedback|].
  split; [exact numbered_nth|].
  split; [exact numbered_length|]. intros issues issues' ->. reflexivity.
Qed.

Lemma feedback_numbers_issues_in_order_witness :
  exists feedback,
    Validator.comprehensive_content_validator Validator.three_hashtags = OK feedback /\
    format_feedback_for_prompt feedback
    = block ["1. - Instagram Hashtags: Incorrect count (3). Must be 15-30.";
             "2. Instagram Hashtags: Missing '#' on: ['travel', 'sunset']"].
Proof.
  refine (proj1 (proj2 (proj2 (proj2 feedback_numbers_issues_in_order)))
            _ _ _ _ _ _ _
            "Instagram Hashtags: Incorrect count (3). Must be 15-30."
            ["Instagram Hashtags: Missing '#' on: ['travel', 'sunset']"]
            three_hashtags_shaped _ _ _); reflexivity.
Defined.

(** ** The retry graph *)

Import Graph.

Section GraphFacts.

Variable llm : Model.

Lemma update_max_retries st upd :
  max_retries upd = None -> max_retries (update st upd) = max_retries st.
Proof. intros H. unfold update. simpl. rewrite H. reflexivity. Qed.

Lemma update_retry_count st upd :
  retry_count upd = None -> retry_count (update st upd) = retry_count st.
Proof. intros H. unfold update. simpl. rewrite H. reflexivity. Qed.

Lemma create_sets n st upd :
  create_social_content_node llm n st = OK upd ->
  retry_count upd = None /\ max_retries upd = None /\ analysis upd = None /\
  validation_feedback upd = None.
Proof.
  unfold create_social_content_node.
  destruct (build_prompt st) as [p|e]; [|discriminate].
  destruct (client llm) as [[]|?]; [|discriminate].
  destruct (content_reply llm n p); intros H; inversion H; subst; simpl; auto.
Qed.

Lemma validate_sets st upd :
  validate_content_node st = OK upd -> exists feedback, upd = feedback_only feedback.
Proof.
  unfold validate_content_node.
  destruct (social_content st) as [c|].
  - destruct (negb (truthy c)).
    + intros H; inversion H; eauto.
    + destruct (Validator.comprehensive_content_validator c); intros H; inversion H; eauto.
  - intros H; inversion H; eauto.
Qed.

Lemma validate_reads_content st st' :
  social_content st = social_content st' ->
  validate_content_node st = validate_content_node st'.
Proof. intros H. unfold validate_content_node. rewrite H. reflexivity. Qed.

Lemma increment_sets st upd :
  increment_retry_node st = OK upd ->
  exists c, retry_count st = Some c /\
            retry_count (update st upd) = Some (c + 1)%Z /\
            max_retries (update st upd) = max_retries st /\
            social_content (update st upd) = social_content st /\
            analysis (update st upd) = analysis st /\
            error_history (update st upd) = error_history st.
Proof.
  unfold increment_retry_node.
  destruct (retry_count st) as [c|] eqn:E; simpl; intros H; inversion H; subst.
  exists c. unfold update; simpl. repeat split.
Qed.

(** The routes [should_continue] can take. *)
Lemma should_continue_routes st route ui :
  should_continue st = OK (route, ui) ->
  (route = "end" /\ ui = [] /\ Validator.nonempty (get (error_history st) []) = true) \/
  (route = "end" /\ ui = [success_validated] /\
   Py.contains "Failed" (get (validation_feedback st) EmptyString) = false) \/
  (exists c m, retry_count st = Some c /\ max_retries st = Some m /\
               Py.contains "Failed" (get (validation_feedback st) EmptyString) = true /\
               Validator.nonempty (get (error_history st) []) = false /\
               ((route = "end" /\ ui = [warning_max_retries] /\ (m <= c)%Z) \/
                (route = "retry" /\ ui = [] /\ (c < m)%Z))).
Proof.
  unfold should_continue.
  destruct (Validator.nonempty (get (error_history st) [])) eqn:Eh.
  { intros H; inversion H; auto. }
  destruct (Py.contains "Failed" (get (validation_feedback st) EmptyString)) eqn:Ef.
  2:{ intros H; inversion H; auto. }
  destruct (retry_count st) as [c|]; simpl; [|discriminate].
  destruct (max_retries st) as [m|]; simpl; [|discriminate].
  destruct (Z.geb_spec c m) as [Hge|Hlt]; intros Hr; inversion Hr; subst; right; right;
    exists c, m; repeat split; auto.
  all: try (left; repeat split; auto; lia).
  all: try (right; repeat split; auto; lia).
Qed.

Lemma finish_job limit job : fst (finish limit job) = job.
Proof. destruct limit; reflexivity. Qed.

Lemma finish_room limit job : finish (S limit) job = (job, OK tt).
Proof. reflexivity. Qed.

Lemma run_creator limit job :
  run llm (S limit) content_creator job =
  let job1 := {| state := state job; calls := calls job;
                 shown := shown job ++ [write_crafting (attempt_number (state job))] |} in
  match create_social_content_node llm (calls job) (state job) with
  | Raise e => (job1, Raise e)
  | OK upd =>
      run llm limit validator
        {| state := update (state job) upd; calls := S (calls job); shown := shown job1 |}
  end.
Proof. reflexivity. Qed.

Lemma run_validator limit job :
  run llm (S limit) validator job =
  let job1 := {| state := state job; calls := calls job;
                 shown := shown job ++ [write_validating] |} in
  match validate_content_node (state job) with
  | Raise e => (job1, Raise e)
  | OK upd =>
      let st := update (state job) upd in
      match should_continue st with
      | Raise e => ({| state := st; calls := calls job; shown := shown job1 |}, Raise e)
      | OK (route, ui) =>
          let job2 := {| state := st; calls := calls job; shown := shown job1 ++ ui |} in
          match assoc route conditional_edges with
          | Some (Some next) => run llm limit next job2
          | Some None => finish limit job2
          | None => (job2, Raise (KeyError route))
          end
      end
  end.
Proof. reflexivity. Qed.

Lemma run_retry limit job :
  run llm (S limit) retry_counter job =
  match increment_retry_node (state job) with
  | Raise e => (job, Raise e)
  | OK upd =>
      run llm limit content_creator
        {| state := update (state job) upd; calls := calls job; shown := shown job |}
  end.
Proof. reflexivity. Qed.

Lemma run_analyzer limit job :
  run llm (S limit) analyzer job =
  let job1 := {| state := state job; calls := calls job;
                 shown := shown job ++ [write_analyzing] |} in
  match analyze_image_node llm (state job) with
  | Raise e => (job1, Raise e)
  | OK upd =>
      run llm limit content_creator
        {| state := update (state job) upd; calls := calls job; shown := shown job1 |}
  end.
Proof. reflexivity. Qed.

(** From any node but the entry point, the generation calls still to
    come are within the budget of the node. *)
Lemma calls_within_budget m limit :
  forall node job,
    node <> analyzer ->
    max_retries (state job) = Some m ->
    calls (fst (run llm limit node job)) <= calls job + budget m node (state job).
Proof.
  induction limit as [|limit IH]; intros node job Hn Hm; [simpl; lia|].
  destruct node; [congruence| | |].
  - (* content_creator *)
    rewrite run_creator. cbv zeta.
    destruct (create_social_content_node llm (calls job) (state job)) as [upd|e] eqn:E;
      [|simpl; lia].
    destruct (create_sets _ _ _ E) as (Hrc & Hmr & _).
    eapply Nat.le_trans; [apply IH; [discriminate|]|]; cbn [state calls shown budget].
    + rewrite update_max_retries; assumption.
    + rewrite update_retry_count by assumption. lia.
  - (* validator *)
    rewrite run_validator. cbv zeta.
    destruct (validate_content_node (state job)) as [upd|e] eqn:E; [|simpl; lia].
    destruct (validate_sets _ _ E) as (fb & ->).
    destruct (should_continue (update (state job) (feedback_only fb))) as [[route ui]|e] eqn:Es;
      [|simpl; lia].
    destruct (should_continue_routes _ _ _ Es)
      as [(-> & _) | [(-> & _) | (c & m' & Hc & Hm' & _ & _ & [(-> & _) | (-> & _ & Hlt)])]];
      simpl assoc; cbv iota; rewrite ?finish_job; try (simpl; lia).
    rewrite update_max_retries in Hm' by reflexivity.
    rewrite update_retry_count in Hc by reflexivity.
    eapply Nat.le_trans; [apply IH; [discriminate|]|]; cbn [state calls shown budget].
    + rewrite update_max_retries by reflexivity. exact Hm.
    + rewrite update_retry_count by reflexivity. rewrite Hc.
      rewrite Hm in Hm'. inversion Hm'; subst m'.
      unfold remaining. lia.
  - (* retry_counter *)
    rewrite run_retry.
    destruct (increment_retry_node (state job)) as [upd|e] eqn:E; [|simpl; lia].
    destruct (increment_sets _ _ E) as (c & Hc & Hc' & Hm' & _).
    eapply Nat.le_trans; [apply IH; [discriminate|]|]; cbn [state calls shown budget].
    + rewrite Hm'. exact Hm.
    + rewrite Hc', Hc. unfold remaining. lia.
Qed.

End GraphFacts.

Section RetryBudget.

Variable llm : Model.

Lemma analyze_inputs img retries :
  analyze_image_node llm (inputs img retries)
  = match client llm with
    | Raise e => Raise e
    | OK _ =>
        match analysis_reply llm img with
        | OK a => OK {| image_base64 := None; analysis := Some a; social_content := None;
                        validation_feedback := None; retry_count := Some 0%Z;
                        max_retries := None; error_history := None |}
        | Raise e => OK {| image_base64 := None; analysis := None; social_content := None;
                           validation_feedback := None; retry_count := None;
                           max_retries := None;
                           error_history :=
                             Some [("Image Analysis Failed: " ++ str_exn e)%string] |}
        end
    end.
Proof. reflexivity. Qed.

Lemma invoke_calls_bound limit img retries :
  (Z.of_nat (calls (fst (invoke llm limit (inputs img retries)))) <= Z.max 0 retries + 1)%Z.
Proof.
  unfold invoke. destruct limit as [|limit]; [simpl; lia|].
  rewrite run_analyzer. cbv zeta. cbn [state calls shown]. rewrite analyze_inputs.
  destruct (client llm) as [[]|?]; [|simpl; lia].
  destruct (analysis_reply llm img) as [a|e];
    (eapply Z.le_trans;
     [apply Nat2Z.inj_le, (calls_within_budget llm retries); [discriminate | reflexivity]|]);
    simpl; lia.
Qed.

(** When every attempt is turned down, the loop runs until the retry
    count has reached [max_retries]. *)
Lemma rejected_until_exhausted :
  client llm = OK tt ->
  always_rejected llm ->
  forall d limit job a c m,
    analysis (state job) = Some a ->
    retry_count (state job) = Some c ->
    max_retries (state job) = Some m ->
    error_history (state job) = None ->
    d = Z.to_nat (m - c) -> (c <= m)%Z ->
    3 * d + 3 <= limit ->
    exists job',
      run llm limit content_creator job = (job', OK tt) /\
      calls job' = calls job + d + 1 /\
      retry_count (state job') = Some m /\
      error_history (state job') = None /\
      (exists before, shown job' = before ++ [warning_max_retries]) /\
      (exists p content,
          content_reply llm (calls job + d) p = OK content /\
          social_content (state job') = Some content).
Proof.
  intros Hcl Hrej. induction d as [|d IH]; intros limit job a c m Ha Hc Hm He Hd Hle Hlim.
  - destruct limit as [|[|[|limit]]]; [lia|lia|lia|].
    destruct job as [[img an sc vf rc mr eh] k sh]. cbn in Ha, Hc, Hm, He. subst.
    rewrite run_creator. cbv zeta. unfold create_social_content_node, build_prompt.
    cbn [state calls shown analysis key validation_feedback]. rewrite Hcl.
    match goal with |- context [content_reply llm k ?p] =>
      destruct (Hrej k p) as (content & Hr & fb & Hv & Hf); rewrite Hr;
      set (prompt := p) in * end.
    rewrite run_validator. cbv zeta. cbn [state calls shown].
    rewrite (validate_reads_content _ (only_content content)), Hv by reflexivity.
    unfold should_continue, update, feedback_only.
    cbn [error_history validation_feedback retry_count max_retries over get key
         Validator.nonempty].
    rewrite Hf.
    destruct (Z.geb_spec c m) as [_|Hlt]; [|lia].
    cbn [assoc conditional_edges String.eqb]. simpl assoc. cbv iota. rewrite finish_room.
    eexists. split; [reflexivity|]. cbn [state calls shown retry_count error_history
      social_content over].
    repeat split.
    + lia.
    + f_equal. lia.
    + eexists. reflexivity.
    + exists prompt, content. rewrite Nat.add_0_r. auto.
  - destruct limit as [|[|[|limit]]]; try lia.
    destruct job as [[img an sc vf rc mr eh] k sh]. cbn in Ha, Hc, Hm, He. subst.
    rewrite run_creator. cbv zeta. unfold create_social_content_node, build_prompt.
    cbn [state calls shown analysis key validation_feedback]. rewrite Hcl.
    match goal with |- context [content_reply llm k ?p] =>
      destruct (Hrej k p) as (content & Hr & fb & Hv & Hf); rewrite Hr end.
    rewrite run_validator. cbv zeta. cbn [state calls shown].
    rewrite (validate_reads_content _ (only_content content)), Hv by reflexivity.
    unfold should_continue, update, feedback_only.
    cbn [error_history validation_feedback retry_count max_retries over get key
         Validator.nonempty].
    rewrite Hf.
    destruct (Z.geb_spec c m) as [Hge|Hlt]; [lia|].
    simpl assoc. cbv iota.
    rewrite run_retry. unfold increment_retry_node. cbn [state retry_count key].
    match goal with |- context [run llm limit content_creator ?j] =>
      destruct (IH limit j a (c + 1)%Z m) as (job' & Hrun & Hcalls & Hrc & Heh & Hsh & Hcontent);
        try reflexivity; try lia end.
    exists job'. split; [exact Hrun|]. cbn [calls] in Hcalls, Hcontent.
    repeat split; auto.
    + lia.
    + destruct Hcontent as (p & content' & H1 & H2). exists p, content'.
      replace (k + S d) with (S k + d) by lia. auto.
Qed.

End RetryBudget.

Section HardFailure.

Variable llm : Model.






(** A failed image analysis leaves the graph at the next node, before
    any generation call. *)
Lemma failed_analysis_makes_no_call img retries limit e :
  analysis_reply llm img = Raise e ->
  calls (fst (invoke llm limit (inputs img retries))) = 0.
Proof.
  intros He. unfold invoke. destruct limit as [|limit]; [reflexivity|].
  rewrite run_analyzer. cbv zeta. cbn [state calls shown]. rewrite analyze_inputs, He.
  destruct (client llm) as [[]|?]; [|reflexivity].
  destruct limit as [|limit]; reflexivity.
Qed.

End HardFailure.

(** The step that reaches [END] counts: with two retries the nine nodes
    of a job whose every attempt is turned down all run within a limit
    of nine, and the job still ends on the limit. *)
Example nine_steps_are_one_short :
  snd (invoke stubborn 9 (inputs "aW1hZ2U=" 2)) = Raise GraphRecursionError /\
  calls (fst (invoke stubborn 9 (inputs "aW1hZ2U=" 2))) = 3 /\
  snd (invoke stubborn 10 (inputs "aW1hZ2U=" 2)) = OK tt.
Proof. repeat split. Qed.

(** C1, as the code has it.  A job makes at most [max_retries + 1]
    generation calls, whatever the model answers and whatever the step
    limit.  When the image analysis succeeds, every attempt is turned
    down by the validator and the step limit is above
    [3 * max_retries + 3], the job makes exactly [max_retries + 1]
    calls, ends in order with the "max retries reached" warning as the
    last thing shown, and leaves the content of the last call in
    [social_content]. *)
Theorem generation_calls_within_retries_plus_one llm img retries :
  (forall limit,
      (Z.of_nat (calls (fst (invoke llm limit (inputs img retries))))
       <= Z.max 0 retries + 1)%Z) /\
  ((0 <= retries)%Z ->
   client llm = OK tt ->
   (exists a, analysis_reply llm img = OK a) ->
   always_rejected llm ->
   forall limit,
     3 * Z.to_nat retries + 3 < limit ->
     exists job,
       invoke llm limit (inputs img retries) = (job, OK tt) /\
       calls job = Z.to_nat retries + 1 /\
       retry_count (state job) = Some retries /\
       error_history (state job) = None /\
       (exists before, shown job = before ++ [warning_max_retries]) /\
       (exists p content,
           content_reply llm (Z.to_nat retries) p = OK content /\
           social_content (state job) = Some content)).
Proof.
  split; [intros limit; apply invoke_calls_bound|].
  intros Hr Hcl (a & Ha) Hrej limit Hlim.
  unfold invoke. destruct limit as [|limit]; [lia|].
  rewrite run_analyzer. cbv zeta. cbn [state calls shown]. rewrite analyze_inputs, Hcl, Ha.
  match goal with |- context [run llm limit content_creator ?j] =>
    destruct (rejected_until_exhausted llm Hcl Hrej (Z.to_nat retries) limit j a 0%Z retries)
      as (job' & Hrun & Hcalls & Hrc & Heh & Hsh & Hc); try reflexivity; try lia end.
  exists job'. cbn [calls] in Hcalls, Hc. repeat split; auto.
Qed.

Lemma stubborn_always_rejected : always_rejected stubborn.
Proof.
  intros n p. exists Validator.three_hashtags. split; [reflexivity|].
  eexists. split; reflexivity.
Defined.

Lemma generation_calls_within_retries_plus_one_witness :
  exists job,
    invoke stubborn 25 (inputs "aW1hZ2U=" 2) = (job, OK tt) /\
    calls job = 3 /\
    retry_count (state job) = Some 2%Z /\
    error_history (state job) = None /\
    (exists before, shown job = before ++ [warning_max_retries]) /\
    (exists p content,
        content_reply stubborn 2 p = OK content /\
        social_content (state job) = Some content).
Proof.
  refine (proj2 (generation_calls_within_retries_plus_one stubborn "aW1hZ2U=" 2) _ _ _ _ 25 _).
  - lia.
  - reflexivity.
  - eexists. reflexivity.
  - exact stubborn_always_rejected.
  - simpl. lia.
Defined.

(** C1, as the spec has it, fails: with a budget of 2 and a model whose
    every attempt is turned down, attempts 0 and 1 are followed by a
    third one, and the job stops after three generation calls. *)
Lemma two_retries_make_three_attempts :
  rejected Validator.three_hashtags /\
  (forall n p, content_reply stubborn n p = OK Validator.three_hashtags) /\
  max_retries (inputs "aW1hZ2U=" 2) = Some 2%Z /\
  calls (fst (invoke stubborn 25 (inputs "aW1hZ2U=" 2))) = 3 /\
  ~ calls (fst (invoke stubborn 25 (inputs "aW1hZ2U=" 2))) <= 2 /\
  shown (fst (invoke stubborn 25 (inputs "aW1hZ2U=" 2)))
  = [write_analyzing; write_crafting 1; write_validating; write_crafting 2;
     write_validating; write_crafting 3; write_validating; warning_max_retries].
Proof.
  split; [eexists; split; reflexivity|].
  split; [reflexivity|]. split; [reflexivity|]. split; [reflexivity|].
  split; [|reflexivity].
  change (calls (fst (invoke stubborn 25 (inputs "aW1hZ2U=" 2)))) with 3. lia.
Qed.

(** C2, where the code departs from it.  When the call that analyses
    the image raises, [analyze_image_node] records the failure in
    [error_history], but the graph goes on to the content creator, which
    reads [state['analysis']]: the job makes no generation call, never
    reaches [END] and leaves [app.invoke] with [KeyError], the failure
    still in its history. *)
Theorem failed_analysis_never_reaches_end llm img retries limit e :
  client llm = OK tt ->
  analysis_reply llm img = Raise e ->
  2 <= limit ->
  error_history (state (fst (invoke llm limit (inputs img retries))))
  = Some [("Image Analysis Failed: " ++ str_exn e)%string] /\
  snd (invoke llm limit (inputs img retries)) = Raise (KeyError "analysis") /\
  snd (invoke llm limit (inputs img retries)) <> OK tt /\
  calls (fst (invoke llm limit (inputs img retries))) = 0 /\
  shown (fst (invoke llm limit (inputs img retries))) = [write_analyzing; write_crafting 1].
Proof.
  intros Hcl He Hlim. destruct limit as [|[|limit]]; try lia.
  unfold invoke. rewrite run_analyzer. cbv zeta. cbn [state calls shown].
  rewrite analyze_inputs, Hcl, He. rewrite run_creator. cbv zeta.
  unfold create_social_content_node, build_prompt, update, inputs.
  cbn [state calls shown analysis over key fst snd error_history].
  repeat split. discriminate.
Qed.

Lemma failed_analysis_never_reaches_end_witness :
  error_history (state (fst (invoke blind 25 (inputs "aW1hZ2U=" 2))))
  = Some ["Image Analysis Failed: 503 Service Unavailable"] /\
  snd (invoke blind 25 (inputs "aW1hZ2U=" 2)) = Raise (KeyError "analysis").
Proof.
  destruct (failed_analysis_never_reaches_end blind "aW1hZ2U=" 2 25
              (ExternalError "503 Service Unavailable"))
    as (Hhist & Hout & _); [reflexivity|reflexivity|lia|].
  split; [exact Hhist | exact Hout].
Defined.



(** ** The active application *)

Import App.

Section AppFacts.

Variable world : World.

(** The [try] block sends at most one message. *)
Lemma attempt_outbound config image context schema fx :
  let fx' := snd (attempt world config image context schema fx) in
  errors fx' = errors fx /\
  (outbound fx' = outbound fx \/
   outbound fx'
   = outbound fx ++ [{| text := prompt_text world config context schema;
                        image_url := ("data:image/jpeg;base64," ++ image)%string |}]).
Proof.
  unfold attempt.
  destruct (unset (getenv world "GOOGLE_API_KEY")); [simpl; auto|].
  destruct (connect world _); [|simpl; auto].
  destruct (model_invoke world _ _); [|simpl; auto].
  destruct (parse world _); simpl; auto.
Qed.

(** With a key and a client, it sends exactly one, whatever comes
    back. *)
Lemma attempt_sends_one config image context schema fx :
  unset (getenv world "GOOGLE_API_KEY") = false ->
  connect world (Graph.get (getenv world "GOOGLE_API_KEY") EmptyString) = OK tt ->
  outbound (snd (attempt world config image context schema fx))
  = outbound fx ++ [{| text := prompt_text world config context schema;
                       image_url := ("data:image/jpeg;base64," ++ image)%string |}].
Proof.
  intros Hk Hc. unfold attempt. rewrite Hk, Hc.
  destruct (model_invoke world _ _); [|reflexivity].
  destruct (parse world _); reflexivity.
Qed.

Lemma attempt_without_key config image context schema fx :
  unset (getenv world "GOOGLE_API_KEY") = true ->
  attempt world config image context schema fx
  = (Raise (ValueError "GOOGLE_API_KEY not found in environment variables."), fx).
Proof. intros H. unfold attempt. rewrite H. reflexivity. Qed.

Lemma generate_outbound platform_key image context schema fx :
  outbound (snd (generate_for_platform world platform_key image context schema fx))
  = outbound (snd (match assoc platform_key PLATFORM_CONFIG with
                   | Some config => attempt world config image context schema fx
                   | None => (Raise (KeyError platform_key), fx)
                   end)).
Proof.
  unfold generate_for_platform.
  destruct (assoc platform_key PLATFORM_CONFIG) as [config|]; [|reflexivity].
  destruct (attempt world config image context schema fx) as [[c|e] fx']; reflexivity.
Qed.

(** For a platform of the configuration nothing is raised: what the
    [try] block raises comes back as [None]. *)
Lemma generate_known platform_key config image context schema fx :
  assoc platform_key PLATFORM_CONFIG = Some config ->
  exists content,
    fst (generate_for_platform world platform_key image context schema fx) = OK content /\
    match fst (attempt world config image context schema fx) with
    | OK parsed => content = parsed
    | Raise _ => content = JNull
    end.
Proof.
  intros H. unfold generate_for_platform. rewrite H.
  destruct (attempt world config image context schema fx) as [[c|e] fx']; simpl; eauto.
Qed.

Lemma dict_set_fresh k v d :
  assoc k d = None -> dict_set k v d = d ++ [(k, v)].
Proof.
  induction d as [|[k' v'] d IH]; simpl; [reflexivity|].
  destruct (String.eqb k k'); [discriminate|]. intros H. rewrite (IH H). reflexivity.
Qed.

Lemma assoc_app_fresh {A : Type} k k' (v : A) d :
  k <> k' -> assoc k d = None -> assoc k (d ++ [(k', v)]) = None.
Proof.
  intros Hne. induction d as [|[k2 v2] d IH]; simpl.
  - intros _. destruct (String.eqb_spec k k'); [contradiction|reflexivity].
  - destruct (String.eqb k k2); [discriminate|]. exact IH.
Qed.

Lemma generate_loop_cons key keys image context content fx :
  generate_loop world (key :: keys) image context content fx
  = match assoc key PLATFORM_CONFIG with
    | None => (Raise (KeyError key), fx)
    | Some config =>
        match generate_for_platform world key image context (pydantic_model config) fx with
        | (Raise e, fx') => (Raise e, fx')
        | (OK c, fx') =>
            generate_loop world keys image context
              (if truthy c then dict_set key c content else content) fx'
        end
    end.
Proof. reflexivity. Qed.

Lemma returned_cons key keys image context fx :
  returned world (key :: keys) image context fx
  = match assoc key PLATFORM_CONFIG with
    | None => ([], fx)
    | Some config =>
        match generate_for_platform world key image context (pydantic_model config) fx with
        | (Raise _, fx') => ([], fx')
        | (OK c, fx') =>
            let '(l, fx'') := returned world keys image context fx' in
            ((key, c) :: l, fx'')
        end
    end.
Proof. reflexivity. Qed.

(** The loop files what each call returned, when it counts as true,
    behind what was filed before. *)
Lemma generate_loop_files keys image context :
  Forall known keys -> NoDup keys ->
  forall content fx,
    (forall k, In k keys -> assoc k content = None) ->
    generate_loop world keys image context content fx
    = (OK (content ++ kept (fst (returned world keys image context fx))),
       snd (returned world keys image context fx)) /\
    map fst (fst (returned world keys image context fx)) = keys.
Proof.
  induction 1 as [|key keys [config Hk] Hks IH]; intros Hnd content fx Hfresh.
  - simpl. rewrite app_nil_r. auto.
  - inversion Hnd as [|? ? Hnot Hnd']; subst.
    rewrite generate_loop_cons, returned_cons, Hk.
    destruct (generate_known key config image context (pydantic_model config) fx Hk)
      as (c & Hc & _).
    destruct (generate_for_platform world key image context (pydantic_model config) fx)
      as [r fx'] eqn:E.
    cbn [fst] in Hc. subst r.
    match goal with |- context [generate_loop world keys image context ?d fx'] =>
      destruct (IH Hnd' d fx') as [IH1 IH2] end.
    { intros k Hin. destruct (truthy c); [|apply Hfresh; right; exact Hin].
      rewrite dict_set_fresh by (apply Hfresh; left; reflexivity).
      apply assoc_app_fresh; [|apply Hfresh; right; exact Hin].
      intros ->. contradiction. }
    rewrite IH1.
    destruct (returned world keys image context fx') as [l fx''] eqn:Er.
    cbn [fst snd map] in *. unfold kept. cbn [filter snd].
    destruct (truthy c).
    + rewrite dict_set_fresh by (apply Hfresh; left; reflexivity).
      rewrite <- app_assoc. simpl. split; [reflexivity|]. f_equal. exact IH2.
    + split; [reflexivity|]. f_equal. exact IH2.
Qed.

End AppFacts.

(** What the checkboxes select is made of configured platforms, none
    twice. *)
Lemma selection_known_nodup (ticked : string -> bool) :
  Forall known (select_platforms ticked) /\ NoDup (select_platforms ticked).
Proof.
  unfold select_platforms. split.
  - apply Forall_forall. intros k Hin. apply filter_In in Hin. destruct Hin as [Hin _].
    simpl in Hin.
    destruct Hin as [<-|[<-|[<-|[<-|[<-|[]]]]]]; eexists; reflexivity.
  - apply NoDup_filter. simpl.
    repeat constructor; simpl; intuition discriminate.
Qed.


(** C5, as the code has it.  One invocation of [generate_for_platform]
    sends at most one message to the model, and exactly one whenever the
    platform is configured, the API key is set and the client is built:
    whether the call raises, the answer parses or not, nothing is sent a
    second time. *)
Theorem at_most_one_model_call world platform_key image context schema fx :
  (outbound (snd (generate_for_platform world platform_key image context schema fx))
   = outbound fx \/
   exists message,
     outbound (snd (generate_for_platform world platform_key image context schema fx))
     = outbound fx ++ [message]) /\
  (known platform_key ->
   unset (getenv world "GOOGLE_API_KEY") = false ->
   connect world (Graph.get (getenv world "GOOGLE_API_KEY") EmptyString) = OK tt ->
   exists message,
     outbound (snd (generate_for_platform world platform_key image context schema fx))
     = outbound fx ++ [message]).
Proof.
  rewrite generate_outbound. split.
  - destruct (assoc platform_key PLATFORM_CONFIG) as [config|]; [|left; reflexivity].
    destruct (attempt_outbound world config image context schema fx) as (_ & [H|H]);
      [left; exact H | right; eexists; exact H].
  - intros (config & Hk) Hkey Hc. rewrite Hk. eexists.
    apply attempt_sends_one; assumption.
Qed.

Lemma at_most_one_model_call_witness :
  exists message,
    outbound (snd (generate_for_platform one_answer "x" "aW1hZ2U=" "A bakery in Lyon."
                     XContent no_effects))
    = outbound no_effects ++ [message].
Proof.
  refine (proj2 (at_most_one_model_call one_answer "x" "aW1hZ2U=" "A bakery in Lyon."
                   XContent no_effects) _ _ _).
  - eexists. reflexivity.
  - reflexivity.
  - reflexivity.
Defined.

(** C5, as the spec has it, fails: without an API key the invocation
    returns with no message sent. *)
Lemma no_credentials_no_call :
  getenv no_credentials "GOOGLE_API_KEY" = None /\
  generate_for_platform no_credentials "instagram" "aW1hZ2U=" "A bakery in Lyon."
    InstagramContent no_effects
  = (OK JNull,
     {| outbound := [];
        errors := ["Error generating content for Instagram: GOOGLE_API_KEY not found in environment variables."] |}) /\
  List.length (outbound (snd (generate_for_platform no_credentials "instagram" "aW1hZ2U="
                                "A bakery in Lyon." InstagramContent no_effects))) <> 1.
Proof. split; [reflexivity|]. split; [reflexivity|]. discriminate. Qed.

(** C9. When GOOGLE_API_KEY is not set (or set to the empty string), an
    invocation sends nothing to the model; for a configured platform it
    returns [None] and shows the error "Error generating content for
    <name>: GOOGLE_API_KEY not found in environment variables.". *)
Theorem missing_credentials_fail_before_any_call world platform_key image context schema fx :
  unset (getenv world "GOOGLE_API_KEY") = true ->
  outbound (snd (generate_for_platform world platform_key image context schema fx))
  = outbound fx /\
  forall config,
    assoc platform_key PLATFORM_CONFIG = Some config ->
    generate_for_platform world platform_key image context schema fx
    = (OK JNull,
       {| outbound := outbound fx;
          errors := errors fx ++
            [("Error generating content for " ++ name config
              ++ ": GOOGLE_API_KEY not found in environment variables.")%string] |}).
Proof.
  intros H. split.
  - rewrite generate_outbound.
    destruct (assoc platform_key PLATFORM_CONFIG); [|reflexivity].
    rewrite attempt_without_key by exact H. reflexivity.
  - intros config Hk. unfold generate_for_platform.
    rewrite Hk, attempt_without_key by exact H. reflexivity.
Qed.

Lemma missing_credentials_fail_before_any_call_witness :
  outbound (snd (generate_for_platform no_credentials "pinterest" "aW1hZ2U=" EmptyString
                   PinterestContent no_effects))
  = outbound no_effects.
Proof.
  apply (missing_credentials_fail_before_any_call no_credentials "pinterest" "aW1hZ2U="
           EmptyString PinterestContent no_effects).
  reflexivity.
Defined.

(** C10, as the code has it.  For a platform of [PLATFORM_CONFIG],
    [generate_for_platform] raises nothing: what the [try] block raises
    (missing key, client, call or parse) comes back as [None], what it
    parses comes back as it is.  A click on the button with a selection
    of configured platforms, none twice, raises nothing either, and
    leaves in [generated_content] the platforms whose call returned a
    value that counts as true, each with that value, in the order of the
    selection. *)
Theorem failures_return_none_and_leave_other_platforms world :
  (forall platform_key config image context schema fx,
      assoc platform_key PLATFORM_CONFIG = Some config ->
      exists content,
        fst (generate_for_platform world platform_key image context schema fx) = OK content /\
        match fst (attempt world config image context schema fx) with
        | OK parsed => content = parsed
        | Raise _ => content = JNull
        end) /\
  (forall s fx,
      can_generate s = true ->
      Forall known (platforms_selected s) ->
      NoDup (platforms_selected s) ->
      exists s' calls,
        generate_content world s fx = (OK s', snd calls) /\
        calls = returned world (platforms_selected s)
                  (Graph.get (image_base64 s) EmptyString) (business_context s) fx /\
        map fst (fst calls) = platforms_selected s /\
        generated_content s' = kept (fst calls)).
Proof.
  split; [exact (generate_known world)|].
  intros s fx Hcan Hknown Hnd. unfold generate_content. rewrite Hcan.
  destruct (generate_loop_files world (platforms_selected s)
              (Graph.get (image_base64 s) EmptyString) (business_context s)
              Hknown Hnd [] fx ltac:(reflexivity)) as [H1 H2].
  rewrite H1. eexists. eexists. split; [reflexivity|]. split; [reflexivity|].
  split; [exact H2|reflexivity].
Qed.

Lemma failures_return_none_and_leave_other_platforms_witness :
  exists s',
    fst (generate_content one_answer (session ["x"; "linkedin"]) no_effects) = OK s' /\
    generated_content s'
    = [("x", JDict [("tweet", JStr "Golden hour."); ("hashtags", JList [JStr "#sunset"])])].
Proof.
  destruct (proj2 (failures_return_none_and_leave_other_platforms one_answer)
              (session ["x"; "linkedin"]) no_effects)
    as (s' & calls & Hrun & Hcalls & _ & Hcontent).
  - reflexivity.
  - repeat constructor; eexists; reflexivity.
  - repeat constructor; simpl; intuition discriminate.
  - exists s'. rewrite Hrun. split; [reflexivity|].
    rewrite Hcontent, Hcalls. reflexivity.
Defined.

(** C10, as the spec has it, fails twice: a platform key outside
    [PLATFORM_CONFIG] makes [generate_for_platform] raise [KeyError],
    and a generation that succeeds with the empty JSON object (no error
    shown, a value other than [None] returned) is left out of
    [generated_content]. *)
Lemma unknown_platform_raises_and_empty_answer_is_dropped :
  fst (generate_for_platform empty_answers "tiktok" "aW1hZ2U=" EmptyString
         InstagramContent no_effects)
  = Raise (KeyError "tiktok") /\
  generate_for_platform empty_answers "instagram" "aW1hZ2U=" EmptyString
    InstagramContent no_effects
  = (OK (JDict []),
     {| outbound := [{| text := prompt_text empty_answers
                                  {| name := "Instagram"; pydantic_model := InstagramContent;
                                     prompt := "Generate an engaging caption, 15-20 relevant hashtags, and descriptive alt text for an Instagram post." |}
                                  EmptyString InstagramContent;
                        image_url := "data:image/jpeg;base64,aW1hZ2U=" |}];
        errors := [] |}) /\
  JDict [] <> JNull /\
  exists s',
    fst (generate_content empty_answers (session ["instagram"]) no_effects) = OK s' /\
    generated_content s' = [].
Proof.
  split; [reflexivity|]. split; [reflexivity|]. split; [discriminate|].
  eexists. split; reflexivity.
Qed.

(** * Further properties *)

(** ** Dicts *)

Lemma assoc_dict_set_same k v d : assoc k (App.dict_set k v d) = Some v.
Proof.
  induction d as [|[k' v'] d IH]; simpl.
  - rewrite String.eqb_refl. reflexivity.
  - destruct (String.eqb k k') eqn:E; simpl.
    + rewrite String.eqb_refl. reflexivity.
    + rewrite E. exact IH.
Qed.

Lemma assoc_dict_set_other k k' v d :
  k' <> k -> assoc k' (App.dict_set k v d) = assoc k' d.
Proof.
  intros Hne. induction d as [|[k2 v2] d IH]; simpl.
  - destruct (String.eqb_spec k' k); [contradiction|reflexivity].
  - destruct (String.eqb_spec k k2) as [->|Hk]; simpl.
    + destruct (String.eqb_spec k' k2); [contradiction|reflexivity].
    + destruct (String.eqb k' k2); [reflexivity|exact IH].
Qed.

Lemma dict_set_same k v d : assoc k d = Some v -> App.dict_set k v d = d.
Proof.
  induction d as [|[k' v'] d IH]; simpl; [discriminate|].
  destruct (String.eqb_spec k k') as [->|Hk].
  - intros H. inversion H. reflexivity.
  - intros H. rewrite (IH H). reflexivity.
Qed.

Lemma dict_set_twice k v w d :
  App.dict_set k v (App.dict_set k w d) = App.dict_set k v d.
Proof.
  induction d as [|[k' v'] d IH]; simpl.
  - rewrite String.eqb_refl. reflexivity.
  - destruct (String.eqb k k') eqn:E; simpl.
    + rewrite String.eqb_refl. reflexivity.
    + rewrite E, IH. reflexivity.
Qed.

Lemma dict_set_keys k v w d :
  assoc k d = Some w -> map fst (App.dict_set k v d) = map fst d.
Proof.
  induction d as [|[k' v'] d IH]; simpl; [discriminate|].
  destruct (String.eqb_spec k k') as [->|Hk]; simpl; [reflexivity|].
  intros H. rewrite (IH H). reflexivity.
Qed.

Lemma subscript_dict v k x :
  subscript v k = OK x -> exists d, v = JDict d /\ assoc k d = Some x.
Proof.
  destruct v; simpl; try discriminate.
  destruct (assoc k d) eqn:E; intros H; inversion H; subst. eauto.
Qed.

(** ** The repair step *)

Import Repair.

Lemma fix_each_strs l : fix_each (map JStr l) = OK (map JStr (map add_hash l)).
Proof. induction l as [|h l IH]; simpl; [reflexivity|]. rewrite IH. reflexivity. Qed.

Lemma add_hash_marked h : Py.startswith (add_hash h) "#" = true.
Proof.
  unfold add_hash. destruct (Py.startswith h "#") eqn:E; [exact E|].
  unfold Py.startswith. simpl. destruct (h); reflexivity.
Qed.

Lemma add_hash_keeps h : Py.startswith h "#" = true -> add_hash h = h.
Proof. intros H. unfold add_hash. rewrite H. reflexivity. Qed.

Lemma add_hash_twice h : add_hash (add_hash h) = add_hash h.
Proof. apply add_hash_keeps, add_hash_marked. Qed.

(** What the repair makes of a candidate of the expected shape. *)
Lemma fix_shaped content c a tags t d kws :
  shaped content c a tags t d kws ->
  exists cd igd,
    content = JDict cd /\
    assoc "instagram" cd = Some (JDict igd) /\
    fix_common_errors content
    = OK (JDict (App.dict_set "instagram"
                   (JDict (App.dict_set "hashtags" (JList (map JStr (map add_hash tags))) igd))
                   cd)).
Proof.
  intros (ig & pin & Hig & Hc & Ha & Hh & Hpin & Ht & Hd & Hk).
  destruct (subscript_dict _ _ _ Hig) as (cd & -> & Hcd).
  destruct (subscript_dict _ _ _ Hh) as (igd & -> & Higd).
  exists cd, igd. split; [reflexivity|]. split; [exact Hcd|].
  unfold fix_common_errors.
  assert (Ht' : truthy (JDict cd) = true) by (destruct cd; [discriminate|reflexivity]).
  rewrite Ht'. cbn [negb has]. rewrite Hcd. cbn [subscript]. rewrite Hcd.
  cbn [has get_or]. rewrite Higd. rewrite fix_each_strs. reflexivity.
Qed.

Lemma repair_shape content c a tags t d kws :
  shaped content c a tags t d kws ->
  exists fixed,
    fix_common_errors content = OK fixed /\
    shaped fixed c a (map add_hash tags) t d kws.
Proof.
  intros Hs. destruct (fix_shaped _ _ _ _ _ _ _ Hs) as (cd & igd & -> & Hcd & Hfix).
  eexists. split; [exact Hfix|].
  destruct Hs as (ig & pin & Hig & Hc & Ha & Hh & Hpin & Ht & Hd & Hk).
  simpl in Hig. rewrite Hcd in Hig. inversion Hig; subst ig.
  exists (JDict (App.dict_set "hashtags" (JList (map JStr (map add_hash tags))) igd)), pin.
  cbn [subscript].
  repeat split;
    rewrite ?assoc_dict_set_same, ?assoc_dict_set_other by discriminate; auto.
Qed.

(** X1.  After the repair every Instagram hashtag has its '#', there are
    as many hashtags as before, in the same order, and the rest of the
    candidate is the same.  On a candidate of the expected shape the
    repair returns the candidate with the hashtag list, and nothing
    else, replaced: every other key of the candidate and every other
    key of its Instagram block keeps its place and its value. *)
Theorem repair_marks_every_hashtag content c a tags t d kws :
  shaped content c a tags t d kws ->
  exists cd igd,
    content = JDict cd /\
    assoc "instagram" cd = Some (JDict igd) /\
    fix_common_errors content
    = OK (JDict (App.dict_set "instagram"
                   (JDict (App.dict_set "hashtags" (JList (map JStr (map add_hash tags))) igd))
                   cd)) /\
    map fst (App.dict_set "instagram"
               (JDict (App.dict_set "hashtags" (JList (map JStr (map add_hash tags))) igd)) cd)
    = map fst cd /\
    map fst (App.dict_set "hashtags" (JList (map JStr (map add_hash tags))) igd)
    = map fst igd /\
    (forall k,
        k <> "instagram" ->
        assoc k (App.dict_set "instagram"
                   (JDict (App.dict_set "hashtags" (JList (map JStr (map add_hash tags))) igd))
                   cd)
        = assoc k cd) /\
    (forall k,
        k <> "hashtags" ->
        assoc k (App.dict_set "hashtags" (JList (map JStr (map add_hash tags))) igd)
        = assoc k igd) /\
    assoc "hashtags" (App.dict_set "hashtags" (JList (map JStr (map add_hash tags))) igd)
    = Some (JList (map JStr (map add_hash tags))) /\
    Forall (fun h => Py.startswith h "#" = true) (map add_hash tags) /\
    List.length (map add_hash tags) = List.length tags /\
    (forall h, Py.startswith h "#" = true -> add_hash h = h).
Proof.
  intros Hs. destruct (fix_shaped _ _ _ _ _ _ _ Hs) as (cd & igd & Hcontent & Hcd & Hfix).
  assert (Higd : exists v, assoc "hashtags" igd = Some v).
  { destruct Hs as (ig & pin & Hig & _ & _ & Hh & _). subst content.
    simpl in Hig. rewrite Hcd in Hig. inversion Hig; subst ig.
    destruct (subscript_dict _ _ _ Hh) as (igd' & E & Hh'). inversion E; subst igd'. eauto. }
  destruct Higd as (v & Higd).
  exists cd, igd. split; [exact Hcontent|]. split; [exact Hcd|]. split; [exact Hfix|].
  split; [eapply dict_set_keys; exact Hcd|].
  split; [eapply dict_set_keys; exact Higd|].
  split; [intros k Hk; apply assoc_dict_set_other; exact Hk|].
  split; [intros k Hk; apply assoc_dict_set_other; exact Hk|].
  split; [apply assoc_dict_set_same|].
  split; [|split].
  - apply Forall_forall. intros h Hin. apply in_map_iff in Hin.
    destruct Hin as (x & <- & _). apply add_hash_marked.
  - apply length_map.
  - exact add_hash_keeps.
Qed.

Lemma bad_sample_shaped :
  shaped bad_sample "A very long caption..."
    "A beautiful sunset over the ocean with palm trees." ["travel"; "sunset"; "#vacation"]
    "A beautiful sunset" "Just a photo." ["#travel"; "#sunset"; "vacation"].
Proof. eexists. eexists. repeat (split; [reflexivity|]). reflexivity. Defined.

Lemma repair_marks_every_hashtag_witness :
  fix_common_errors bad_sample
  = OK (JDict [("instagram",
                JDict [("caption", JStr "A very long caption...");
                       ("hashtags", JList [JStr "#travel"; JStr "#sunset"; JStr "#vacation"]);
                       ("alt_text", JStr "A beautiful sunset over the ocean with palm trees.")]);
               ("pinterest",
                JDict [("title", JStr "A beautiful sunset");
                       ("description", JStr "Just a photo.");
                       ("keywords", JList [JStr "#travel"; JStr "#sunset"; JStr "vacation"]);
                       ("alt_text", JStr "A scenic view.")])]).
Proof.
  destruct (repair_marks_every_hashtag _ _ _ _ _ _ _ bad_sample_shaped)
    as (cd & igd & Hcontent & Hcd & Hfix & _).
  unfold bad_sample in Hcontent. inversion Hcontent; subst cd.
  simpl in Hcd. inversion Hcd; subst igd. exact Hfix.
Defined.

Lemma wrong_count_by_length lo hi label range (l l' : list string) :
  List.length l = List.length l' ->
  wrong_count lo hi label range l = wrong_count lo hi label range l'.
Proof.
  intros H. unfold wrong_count, in_range, count_issue. rewrite H. reflexivity.
Qed.

(** X2.  Validated after the repair, a candidate of the expected shape
    gets the issues it had before, less the one about hashtags without
    '#': the repair hides that issue and no other. *)
Theorem repair_hides_the_prefix_issue content c a tags t d kws :
  shaped content c a tags t d kws ->
  exists fixed before after,
    fix_common_errors content = OK fixed /\
    collect_issues content
    = OK (before
          ++ wrong_prefix "Instagram Hashtags: Missing '#' on: " (filter lacks_hash tags)
          ++ after) /\
    collect_issues fixed = OK (before ++ after) /\
    before = too_long 2200 "Instagram Caption: Exceeds 2,200 characters." c
             ++ too_long 100 "Instagram Alt Text: Exceeds 100 characters." a
             ++ wrong_count 15 30 "Instagram Hashtags" "15-30" tags /\
    after = pinterest_checks t d kws.
Proof.
  intros Hs.
  destruct (repair_shape content c a tags t d kws Hs)
    as (fixed & Hfix & Hshape).
  exists fixed,
    (too_long 2200 "Instagram Caption: Exceeds 2,200 characters." c
     ++ too_long 100 "Instagram Alt Text: Exceeds 100 characters." a
     ++ wrong_count 15 30 "Instagram Hashtags" "15-30" tags),
    (pinterest_checks t d kws).
  split; [exact Hfix|].
  split; [|split; [|split; reflexivity]].
  - rewrite (collect_issues_shaped _ _ _ _ _ _ _ Hs). unfold instagram_checks.
    rewrite <- !app_assoc. reflexivity.
  - rewrite (collect_issues_shaped _ _ _ _ _ _ _ Hshape). unfold instagram_checks.
    rewrite (wrong_count_by_length _ _ _ _ (map add_hash tags) tags) by apply length_map.
    replace (filter lacks_hash (map add_hash tags)) with (@nil string).
    2:{ symmetry. apply filter_none. apply Forall_forall. intros h Hin.
        apply in_map_iff in Hin. destruct Hin as (x & <- & _).
        unfold lacks_hash. rewrite add_hash_marked. reflexivity. }
    unfold wrong_prefix. cbn [nonempty]. rewrite <- !app_assoc. reflexivity.
Qed.

Lemma repair_hides_the_prefix_issue_witness :
  exists fixed,
    fix_common_errors bad_sample = OK fixed /\
    collect_issues bad_sample
    = OK ["Instagram Hashtags: Incorrect count (3). Must be 15-30.";
          "Instagram Hashtags: Missing '#' on: ['travel', 'sunset']";
          "Pinterest Keywords: Incorrect count (3). Must be 15-20.";
          "Pinterest Keywords: Should not have '#': ['#travel', '#sunset']"] /\
    collect_issues fixed
    = OK ["Instagram Hashtags: Incorrect count (3). Must be 15-30.";
          "Pinterest Keywords: Incorrect count (3). Must be 15-20.";
          "Pinterest Keywords: Should not have '#': ['#travel', '#sunset']"].
Proof.
  destruct (repair_hides_the_prefix_issue _ _ _ _ _ _ _ bad_sample_shaped)
    as (fixed & before & after & Hfix & Hold & Hnew & -> & ->).
  exists fixed. split; [exact Hfix|]. split; [exact Hold | exact Hnew].
Defined.

Lemma fix_each_again l fl : fix_each l = OK fl -> fix_each fl = OK fl.
Proof.
  revert fl. induction l as [|x l IH]; intros fl H.
  - inversion H. reflexivity.
  - destruct x; try discriminate. simpl in H.
    destruct (fix_each l) as [r|e]; [|discriminate]. inversion H; subst.
    simpl. rewrite (IH r eq_refl), add_hash_twice. reflexivity.
Qed.

Lemma truthy_dict_set k v d : truthy (JDict (dict_set k v d)) = true.
Proof.
  destruct d as [|[k' v'] d]; cbn [dict_set truthy]; [reflexivity|].
  destruct (String.eqb k k'); reflexivity.
Qed.

(** X3.  The repair is idempotent: whatever the candidate, a second pass
    over a repaired candidate changes nothing. *)
Theorem repair_is_idempotent content fixed :
  fix_common_errors content = OK fixed ->
  fix_common_errors fixed = OK fixed.
Proof.
  intros H. generalize H. unfold fix_common_errors at 1.
  destruct (negb (truthy content)); [intros E; inversion E; subst; exact H|].
  destruct (has "instagram" content) as [[|]|e] eqn:Hin;
    [|intros E; inversion E; subst; exact H|discriminate].
  destruct (subscript content "instagram") as [ig|e] eqn:Hig; [|discriminate].
  destruct (has "hashtags" ig) as [[|]|e] eqn:Hh;
    [|intros E; inversion E; subst; exact H|discriminate].
  destruct (get_or ig "hashtags" (JList [])) as [v|e] eqn:Hg; [|discriminate].
  destruct v as [| | | |l|]; try (intros E; inversion E; subst; exact H).
  destruct (fix_each l) as [fl|e] eqn:Hf; [|discriminate].
  destruct (subscript_dict _ _ _ Hig) as (cd & -> & Hcd).
  destruct ig as [| | | | |igd]; try discriminate.
  cbn [store]. intros E. inversion E; subst fixed. clear E.
  unfold fix_common_errors.
  assert (Ht : truthy (JDict (dict_set "instagram"
                                (JDict (dict_set "hashtags" (JList fl) igd)) cd)) = true).
  { apply truthy_dict_set. }
  rewrite Ht. cbn [negb has subscript]. rewrite !assoc_dict_set_same.
  cbn [has get_or]. rewrite !assoc_dict_set_same, (fix_each_again _ _ Hf).
  cbn [store]. rewrite !dict_set_twice. reflexivity.
Qed.

Lemma repair_is_idempotent_witness :
  exists fixed,
    fix_common_errors bad_sample = OK fixed /\ fix_common_errors fixed = OK fixed.
Proof.
  eexists. split; [reflexivity|]. apply (repair_is_idempotent bad_sample). reflexivity.
Defined.

Lemma fix_each_not_str l :
  (exists x, In x l /\ forall s, x <> JStr s) -> fix_each l = Raise AttributeError.
Proof.
  intros (x & Hin & Hx). induction l as [|y l IH]; [contradiction|].
  destruct Hin as [->|Hin].
  - destruct x; try reflexivity. exfalso. exact (Hx s eq_refl).
  - destruct y; try reflexivity. simpl. rewrite (IH Hin). reflexivity.
Qed.

(** X4.  What the repair cannot repair.  A candidate without an Instagram
    block, without hashtags in it, or with hashtags that are not a list
    comes back as it is; one hashtag that is not a string, wherever it
    stands in the list, makes the repair raise [AttributeError]. *)
Theorem repair_leaves_or_raises cd :
  (assoc "instagram" cd = None -> fix_common_errors (JDict cd) = OK (JDict cd)) /\
  (forall igd,
      assoc "instagram" cd = Some (JDict igd) ->
      (assoc "hashtags" igd = None -> fix_common_errors (JDict cd) = OK (JDict cd)) /\
      (forall v,
          assoc "hashtags" igd = Some v -> (forall l, v <> JList l) ->
          fix_common_errors (JDict cd) = OK (JDict cd)) /\
      (forall l,
          assoc "hashtags" igd = Some (JList l) ->
          (exists x, In x l /\ forall s, x <> JStr s) ->
          fix_common_errors (JDict cd) = Raise AttributeError)).
Proof.
  split.
  - intros H. unfold fix_common_errors. destruct (negb (truthy (JDict cd))); [reflexivity|].
    cbn [has]. rewrite H. reflexivity.
  - intros igd Hig.
    assert (Ht : truthy (JDict cd) = true) by (destruct cd; [discriminate|reflexivity]).
    unfold fix_common_errors. rewrite Ht. cbn [negb has subscript]. rewrite Hig.
    cbn [has get_or]. repeat split.
    + intros H. rewrite H. reflexivity.
    + intros v H Hv. rewrite H. destruct v; try reflexivity. exfalso. exact (Hv l eq_refl).
    + intros l H Hx. rewrite H, (fix_each_not_str l Hx). reflexivity.
Qed.

Lemma repair_leaves_or_raises_witness :
  fix_common_errors
    (JDict [("instagram", JDict [("hashtags", JList [JStr "#sea"; JNum 7; JStr "sun"])])])
  = Raise AttributeError.
Proof.
  refine (proj2 (proj2 (proj2 (repair_leaves_or_raises
            [("instagram", JDict [("hashtags", JList [JStr "#sea"; JNum 7; JStr "sun"])])])
            [("hashtags", JList [JStr "#sea"; JNum 7; JStr "sun"])] eq_refl))
            [JStr "#sea"; JNum 7; JStr "sun"] eq_refl _).
  exists (JNum 7). split; [right; left; reflexivity | discriminate].
Defined.

(** ** The validator, further *)

Import Verdict.

Lemma existsb_opt {A : Type} (f : A -> bool) (c : bool) (x : A) :
  existsb f (if c then [x] else []) = c && f x.
Proof. destruct c; simpl; [apply orb_false_r | reflexivity]. Qed.

Lemma nonempty_filter {A : Type} (p : A -> bool) (l : list A) :
  nonempty (filter p l) = existsb p l.
Proof.
  induction l as [|x l IH]; [reflexivity|]. simpl. destruct (p x); [reflexivity|exact IH].
Qed.

Ltac decide_labels :=
  cbv beta;
  repeat match goal with
         | |- context [Py.startswith ?m ?p] =>
             let b := eval lazy in (Py.startswith m p) in
             change (Py.startswith m p) with b
         end;
  rewrite ?andb_false_r, ?andb_true_r, ?orb_false_r, ?orb_false_l;
  reflexivity.

(** X5.  On a candidate of the expected shape each of the eight issues is
    reported exactly when its constraint is broken: a caption of more
    than 2200 characters, an Instagram alt text or a Pinterest title of
    more than 100, a description of more than 500, hashtags not 15 to
    30 in number or keywords not 15 to 20, a hashtag without '#', a
    keyword with one.  The bounds themselves pass. *)
Theorem issue_reported_exactly_when_violated content c a tags t d kws :
  shaped content c a tags t d kws ->
  exists issues,
    collect_issues content = OK issues /\
    reported "Instagram Caption:" issues = (2200 <? String.length c)%nat /\
    reported "Instagram Alt Text:" issues = (100 <? String.length a)%nat /\
    reported "Instagram Hashtags: Incorrect count" issues
    = negb ((15 <=? List.length tags) && (List.length tags <=? 30))%nat /\
    reported "Instagram Hashtags: Missing" issues
    = existsb (fun h => negb (Py.startswith h "#")) tags /\
    reported "Pinterest Title:" issues = (100 <? String.length t)%nat /\
    reported "Pinterest Description:" issues = (500 <? String.length d)%nat /\
    reported "Pinterest Keywords: Incorrect count" issues
    = negb ((15 <=? List.length kws) && (List.length kws <=? 20))%nat /\
    reported "Pinterest Keywords: Should not have" issues
    = existsb (fun k => Py.startswith k "#") kws.
Proof.
  intros Hs. eexists. split; [exact (collect_issues_shaped _ _ _ _ _ _ _ Hs)|].
  unfold instagram_checks, pinterest_checks, reported.
  rewrite !existsb_app.
  unfold too_long, wrong_count, wrong_prefix, in_range.
  rewrite !existsb_opt, !nonempty_filter.
  unfold count_issue, prefix_issue, lacks_hash, has_hash.
  repeat split; decide_labels.
Qed.

Lemma issue_reported_exactly_when_violated_witness :
  exists issues,
    collect_issues three_hashtags = OK issues /\
    reported "Instagram Hashtags: Incorrect count" issues = true /\
    reported "Instagram Hashtags: Missing" issues = true /\
    reported "Pinterest Title:" issues = false.
Proof.
  destruct (issue_reported_exactly_when_violated _ _ _ _ _ _ _ three_hashtags_shaped)
    as (issues & H & _ & _ & Hcount & Hmark & Htitle & _).
  exists issues. split; [exact H|]. rewrite Hcount, Hmark, Htitle. repeat split.
Defined.




Lemma comprehension_not_str keep l :
  (exists x, In x l /\ forall s, x <> JStr s) -> comprehension keep l = Raise AttributeError.
Proof.
  intros (x & Hin & Hx). induction l as [|y l IH]; [contradiction|].
  destruct Hin as [->|Hin].
  - destruct x; try reflexivity. exfalso. exact (Hx s eq_refl).
  - destruct y; try reflexivity. simpl. rewrite (IH Hin). reflexivity.
Qed.

(** X7.  A value of the wrong kind is no issue but an exception that
    leaves the validator.  A caption that has no length (a number, a
    boolean, null) raises [TypeError]; with caption and alt text in
    order, one hashtag that is not a string raises [AttributeError],
    whatever the other hashtags and the Pinterest block. *)
Theorem wrong_kind_of_value_raises content ig :
  subscript content "instagram" = OK ig ->
  (forall v,
      subscript ig "caption" = OK v -> len v = Raise TypeError ->
      comprehensive_content_validator content = Raise TypeError) /\
  (forall caption alt_text l,
      subscript ig "caption" = OK (JStr caption) ->
      subscript ig "alt_text" = OK (JStr alt_text) ->
      subscript ig "hashtags" = OK (JList l) ->
      (exists x, In x l /\ forall s, x <> JStr s) ->
      comprehensive_content_validator content = Raise AttributeError).
Proof.
  intros Hig. split.
  - intros v Hc Hl.
    unfold comprehensive_content_validator, collect_issues, try_block.
    rewrite Hig, bind_lift_OK. unfold len_of at 1. rewrite Hc, Hl. reflexivity.
  - intros caption alt_text l Hc Ha Hh Hx.
    unfold comprehensive_content_validator, collect_issues, try_block.
    rewrite Hig, bind_lift_OK.
    rewrite (len_of_str _ _ _ Hc), bind_lift_OK, when_append.
    rewrite (len_of_str _ _ _ Ha), bind_lift_OK, when_append.
    assert (El : len_of ig "hashtags" = lift (OK (List.length l)))
      by (unfold len_of; rewrite Hh; reflexivity).
    rewrite El, bind_lift_OK, when_count.
    unfold pick. rewrite Hh. cbn [items]. rewrite (comprehension_not_str _ l Hx).
    reflexivity.
Qed.

Lemma wrong_kind_of_value_raises_witness :
  comprehensive_content_validator caption_is_a_number = Raise TypeError /\
  comprehensive_content_validator hashtag_is_a_number = Raise AttributeError.
Proof.
  split.
  - refine (proj1 (wrong_kind_of_value_raises caption_is_a_number _ eq_refl)
              (JNum 42) eq_refl eq_refl).
  - refine (proj2 (wrong_kind_of_value_raises hashtag_is_a_number _ eq_refl)
              "The sea." "The sea." [JStr "#sea"; JNum 2024] eq_refl eq_refl eq_refl _).
    exists (JNum 2024). split; [right; left; reflexivity | discriminate].
Defined.

(** *** What the validator can raise *)

Lemma mild_bind {A B : Type} (m : V A) (f : A -> V B) :
  (forall i i' e, m i = (i', Raise e) -> mild e) ->
  (forall a i i' e, f a i = (i', Raise e) -> mild e) ->
  forall i i' e, bind m f i = (i', Raise e) -> mild e.
Proof.
  intros Hm Hf i i' e. unfold bind.
  destruct (m i) as [i1 [a|e1]] eqn:E.
  - apply Hf.
  - intros H. inversion H; subst. exact (Hm _ _ _ E).
Qed.

Lemma mild_lift {A : Type} (r : result A) :
  (forall e, r = Raise e -> mild e) ->
  forall i i' e, lift r i = (i', Raise e) -> mild e.
Proof. intros Hr i i' e H. unfold lift in H. inversion H. auto. Qed.

Lemma mild_subscript v k e : subscript v k = Raise e -> mild e.
Proof.
  unfold mild. destruct v; simpl; intros H; inversion H; auto.
  destruct (assoc k d); inversion H. eauto.
Qed.

Lemma mild_len v e : len v = Raise e -> mild e.
Proof. unfold mild. destruct v; simpl; intros H; inversion H; auto. Qed.

Lemma mild_items v e : items v = Raise e -> mild e.
Proof. unfold mild. destruct v; simpl; intros H; inversion H; auto. Qed.

Lemma mild_comprehension keep l e : comprehension keep l = Raise e -> mild e.
Proof.
  unfold mild. induction l as [|x l IH]; simpl; [discriminate|].
  destruct x; try (intros H; inversion H; auto; fail).
  destruct (comprehension keep l); [discriminate|]. intros H; inversion H; subst. auto.
Qed.

Lemma mild_len_of d k i i' e : len_of d k i = (i', Raise e) -> mild e.
Proof.
  apply mild_lift. intros e'. destruct (subscript d k) eqn:E.
  - apply mild_len.
  - intros H; inversion H; subst. exact (mild_subscript _ _ _ E).
Qed.

Lemma mild_pick d k keep i i' e : pick d k keep i = (i', Raise e) -> mild e.
Proof.
  apply mild_lift. intros e'. destruct (subscript d k) as [v|e1] eqn:E.
  - destruct (items v) as [l|e2] eqn:E2.
    + apply mild_comprehension.
    + intros H; inversion H; subst. exact (mild_items _ _ E2).
  - intros H; inversion H; subst. exact (mild_subscript _ _ _ E).
Qed.

Lemma mild_when b (m : V unit) :
  (forall i i' e, m i = (i', Raise e) -> mild e) ->
  forall i i' e, when b m i = (i', Raise e) -> mild e.
Proof. intros Hm i i' e. destruct b; simpl; [apply Hm|discriminate]. Qed.

Lemma mild_append issue i i' e : append issue i = (i', Raise e) -> mild e.
Proof. discriminate. Qed.

Lemma mild_try_block content i i' e : try_block content i = (i', Raise e) -> mild e.
Proof.
  revert i i' e. unfold try_block.
  repeat first
    [ apply mild_bind; [|intros ?]
    | intros ? ? ?; apply mild_len_of
    | intros ? ? ?; apply mild_pick
    | apply mild_when
    | intros ? ? ?; apply mild_append
    | apply mild_lift; intros ?; apply mild_subscript ].
Qed.

(** The validator raises for a value of the wrong kind only, never for a
    missing key. *)
Lemma validator_raises content e :
  comprehensive_content_validator content = Raise e ->
  e = TypeError \/ e = AttributeError.
Proof.
  unfold comprehensive_content_validator, collect_issues.
  destruct (try_block content []) as [i [u|e1]] eqn:E; [discriminate|].
  destruct (mild_try_block _ _ _ _ E) as [->|[->|(k & ->)]]; intros H; inversion H; auto.
Qed.

(** ** The retry graph, further *)

Import Course.

Section Passing.

Variable llm : Model.

Lemma validate_accepted st content :
  social_content st = Some content -> accepted content ->
  validate_content_node st = OK (feedback_only "Validation Passed").
Proof.
  intros Hc [Ht Hi]. unfold validate_content_node. rewrite Hc, Ht. cbn [negb].
  unfold Validator.comprehensive_content_validator. rewrite Hi. reflexivity.
Qed.

(** The loop, when the attempts before number [k] are turned down and
    attempt [k] is in order. *)
Lemma passes_at :
  client llm = OK tt ->
  forall k,
    (forall n p, n < k -> exists c, content_reply llm n p = OK c /\ rejected c) ->
    (forall p, exists c, content_reply llm k p = OK c /\ accepted c) ->
    forall d limit job a c m,
      analysis (state job) = Some a ->
      retry_count (state job) = Some c ->
      max_retries (state job) = Some m ->
      error_history (state job) = None ->
      ~ In warning_max_retries (shown job) ->
      d = k - calls job -> calls job <= k ->
      (c + Z.of_nat d <= m)%Z ->
      3 * d + 3 <= limit ->
      exists job',
        run llm limit content_creator job = (job', OK tt) /\
        calls job' = k + 1 /\
        retry_count (state job') = Some (c + Z.of_nat d)%Z /\
        error_history (state job') = None /\
        (exists before, shown job' = before ++ [success_validated]) /\
        ~ In warning_max_retries (shown job') /\
        (exists p content,
            content_reply llm k p = OK content /\ accepted content /\
            social_content (state job') = Some content).
Proof.
  intros Hcl k Hrej Hacc.
  induction d as [|d IH]; intros limit job a c m Ha Hc Hm He Hw Hd Hk Hle Hlim.
  - destruct limit as [|[|[|limit]]]; [lia|lia|lia|].
    destruct job as [[img an sc vf rc mr eh] j sh]. cbn in Ha, Hc, Hm, He, Hw, Hd, Hk. subst.
    assert (j = k) by lia. subst j.
    rewrite run_creator. cbv zeta. unfold create_social_content_node, build_prompt.
    cbn [state calls shown analysis key validation_feedback]. rewrite Hcl.
    match goal with |- context [content_reply llm k ?p] =>
      destruct (Hacc p) as (content & Hr & Hok); rewrite Hr;
      set (prompt := p) in * end.
    rewrite run_validator. cbv zeta. cbn [state calls shown].
    rewrite (validate_accepted _ content) by (reflexivity || exact Hok).
    unfold should_continue, update, feedback_only.
    cbn [error_history validation_feedback retry_count max_retries over get key
         Validator.nonempty].
    replace (Py.contains "Failed" "Validation Passed") with false by reflexivity.
    simpl assoc. cbv iota. rewrite finish_room.
    eexists. split; [reflexivity|].
    cbn [state calls shown retry_count error_history social_content over].
    repeat split.
    + lia.
    + f_equal. lia.
    + eexists. reflexivity.
    + intros Hin. rewrite !in_app_iff in Hin. simpl in Hin.
      intuition discriminate.
    + exists prompt, content. auto.
  - destruct limit as [|[|[|limit]]]; try lia.
    destruct job as [[img an sc vf rc mr eh] j sh]. cbn in Ha, Hc, Hm, He, Hw, Hd, Hk. subst.
    rewrite run_creator. cbv zeta. unfold create_social_content_node, build_prompt.
    cbn [state calls shown analysis key validation_feedback]. rewrite Hcl.
    match goal with |- context [content_reply llm j ?p] =>
      destruct (Hrej j p ltac:(lia)) as (content & Hr & fb & Hv & Hf); rewrite Hr end.
    rewrite run_validator. cbv zeta. cbn [state calls shown].
    rewrite (validate_reads_content _ (only_content content)), Hv by reflexivity.
    unfold should_continue, update, feedback_only.
    cbn [error_history validation_feedback retry_count max_retries over get key
         Validator.nonempty].
    rewrite Hf.
    destruct (Z.geb_spec c m) as [Hge|Hlt]; [lia|].
    simpl assoc. cbv iota.
    rewrite run_retry. unfold increment_retry_node. cbn [state retry_count key].
    match goal with |- context [run llm limit content_creator ?job1] =>
      destruct (IH limit job1 a (c + 1)%Z m)
        as (job' & Hrun & Hcalls & Hrc & Heh & Hsh & Hnw & Hcontent);
        try reflexivity; cbn [calls shown]; try lia end.
    { intros Hin. rewrite !in_app_iff in Hin. simpl in Hin. intuition discriminate. }
    exists job'. split; [exact Hrun|].
    repeat split; auto.
    rewrite Hrc. f_equal. lia.
Qed.

End Passing.

(** X8.  A job passes at the first attempt that is in order.  When the
    image analysis succeeds, attempts 0 to [k - 1] are turned down by
    the validator, attempt [k] is in order, [k] is within the retry
    budget and the step limit is above [3 * k + 3], the job makes
    exactly [k + 1] generation calls, reaches
    [END] with the success notice as the last thing shown and without
    the "max retries" warning, and holds the content of attempt [k]. *)
Theorem job_passes_at_first_accepted_attempt llm img retries k :
  client llm = OK tt ->
  (exists a, analysis_reply llm img = OK a) ->
  (forall n p, n < k -> exists c, content_reply llm n p = OK c /\ rejected c) ->
  (forall p, exists c, content_reply llm k p = OK c /\ accepted c) ->
  (Z.of_nat k <= retries)%Z ->
  forall limit,
    3 * k + 3 < limit ->
    exists job,
      invoke llm limit (inputs img retries) = (job, OK tt) /\
      calls job = k + 1 /\
      retry_count (state job) = Some (Z.of_nat k) /\
      error_history (state job) = None /\
      (exists before, shown job = before ++ [success_validated]) /\
      ~ In warning_max_retries (shown job) /\
      (exists p content,
          content_reply llm k p = OK content /\ accepted content /\
          social_content (state job) = Some content).
Proof.
  intros Hcl (a & Ha) Hrej Hacc Hk limit Hlim.
  unfold invoke. destruct limit as [|limit]; [lia|].
  rewrite run_analyzer. cbv zeta. cbn [state calls shown]. rewrite analyze_inputs, Hcl, Ha.
  match goal with |- context [run llm limit content_creator ?j] =>
    destruct (passes_at llm Hcl k Hrej Hacc k limit j a 0%Z retries)
      as (job' & Hrun & Hcalls & Hrc & Heh & Hsh & Hnw & Hc);
      try reflexivity; cbn [calls shown]; try lia end.
  { simpl. intuition discriminate. }
  exists job'. repeat split; auto.
Qed.

Lemma job_passes_at_first_accepted_attempt_witness :
  exists job,
    invoke second_try 25 (inputs "aW1hZ2U=" 2) = (job, OK tt) /\
    calls job = 2 /\
    retry_count (state job) = Some 1%Z /\
    social_content (state job) = Some Validator.good_candidate.
Proof.
  destruct (job_passes_at_first_accepted_attempt second_try "aW1hZ2U=" 2 1)
    with (limit := 25)
    as (job & Hrun & Hcalls & Hrc & _ & _ & _ & p & content & Hreply & _ & Hcontent).
  - reflexivity.
  - eexists. reflexivity.
  - intros n p Hn. exists Validator.three_hashtags. split.
    + destruct n as [|n]; [reflexivity|lia].
    + eexists. split; reflexivity.
  - intros p. exists Validator.good_candidate. split; [reflexivity|]. split; reflexivity.
  - lia.
  - simpl. lia.
  - exists job. split; [exact Hrun|]. split; [exact Hcalls|]. split; [exact Hrc|].
    rewrite Hcontent. f_equal. simpl in Hreply. inversion Hreply. reflexivity.
Defined.

Section Counters.

Variable llm : Model.

Lemma settled_raise m img node job e :
  node <> analyzer ->
  in_step m img node job -> settled m img job (Raise e).
Proof.
  intros Hn (Hm & Hi & He & Hc). unfold settled. repeat split; auto.
  destruct node; [congruence| | |].
  - destruct Hc as [(-> & _ & ->)|(c & -> & Hk & Hr)].
    + split; [reflexivity|discriminate].
    + split; [lia|]. split; [left; exact Hk|discriminate].
  - destruct Hc as (c & -> & Hk & Hr). split; [lia|]. split; [right; exact Hk|discriminate].
  - destruct Hc as (c & -> & Hk & Hr). split; [lia|]. split; [right; exact Hk|discriminate].
Qed.

Lemma in_step_shown m img node job sh :
  in_step m img node job ->
  in_step m img node {| state := state job; calls := calls job; shown := sh |}.
Proof. intros H. exact H. Qed.

(** The counters stay in step along the graph. *)
Lemma run_in_step m img limit :
  forall node job,
    node <> analyzer ->
    in_step m img node job ->
    settled m img (fst (run llm limit node job)) (snd (run llm limit node job)).
Proof.
  induction limit as [|limit IH]; intros node job Hn Hin.
  { simpl. eapply settled_raise; eauto. }
  destruct node; [congruence| | |].
  - (* content_creator *)
    rewrite run_creator. cbv zeta.
    destruct (create_social_content_node llm (calls job) (state job)) as [upd|e] eqn:E.
    2:{ cbn [fst snd]. apply (settled_raise m img content_creator); [discriminate|].
        apply in_step_shown. exact Hin. }
    apply IH; [discriminate|].
    destruct Hin as (Hm & Hi & He & Hc).
    unfold create_social_content_node in E.
    destruct (build_prompt (state job)) as [p|e'] eqn:Ep; [|discriminate].
    assert (Ha : exists a, analysis (state job) = Some a).
    { unfold build_prompt in Ep. destruct (analysis (state job)); [eauto|discriminate]. }
    destruct Ha as (a & Ha).
    destruct Hc as [(_ & Hna & _)|(c & Hc & Hk & Hr)]; [congruence|].
    destruct (client llm) as [[]|?]; [|discriminate].
    unfold in_step. cbn [state calls].
    destruct (content_reply llm (calls job) p); inversion E; subst upd;
      unfold update; cbn [max_retries Graph.image_base64 error_history retry_count over];
      (split; [exact Hm|]; split; [exact Hi|]; split;
       [first [exact He | right; eexists; reflexivity]
       | exists c; repeat split; auto; lia]).
  - (* validator *)
    rewrite run_validator. cbv zeta.
    destruct (validate_content_node (state job)) as [upd|e] eqn:E.
    2:{ cbn [fst snd]. apply (settled_raise m img validator); [discriminate|].
        apply in_step_shown. exact Hin. }
    destruct (validate_sets _ _ E) as (fb & ->).
    assert (Hin' : in_step m img validator
                     {| state := update (state job) (feedback_only fb);
                        calls := calls job;
                        shown := shown job ++ [write_validating] |}).
    { exact Hin. }
    destruct (should_continue (update (state job) (feedback_only fb)))
      as [[route ui]|e] eqn:Es.
    2:{ cbn [fst snd]. apply (settled_raise m img validator); [discriminate|exact Hin']. }
    destruct Hin' as (Hm & Hi & He & (c & Hc & Hk & Hr)).
    destruct (should_continue_routes _ _ _ Es)
      as [(-> & _) | [(-> & _) | (c' & m' & Hc' & Hm' & _ & _ & [(-> & _) | (-> & _ & Hlt)])]];
      simpl assoc; cbv iota; cbn [fst snd].
    + destruct limit; unfold settled; cbn [finish fst snd state calls] in *; rewrite Hc;
        repeat split; auto; lia.
    + destruct limit; unfold settled; cbn [finish fst snd state calls] in *; rewrite Hc;
        repeat split; auto; lia.
    + destruct limit; unfold settled; cbn [finish fst snd state calls] in *; rewrite Hc;
        repeat split; auto; lia.
    + apply IH; [discriminate|]. unfold in_step. cbn [state calls] in *.
      repeat split; auto. exists c. rewrite Hc in Hc'. rewrite Hm in Hm'.
      inversion Hc'; inversion Hm'; subst. repeat split; auto; lia.
  - (* retry_counter *)
    rewrite run_retry.
    destruct (increment_retry_node (state job)) as [upd|e] eqn:E.
    2:{ cbn [fst snd]. apply (settled_raise m img retry_counter); [discriminate|exact Hin]. }
    apply IH; [discriminate|].
    destruct Hin as (Hm & Hi & He & (c & Hc & Hk & Hr)).
    unfold increment_retry_node in E. rewrite Hc in E. cbn [key] in E.
    inversion E; subst upd.
    unfold in_step, update.
    cbn [state calls max_retries Graph.image_base64 error_history retry_count over].
    repeat split; auto. right. exists (c + 1)%Z. repeat split; auto; lia.
Qed.

Lemma invoke_settled limit img retries :
  settled retries img (fst (invoke llm limit (inputs img retries)))
    (snd (invoke llm limit (inputs img retries))).
Proof.
  unfold invoke. destruct limit as [|limit].
  { simpl. unfold settled. simpl. repeat split; auto; discriminate. }
  rewrite run_analyzer. cbv zeta. cbn [state calls shown]. rewrite analyze_inputs.
  destruct (client llm) as [[]|?].
  2:{ cbn [fst snd]. unfold settled. simpl. repeat split; auto; discriminate. }
  destruct (analysis_reply llm img) as [a|e]; (apply run_in_step; [discriminate|]);
    unfold in_step, update, inputs;
    cbn [state calls max_retries Graph.image_base64 error_history retry_count analysis over].
  - repeat split; auto. right. exists 0%Z. repeat split; auto; lia.
  - repeat split; eauto.
Qed.

End Counters.

(** X9.  The generation calls keep in step with the retry count.
    However a job ends, its retry count lies between 0 and
    [max_retries], the number of generation calls made is the retry
    count or one more, and exactly one more when the job reached [END];
    a job whose image analysis left no retry count made no call and did
    not reach [END]. *)
Theorem calls_keep_in_step_with_retry_count llm limit img retries :
  match retry_count (state (fst (invoke llm limit (inputs img retries)))) with
  | None =>
      calls (fst (invoke llm limit (inputs img retries))) = 0 /\
      snd (invoke llm limit (inputs img retries)) <> OK tt
  | Some c =>
      (0 <= c <= Z.max 0 retries)%Z /\
      (Z.of_nat (calls (fst (invoke llm limit (inputs img retries)))) = c \/
       Z.of_nat (calls (fst (invoke llm limit (inputs img retries)))) = (c + 1)%Z) /\
      (snd (invoke llm limit (inputs img retries)) = OK tt ->
       Z.of_nat (calls (fst (invoke llm limit (inputs img retries)))) = (c + 1)%Z)
  end.
Proof. exact (proj2 (proj2 (proj2 (invoke_settled llm limit img retries)))). Qed.

Lemma calls_keep_in_step_with_retry_count_witness :
  Z.of_nat (calls (fst (invoke stubborn 25 (inputs "aW1hZ2U=" 2)))) = (2 + 1)%Z.
Proof.
  pose proof (calls_keep_in_step_with_retry_count stubborn 25 "aW1hZ2U=" 2) as H.
  change (retry_count (state (fst (invoke stubborn 25 (inputs "aW1hZ2U=" 2)))))
    with (Some 2%Z) in H.
  cbv iota in H. apply H. reflexivity.
Defined.

(** X10.  A job never changes what was submitted and never holds more than
    one failure.  However it ends, [max_retries] and the image are those
    of the inputs, and [error_history] is absent or has exactly one
    entry. *)
Theorem job_keeps_its_inputs_and_one_failure llm limit img retries :
  max_retries (state (fst (invoke llm limit (inputs img retries)))) = Some retries /\
  Graph.image_base64 (state (fst (invoke llm limit (inputs img retries)))) = Some img /\
  (error_history (state (fst (invoke llm limit (inputs img retries)))) = None \/
   exists failure,
     error_history (state (fst (invoke llm limit (inputs img retries)))) = Some [failure]).
Proof.
  destruct (invoke_settled llm limit img retries) as (Hm & Hi & He & _). auto.
Qed.

Section Limit.

Variable llm : Model.
Hypothesis Hcl : client llm = OK tt.

Lemma create_raises n st e :
  create_social_content_node llm n st = Raise e -> e = KeyError "analysis".
Proof.
  unfold create_social_content_node, build_prompt. rewrite Hcl.
  destruct (analysis st); cbn [key].
  - destruct (content_reply llm n _); discriminate.
  - intros H; inversion H; reflexivity.
Qed.

Lemma validate_raises st e :
  validate_content_node st = Raise e -> e = TypeError \/ e = AttributeError.
Proof.
  unfold validate_content_node.
  destruct (social_content st) as [c|]; [|discriminate].
  destruct (negb (truthy c)); [discriminate|].
  destruct (comprehensive_content_validator c) eqn:E; [discriminate|].
  intros H; inversion H; subst. exact (validator_raises _ _ E).
Qed.

Lemma should_continue_raises st e :
  should_continue st = Raise e -> exists k, e = KeyError k.
Proof.
  unfold should_continue.
  destruct (nonempty _); [discriminate|].
  destruct (Py.contains _ _); [|discriminate].
  destruct (retry_count st); cbn [key]; [|intros H; inversion H; eauto].
  destruct (max_retries st); cbn [key]; [|intros H; inversion H; eauto].
  destruct (_ >=? _)%Z; discriminate.
Qed.

Lemma increment_raises st e :
  increment_retry_node st = Raise e -> exists k, e = KeyError k.
Proof.
  unfold increment_retry_node.
  destruct (retry_count st); cbn [key]; [discriminate|intros H; inversion H; eauto].
Qed.

(** From a node, [steps_left] steps are enough. *)
Lemma run_within_steps m limit :
  forall node job,
    node <> analyzer ->
    max_retries (state job) = Some m ->
    steps_left m node (state job) <= limit ->
    snd (run llm limit node job) <> Raise GraphRecursionError.
Proof.
  induction limit as [|limit IH]; intros node job Hn Hm Hs.
  { destruct node; [congruence| | |]; cbn [steps_left] in Hs; try lia.
    destruct (retry_count (state job)); lia. }
  destruct node; [congruence| | |].
  - rewrite run_creator. cbv zeta.
    destruct (create_social_content_node llm (calls job) (state job)) as [upd|e] eqn:E.
    + apply IH; [discriminate| |]; cbn [state].
      * destruct (create_sets llm _ _ _ E) as (_ & Hu & _).
        rewrite update_max_retries; assumption.
      * destruct (create_sets llm _ _ _ E) as (Hu & _).
        cbn [steps_left] in *. rewrite update_retry_count by assumption. lia.
    + cbn [snd]. rewrite (create_raises _ _ _ E). discriminate.
  - rewrite run_validator. cbv zeta. cbn [state calls shown].
    destruct (validate_content_node (state job)) as [upd|e] eqn:E.
    2:{ cbn [snd]. destruct (validate_raises _ _ E) as [-> | ->]; discriminate. }
    destruct (validate_sets _ _ E) as (fb & ->).
    destruct (should_continue (update (state job) (feedback_only fb)))
      as [[route ui]|e] eqn:Es.
    2:{ cbn [snd]. destruct (should_continue_raises _ _ Es) as (k & ->). discriminate. }
    destruct (should_continue_routes _ _ _ Es)
      as [(-> & _) | [(-> & _) | (c & m' & Hc & Hm' & _ & _ & [(-> & _) | (-> & _ & Hlt)])]];
      simpl assoc; cbv iota; cbn [snd];
      try (destruct limit as [|limit];
           [cbn [state steps_left] in Hs; lia | discriminate]).
    rewrite update_max_retries in Hm' by reflexivity. rewrite Hm in Hm'.
    inversion Hm'; subst m'.
    apply IH; [discriminate| |]; cbn [state steps_left] in *.
    + rewrite update_max_retries by reflexivity. exact Hm.
    + rewrite Hc. rewrite update_retry_count in Hc by reflexivity. rewrite Hc in Hs.
      cbn [remaining] in Hs. lia.
  - rewrite run_retry.
    destruct (increment_retry_node (state job)) as [upd|e] eqn:E.
    2:{ cbn [snd]. destruct (increment_raises _ _ E) as (k & ->). discriminate. }
    destruct (increment_sets _ _ E) as (c & Hc & Hc' & Hm' & _).
    apply IH; [discriminate| |]; cbn [state steps_left] in *.
    + rewrite Hm'. exact Hm.
    + rewrite Hc'. rewrite Hc in Hs. cbn [remaining]. lia.
Qed.

End Limit.

(** X11.  The step limit is never what ends a job that has room for its
    retries.  With a client that can be built and a step limit above
    [3 * max_retries + 3] (LangGraph's default of 25 covers up to 7
    retries), [app.invoke] does not raise [GraphRecursionError],
    whatever the model answers. *)
Theorem step_limit_covers_the_retries llm img retries limit :
  client llm = OK tt ->
  3 * Z.to_nat retries + 3 < limit ->
  snd (invoke llm limit (inputs img retries)) <> Raise GraphRecursionError.
Proof.
  intros Hcl Hlim. unfold invoke. destruct limit as [|limit]; [lia|].
  rewrite run_analyzer. cbv zeta. cbn [state calls shown]. rewrite analyze_inputs, Hcl.
  destruct (analysis_reply llm img) as [a|e];
    (apply (run_within_steps llm Hcl retries); [discriminate|reflexivity|]);
    cbn [state steps_left update inputs retry_count over remaining]; lia.
Qed.

Lemma step_limit_covers_the_retries_witness :
  snd (invoke stubborn 25 (inputs "aW1hZ2U=" 7)) <> Raise GraphRecursionError.
Proof.
  apply step_limit_covers_the_retries; [reflexivity|simpl; lia].
Defined.

(** X12.  The issues of a turned-down attempt go into the next prompt.
    When the validator turns the content of a job down and a retry is
    left, the next generation call is made on the analysis and on the
    feedback just produced, between the feedback tags; the retry count
    goes up by one, the attempt shown is [retry_count + 2], and the job
    goes on from the validator with the new content, or with the failure
    of that call as the one entry of [error_history]. *)
Theorem rejected_attempt_feeds_the_next_prompt llm limit job content a c m feedback :
  client llm = OK tt ->
  social_content (state job) = Some content ->
  truthy content = true ->
  comprehensive_content_validator content = OK feedback ->
  Py.contains "Failed" feedback = true ->
  analysis (state job) = Some a ->
  retry_count (state job) = Some c ->
  max_retries (state job) = Some m ->
  error_history (state job) = None ->
  (c < m)%Z ->
  run llm (S (S (S limit))) validator job
  = match content_reply llm (calls job)
            {| prompt_analysis := a; prompt_feedback := tagged feedback |} with
    | OK next =>
        run llm limit validator
          {| state := update (state job)
                        {| Graph.image_base64 := None; analysis := None;
                           social_content := Some next;
                           validation_feedback := Some feedback;
                           retry_count := Some (c + 1)%Z; max_retries := None;
                           error_history := None |};
             calls := S (calls job);
             shown := shown job ++ [write_validating; write_crafting (c + 2)] |}
    | Raise e =>
        run llm limit validator
          {| state := update (state job)
                        {| Graph.image_base64 := None; analysis := None;
                           social_content := None;
                           validation_feedback := Some feedback;
                           retry_count := Some (c + 1)%Z; max_retries := None;
                           error_history :=
                             Some [("Content Generation Failed: " ++ str_exn e)%string] |};
             calls := S (calls job);
             shown := shown job ++ [write_validating; write_crafting (c + 2)] |}
    end.
Proof.
  intros Hcl Hs Ht Hv Hf Ha Hc Hm He Hlt.
  destruct job as [[img an sc vf rc mr eh] j sh]. cbn in Hs, Ha, Hc, Hm, He. subst.
  rewrite run_validator. cbv zeta. cbn [state calls shown].
  unfold validate_content_node. cbn [social_content]. rewrite Ht. cbn [negb]. rewrite Hv.
  unfold should_continue, update, feedback_only.
  cbn [error_history validation_feedback retry_count max_retries over get key
       Validator.nonempty Graph.image_base64 analysis social_content].
  rewrite Hf.
  destruct (Z.geb_spec c m) as [Hge|_]; [lia|].
  simpl assoc. cbv iota.
  rewrite run_retry. unfold increment_retry_node. cbn [state retry_count key calls shown].
  rewrite run_creator. cbv zeta.
  unfold create_social_content_node, build_prompt, update, attempt_number.
  cbn [state calls shown analysis key validation_feedback over get retry_count
       error_history max_retries Graph.image_base64 social_content].
  rewrite Hcl, Hf. fold (tagged feedback).
  replace (c + 1 + 1)%Z with (c + 2)%Z by lia.
  rewrite <- !app_assoc. cbn [app].
  destruct (content_reply llm j _); reflexivity.
Qed.

Lemma rejected_attempt_feeds_the_next_prompt_witness :
  exists feedback,
    comprehensive_content_validator three_hashtags = OK feedback /\
    run stubborn 25 validator after_first_attempt
    = run stubborn 22 validator
        {| state := update (state after_first_attempt)
                      {| Graph.image_base64 := None; analysis := None;
                         social_content := Some three_hashtags;
                         validation_feedback := Some feedback;
                         retry_count := Some 1%Z; max_retries := None;
                         error_history := None |};
           calls := 2;
           shown := shown after_first_attempt ++ [write_validating; write_crafting 2] |}.
Proof.
  eexists. split; [reflexivity|].
  apply (rejected_attempt_feeds_the_next_prompt stubborn 22 after_first_attempt
           three_hashtags (JDict [("content_type", JStr "photo")]) 0%Z 2%Z);
    try reflexivity; lia.
Defined.

(** X13.  A candidate of the wrong kind ends the job with an exception.
    When the first candidate counts as true and makes the validator
    raise (a [TypeError] or an [AttributeError], the only ones it lets
    through), [app.invoke] raises that exception after one generation
    call: nothing is retried, no feedback is written and
    [error_history] stays absent. *)
Theorem wrong_kind_of_candidate_ends_the_job llm img retries limit a content e :
  client llm = OK tt ->
  analysis_reply llm img = OK a ->
  content_reply llm 0 {| prompt_analysis := a; prompt_feedback := EmptyString |} = OK content ->
  truthy content = true ->
  comprehensive_content_validator content = Raise e ->
  3 <= limit ->
  (e = TypeError \/ e = AttributeError) /\
  snd (invoke llm limit (inputs img retries)) = Raise e /\
  calls (fst (invoke llm limit (inputs img retries))) = 1 /\
  shown (fst (invoke llm limit (inputs img retries)))
  = [write_analyzing; write_crafting 1; write_validating] /\
  social_content (state (fst (invoke llm limit (inputs img retries)))) = Some content /\
  validation_feedback (state (fst (invoke llm limit (inputs img retries)))) = None /\
  error_history (state (fst (invoke llm limit (inputs img retries)))) = None.
Proof.
  intros Hcl Ha Hr Ht Hv Hlim. split; [exact (validator_raises _ _ Hv)|].
  destruct limit as [|[|[|limit]]]; try lia.
  unfold invoke. rewrite run_analyzer. cbv zeta. cbn [state calls shown].
  rewrite analyze_inputs, Hcl, Ha.
  rewrite run_creator. cbv zeta.
  unfold create_social_content_node, build_prompt, update, inputs, attempt_number.
  cbn [state calls shown analysis key validation_feedback over get retry_count
       error_history max_retries Graph.image_base64 social_content].
  rewrite Hcl.
  replace (Py.contains "Failed" EmptyString) with false by reflexivity.
  rewrite Hr.
  rewrite run_validator. cbv zeta. cbn [state calls shown].
  unfold validate_content_node. cbn [social_content over]. rewrite Ht. cbn [negb]. rewrite Hv.
  cbn. repeat split; reflexivity.
Qed.

Lemma wrong_kind_of_candidate_ends_the_job_witness :
  snd (invoke careless 25 (inputs "aW1hZ2U=" 2)) = Raise TypeError /\
  calls (fst (invoke careless 25 (inputs "aW1hZ2U=" 2))) = 1.
Proof.
  destruct (wrong_kind_of_candidate_ends_the_job careless "aW1hZ2U=" 2 25
              (JDict [("content_type", JStr "photo")]) caption_is_a_number TypeError)
    as (_ & Hout & Hcalls & _); try reflexivity; [lia|].
  split; [exact Hout|exact Hcalls].
Defined.

(** ** The password form *)

Import Access.

(** The key after a call: set once the form was opened, and never
    unset. *)
Lemma check_password_flag getenv r flag :
  snd (fst (check_password getenv r flag))
  = Some (match flag with Some true => true | _ => false end
          || login r && equals (password r) (getenv "APP_PASSWORD")).
Proof.
  unfold check_password.
  destruct flag as [[|]|]; cbn [orb]; try reflexivity;
    destruct (login r); cbn [andb]; try reflexivity;
    destruct (equals (password r) (getenv "APP_PASSWORD")); reflexivity.
Qed.

Lemma runs_app getenv l1 l2 flag :
  runs getenv (l1 ++ l2) flag
  = (fst (runs getenv l1 flag) ++ fst (runs getenv l2 (snd (runs getenv l1 flag))),
     snd (runs getenv l2 (snd (runs getenv l1 flag)))).
Proof.
  revert flag. induction l1 as [|r l1 IH]; intros flag.
  - simpl. destruct (runs getenv l2 flag); reflexivity.
  - cbn [runs app].
    destruct (check_password getenv r flag) as [[o f] sh].
    rewrite IH. destruct (runs getenv l1 f) as [os f'] eqn:E. cbn [fst snd].
    destruct (runs getenv l2 f'); reflexivity.
Qed.

Lemma runs_flag getenv l flag :
  match snd (runs getenv l flag) with
  | Some true => true
  | _ => false
  end
  = (match flag with Some true => true | _ => false end || opened getenv l).
Proof.
  revert flag. induction l as [|r l IH]; intros flag.
  - simpl. rewrite orb_false_r. reflexivity.
  - cbn [runs opened existsb].
    pose proof (check_password_flag getenv r flag) as Hf.
    destruct (check_password getenv r flag) as [[o f] sh]. cbn [fst snd] in Hf.
    specialize (IH f). destruct (runs getenv l f) as [os f']. cbn [snd] in *.
    rewrite IH, Hf. fold (opened getenv l).
    destruct flag as [[|]|], (login r), (equals (password r) (getenv "APP_PASSWORD"));
      reflexivity.
Qed.

Lemma equals_spec password correct_password :
  equals password correct_password = true <-> correct_password = Some password.
Proof.
  unfold equals. destruct correct_password as [c|].
  - rewrite String.eqb_eq. split; [intros ->; reflexivity|intros H; inversion H; reflexivity].
  - split; discriminate.
Qed.

(** X14.  The page opens only behind a "Login" with the configured
    password.  In a session that starts without the key, a run gets
    [True] from [check_password] exactly when an earlier run was a click
    on "Login" with the value of APP_PASSWORD in the field; the run of
    that click itself ends in [st.rerun()], and every other run gets
    [False].  With APP_PASSWORD not set no run opens the page. *)
Theorem page_opens_only_behind_the_password getenv before r :
  let outcome := fst (fst (check_password getenv r (snd (runs getenv before None)))) in
  (outcome = returns true <-> opened getenv before = true) /\
  (outcome = rerun <->
   opened getenv before = false /\ login r = true /\
   getenv "APP_PASSWORD" = Some (password r)) /\
  (getenv "APP_PASSWORD" = None -> outcome = returns false).
Proof.
  cbv zeta.
  pose proof (runs_flag getenv before None) as Hf. cbn [orb] in Hf.
  assert (Hnone : getenv "APP_PASSWORD" = None -> opened getenv before = false).
  { intros Hn. unfold opened. rewrite Hn. clear Hf.
    induction before as [|x l IH]; [reflexivity|]. cbn [existsb equals].
    rewrite andb_false_r. exact IH. }
  unfold check_password.
  destruct (snd (runs getenv before None)) as [[|]|]; rewrite <- Hf; cbn [fst snd].
  - split; [tauto|]. split.
    + split; [discriminate|]. intros (H & _). discriminate.
    + intros Hn. rewrite (Hnone Hn) in Hf. discriminate.
  - destruct (login r).
    + destruct (equals (password r) (getenv "APP_PASSWORD")) eqn:E; cbn [fst snd].
      * split; [split; discriminate|]. split.
        -- split; [intros _|reflexivity]. repeat split. apply equals_spec. exact E.
        -- intros Hn. apply equals_spec in E. congruence.
      * split; [split; discriminate|]. split; [|reflexivity].
        split; [discriminate|]. intros (_ & _ & H). apply equals_spec in H. congruence.
    + cbn [fst snd]. split; [split; discriminate|]. split; [|reflexivity].
      split; [discriminate|]. intros (_ & H & _). discriminate.
  - destruct (login r).
    + destruct (equals (password r) (getenv "APP_PASSWORD")) eqn:E; cbn [fst snd].
      * split; [split; discriminate|]. split.
        -- split; [intros _|reflexivity]. repeat split. apply equals_spec. exact E.
        -- intros Hn. apply equals_spec in E. congruence.
      * split; [split; discriminate|]. split; [|reflexivity].
        split; [discriminate|]. intros (_ & _ & H). apply equals_spec in H. congruence.
    + cbn [fst snd]. split; [split; discriminate|]. split; [|reflexivity].
      split; [discriminate|]. intros (_ & H & _). discriminate.
Qed.

Lemma page_opens_only_behind_the_password_witness :
  fst (fst (check_password configured {| password := EmptyString; login := false |}
              (snd (runs configured
                      [{| password := "guess"; login := true |};
                       {| password := "s3cret"; login := true |}] None))))
  = returns true.
Proof.
  apply (proj2 (proj1 (page_opens_only_behind_the_password configured
                         [{| password := "guess"; login := true |};
                          {| password := "s3cret"; login := true |}]
                         {| password := EmptyString; login := false |}))).
  reflexivity.
Defined.

(** ** The page after a click *)

Import Page.

Lemma assoc_in_keys {A : Type} k (d : list (string * A)) :
  ~ In k (map fst d) -> assoc k d = None.
Proof.
  induction d as [|[k' v] d IH]; simpl; [reflexivity|].
  intros H. destruct (String.eqb_spec k k') as [->|Hne]; [tauto|]. apply IH. tauto.
Qed.

Lemma kept_keys_in k l : In k (map fst (kept l)) -> In k (map fst l).
Proof.
  unfold kept. induction l as [|[k' v] l IH]; simpl; [tauto|].
  destruct (truthy v); simpl; tauto.
Qed.

Lemma kept_nodup l : NoDup (map fst l) -> NoDup (map fst (kept l)).
Proof.
  unfold kept. induction l as [|[k v] l IH]; simpl; [auto|].
  intros H. inversion H as [|? ? Hnot Hnd]; subst.
  destruct (truthy v); simpl; [|auto].
  constructor; [|auto]. intros Hin. apply Hnot. exact (kept_keys_in _ _ Hin).
Qed.

(** The keys of a selection that have a content are the keys filed, in
    the order of the selection. *)
Lemma keys_with_content l :
  NoDup (map fst l) ->
  filter (fun key => match assoc key (kept l) with Some _ => true | None => false end)
         (map fst l)
  = map fst (kept l).
Proof.
  induction l as [|[k v] l IH]; [reflexivity|].
  intros H. inversion H as [|? ? Hnot Hnd]; subst.
  assert (Hrest : forall d,
             filter (fun key => match assoc key ((k, v) :: d) with
                                | Some _ => true | None => false end) (map fst l)
             = filter (fun key => match assoc key d with
                                  | Some _ => true | None => false end) (map fst l)).
  { intros d. apply filter_ext_in. intros k' Hin. cbn [assoc].
    destruct (String.eqb_spec k' k) as [->|_]; [contradiction|reflexivity]. }
  unfold kept in *. cbn [map fst filter snd].
  destruct (truthy v).
  - rewrite Hrest. cbn [assoc map fst]. rewrite String.eqb_refl. f_equal.
    exact (IH Hnd).
  - rewrite (assoc_in_keys k (filter (fun entry => truthy (snd entry)) l)).
    + exact (IH Hnd).
    + intros Hin. apply Hnot. exact (kept_keys_in _ _ Hin).
Qed.

Lemma assoc_nodup {A : Type} k (v : A) d :
  NoDup (map fst d) -> In (k, v) d -> assoc k d = Some v.
Proof.
  induction d as [|[k' v'] d IH]; simpl; [tauto|].
  intros H. inversion H as [|? ? Hnot Hnd]; subst.
  intros [Heq|Hin].
  - inversion Heq; subst. rewrite String.eqb_refl. reflexivity.
  - destruct (String.eqb_spec k k') as [->|_]; [|auto].
    exfalso. apply Hnot. change k' with (fst (k', v)). apply in_map. exact Hin.
Qed.

Lemma filed_contents d :
  NoDup (map fst d) ->
  Forall (fun entry => truthy (snd entry) = true) d ->
  Forall (fun key => exists content_data,
              assoc key d = Some content_data /\ truthy content_data = true)
         (map fst d).
Proof.
  intros Hnd Ht. apply Forall_forall. intros key Hin.
  apply in_map_iff in Hin. destruct Hin as ([k v] & <- & Hin).
  exists v. split; [exact (assoc_nodup k v d Hnd Hin)|].
  rewrite Forall_forall in Ht. exact (Ht _ Hin).
Qed.

Lemma kept_entries_truthy l : Forall (fun entry => truthy (snd entry) = true) (kept l).
Proof.
  unfold kept. apply Forall_forall. intros x Hin. apply filter_In in Hin. tauto.
Qed.

Lemma tab_names_known keys :
  Forall known keys ->
  tab_names keys = OK (map name (configs keys)) /\
  List.length (configs keys) = List.length keys.
Proof.
  induction 1 as [|key keys [config Hk] _ [IH1 IH2]]; [split; reflexivity|].
  cbn [tab_names configs]. rewrite Hk, IH1. cbn [map List.length]. rewrite IH2.
  split; reflexivity.
Qed.

Section Click.

Variable world : World.

Lemma generate_loop_sends keys image context :
  unset (getenv world "GOOGLE_API_KEY") = false ->
  connect world (Graph.get (getenv world "GOOGLE_API_KEY") EmptyString) = OK tt ->
  Forall known keys ->
  forall content fx,
    outbound (snd (generate_loop world keys image context content fx))
    = outbound fx ++ map (message_of world image context) (configs keys).
Proof.
  intros Hkey Hc. induction 1 as [|key keys [config Hk] _ IH]; intros content fx.
  - simpl. rewrite app_nil_r. reflexivity.
  - rewrite generate_loop_cons. cbn [configs]. rewrite Hk. cbn [map].
    pose proof (generate_outbound world key image context (pydantic_model config) fx) as Ho.
    rewrite Hk, (attempt_sends_one world config image context _ fx Hkey Hc) in Ho.
    destruct (generate_known world key config image context (pydantic_model config) fx Hk)
      as (c & Hr & _).
    destruct (generate_for_platform world key image context (pydantic_model config) fx)
      as [r fx']. cbn [fst snd] in *. subst r.
    rewrite IH, Ho, <- app_assoc. reflexivity.
Qed.

Lemma generate_loop_without_key keys image context :
  unset (getenv world "GOOGLE_API_KEY") = true ->
  Forall known keys ->
  forall content fx,
    generate_loop world keys image context content fx
    = (OK content,
       {| outbound := outbound fx;
          errors := errors fx ++ map key_error_of (configs keys) |}).
Proof.
  intros Hkey. induction 1 as [|key keys [config Hk] _ IH]; intros content fx.
  - simpl. rewrite app_nil_r. destruct fx; reflexivity.
  - rewrite generate_loop_cons. cbn [configs]. rewrite Hk. cbn [map].
    unfold generate_for_platform. rewrite Hk, attempt_without_key by exact Hkey.
    cbn [truthy]. rewrite IH. cbn [outbound errors]. rewrite <- app_assoc. reflexivity.
Qed.

End Click.

(** X15.  After a click the tabs are the platforms with content.  With
    the selection the checkboxes made and the button enabled, the
    handler of the click raises nothing; after it the keys of the tabs
    are the platforms filed in [generated_content], in the order of the
    selection, the labels of the tabs are found in [PLATFORM_CONFIG],
    and every key of a tab has a content in [generated_content], one
    that counts as true.  What the body of a tab then makes of that
    content is not part of the statement. *)
Theorem tabs_follow_the_generated_content world ticked s fx :
  platforms_selected s = select_platforms ticked ->
  can_generate s = true ->
  exists s',
    fst (generate_content world s fx) = OK s' /\
    platforms_selected s' = platforms_selected s /\
    platform_keys_with_content s' = map fst (generated_content s') /\
    tab_names (platform_keys_with_content s')
    = OK (map name (configs (platform_keys_with_content s'))) /\
    List.length (configs (platform_keys_with_content s'))
    = List.length (generated_content s') /\
    Forall (fun key => exists content_data,
                assoc key (generated_content s') = Some content_data /\
                truthy content_data = true)
           (platform_keys_with_content s').
Proof.
  intros Hsel Hcan.
  destruct (selection_known_nodup ticked) as [Hknown Hnd]. rewrite <- Hsel in Hknown, Hnd.
  unfold generate_content. rewrite Hcan.
  destruct (generate_loop_files world (platforms_selected s)
              (Graph.get (App.image_base64 s) EmptyString) (business_context s)
              Hknown Hnd [] fx ltac:(reflexivity)) as [H1 H2].
  rewrite H1. cbn [app fst].
  set (l := fst (returned world (platforms_selected s)
                   (Graph.get (App.image_base64 s) EmptyString) (business_context s) fx)) in *.
  eexists. split; [reflexivity|].
  unfold platform_keys_with_content.
  cbn [generated_content platforms_selected].
  assert (Hl : NoDup (map fst l)) by (rewrite H2; exact Hnd).
  rewrite <- H2, (keys_with_content l Hl).
  assert (Hk : Forall known (map fst (kept l))).
  { apply Forall_forall. intros k Hin. apply kept_keys_in in Hin. rewrite H2 in Hin.
    rewrite Forall_forall in Hknown. auto. }
  destruct (tab_names_known _ Hk) as [Hn1 Hn2].
  split; [reflexivity|]. split; [reflexivity|]. split; [exact Hn1|].
  split; [rewrite Hn2; apply length_map|].
  apply filed_contents; [apply kept_nodup; exact Hl | apply kept_entries_truthy].
Qed.

Lemma tabs_follow_the_generated_content_witness :
  exists s',
    fst (generate_content one_answer (session ["x"; "linkedin"]) no_effects) = OK s' /\
    platform_keys_with_content s' = map fst (generated_content s') /\
    tab_names (platform_keys_with_content s') = OK ["X (Twitter)"].
Proof.
  destruct (tabs_follow_the_generated_content one_answer
              (fun key => String.eqb key "x" || String.eqb key "linkedin")
              (session ["x"; "linkedin"]) no_effects)
    as (s' & Hrun & _ & Hkeys & Hnames & _); [reflexivity|reflexivity|].
  exists s'. split; [exact Hrun|]. split; [exact Hkeys|].
  rewrite Hnames. simpl in Hrun. inversion Hrun; subst s'. reflexivity.
Defined.

(** X16.  A click sends one message per selected platform.  With the
    selection the checkboxes made, the button enabled, an API key and a
    client that can be built, the messages sent by a click are, in the
    order of the selection, one per platform: the prompt made of that
    platform's configuration and of the business context, and the
    uploaded image as a JPEG data URL; this whatever the model answers. *)
Theorem click_sends_one_message_per_platform world ticked s fx :
  platforms_selected s = select_platforms ticked ->
  can_generate s = true ->
  unset (getenv world "GOOGLE_API_KEY") = false ->
  connect world (Graph.get (getenv world "GOOGLE_API_KEY") EmptyString) = OK tt ->
  outbound (snd (generate_content world s fx))
  = outbound fx ++
    map (message_of world (Graph.get (App.image_base64 s) EmptyString) (business_context s))
        (configs (platforms_selected s)) /\
  List.length (configs (platforms_selected s)) = List.length (platforms_selected s).
Proof.
  intros Hsel Hcan Hkey Hc.
  destruct (selection_known_nodup ticked) as [Hknown _]. rewrite <- Hsel in Hknown.
  split; [|exact (proj2 (tab_names_known _ Hknown))].
  unfold generate_content. rewrite Hcan.
  rewrite <- (generate_loop_sends world (platforms_selected s) _ _ Hkey Hc Hknown [] fx).
  destruct (generate_loop world (platforms_selected s) _ _ [] fx) as [[c|e] fx']; reflexivity.
Qed.

Lemma click_sends_one_message_per_platform_witness :
  List.length (outbound (snd (generate_content one_answer (session ["x"; "linkedin"])
                                no_effects))) = 2.
Proof.
  destruct (click_sends_one_message_per_platform one_answer
              (fun key => String.eqb key "x" || String.eqb key "linkedin")
              (session ["x"; "linkedin"]) no_effects) as [H _];
    [reflexivity|reflexivity|reflexivity|reflexivity|].
  rewrite H. reflexivity.
Defined.

(** X17.  A click without an API key files nothing and sends nothing.
    With the selection the checkboxes made, the button enabled and
    GOOGLE_API_KEY not set, the click leaves [generated_content] empty
    and [just_generated] as it was, sends no message, and shows one
    "GOOGLE_API_KEY not found" error per selected platform, in the order
    of the selection. *)
Theorem click_without_key_only_shows_errors world ticked s fx :
  platforms_selected s = select_platforms ticked ->
  can_generate s = true ->
  unset (getenv world "GOOGLE_API_KEY") = true ->
  generate_content world s fx
  = (OK {| generated_content := [];
           App.image_base64 := App.image_base64 s;
           platforms_selected := platforms_selected s;
           business_context := business_context s;
           just_generated := just_generated s |},
     {| outbound := outbound fx;
        errors := errors fx ++ map key_error_of (configs (platforms_selected s)) |}) /\
  List.length (configs (platforms_selected s)) = List.length (platforms_selected s).
Proof.
  intros Hsel Hcan Hkey.
  destruct (selection_known_nodup ticked) as [Hknown _]. rewrite <- Hsel in Hknown.
  split; [|exact (proj2 (tab_names_known _ Hknown))].
  unfold generate_content. rewrite Hcan.
  rewrite (generate_loop_without_key world _ _ _ Hkey Hknown). reflexivity.
Qed.

Lemma click_without_key_only_shows_errors_witness :
  errors (snd (generate_content no_credentials (session ["instagram"; "x"]) no_effects))
  = ["Error generating content for Instagram: GOOGLE_API_KEY not found in environment variables.";
     "Error generating content for X (Twitter): GOOGLE_API_KEY not found in environment variables."].
Proof.
  destruct (click_without_key_only_shows_errors no_credentials
              (fun key => String.eqb key "instagram" || String.eqb key "x")
              (session ["instagram"; "x"]) no_effects) as [H _];
    [reflexivity|reflexivity|reflexivity|].
  rewrite H. reflexivity.
Defined.

(** ** The retry graph after a failed generation call *)


